(** * notai.py: a shallow embedding of the account automation driver

    The Python module talks to one remote HTTP service and keeps one
    mutable [UserStats] record per account.  The embedding makes the three
    effects of the module explicit:

    - the remote service is an oracle [respond : nat -> http_result] giving
      the outcome of the n-th HTTP exchange of the run (the client is
      deterministic and sequential, so an oracle indexed by the call number
      covers every server behaviour);
    - time is a logical clock in milliseconds, advanced by every
      [asyncio.sleep] and by the latency of every HTTP exchange;
    - Python exceptions are the [Raise] outcome of the monad [M]; the only
      handler of the module, [except Exception], is [try_except].

    JSON numbers are modelled as integers ([Z]); Python floats other than the
    constant 0.875 of [auto_play_game] are outside the model. *)

From Stdlib Require Import ZArith QArith List String Ascii Bool Lia.
Import ListNotations.

Set Warnings "-register-all".

Open Scope string_scope.
Open Scope Z_scope.

(** ** JSON values as Python sees them after [response.json()] *)

Inductive json : Type :=
| JNull
| JBool (b : bool)
| JNum (z : Z)
| JStr (s : string)
| JArr (items : list json)
| JObj (fields : list (string * json)).

(** The exception classes that the module can meet.  All of them derive from
    [Exception], so [except Exception] catches every one. *)
Inductive exn : Type :=
| KeyError
| TypeError
| AttributeError
| IndexError
| ClientError          (* aiohttp transport failure *)
| ClientResponseError  (* raise_for_status on a status >= 400 *)
| JSONError.           (* response.json() on a body that is not JSON *)

Inductive res (A : Type) : Type :=
| Val (a : A)
| Exc (e : exn).
Arguments Val {A} a.
Arguments Exc {A} e.

Module Py.

Fixpoint lookup (k : string) (kv : list (string * json)) : option json :=
  match kv with
  | [] => None
  | (k', v) :: rest => if String.eqb k k' then Some v else lookup k rest
  end.

(** [v[key]] for a string key. *)
Definition getitem (v : json) (key : string) : res json :=
  match v with
  | JObj kv => match lookup key kv with
               | Some x => Val x
               | None => Exc KeyError
               end
  | _ => Exc TypeError
  end.

(** [v.get(key)]: only dicts have the method. *)
Definition get (v : json) (key : string) : res json :=
  match v with
  | JObj kv => match lookup key kv with
               | Some x => Val x
               | None => Val JNull
               end
  | _ => Exc AttributeError
  end.

(** [v[-1]]. *)
Definition getitem_last (v : json) : res json :=
  match v with
  | JArr l => match rev l with
              | x :: _ => Val x
              | [] => Exc IndexError
              end
  | JStr s => match rev (list_ascii_of_string s) with
              | c :: _ => Val (JStr (String c EmptyString))
              | [] => Exc IndexError
              end
  | JObj _ => Exc KeyError
  | _ => Exc TypeError
  end.

(** [bool(v)]. *)
Definition truthy (v : json) : bool :=
  match v with
  | JNull => false
  | JBool b => b
  | JNum z => negb (z =? 0)
  | JStr s => negb (String.eqb s "")
  | JArr l => match l with [] => false | _ => true end
  | JObj kv => match kv with [] => false | _ => true end
  end.

(** Numbers for arithmetic and ordering; [bool] is a subclass of [int]. *)
Definition num (v : json) : res Z :=
  match v with
  | JNum z => Val z
  | JBool b => Val (if b then 1 else 0)
  | _ => Exc TypeError
  end.

(** [a == b]; never raises. *)
Fixpoint eq (a b : json) {struct a} : bool :=
  match a, b with
  | JNull, JNull => true
  | JBool x, JBool y => Bool.eqb x y
  | JBool x, JNum z => (if x then 1 else 0) =? z
  | JNum z, JBool x => z =? (if x then 1 else 0)
  | JNum x, JNum y => x =? y
  | JStr s, JStr t => String.eqb s t
  | JArr l, JArr m =>
      (fix all2 (l : list json) (m : list json) {struct l} : bool :=
         match l, m with
         | [], [] => true
         | x :: l', y :: m' => eq x y && all2 l' m'
         | _, _ => false
         end) l m
  | JObj kv, JObj kv' =>
      (List.length kv =? List.length kv')%nat &&
      (fix sub (kv : list (string * json)) {struct kv} : bool :=
         match kv with
         | [] => true
         | (k, v) :: rest =>
             match lookup k kv' with
             | Some v' => eq v v'
             | None => false
             end && sub rest
         end) kv
  | _, _ => false
  end.

Definition substring (needle hay : string) : bool :=
  match String.index 0 needle hay with
  | Some _ => true
  | None => false
  end.

(** [key in v] for a string key. *)
Definition contains (key : string) (v : json) : res bool :=
  match v with
  | JObj kv => Val (match lookup key kv with Some _ => true | None => false end)
  | JArr l => Val (existsb (eq (JStr key)) l)
  | JStr s => Val (substring key s)
  | _ => Exc TypeError
  end.

(** The elements a [for] loop or a generator sees. *)
Definition iter (v : json) : res (list json) :=
  match v with
  | JArr l => Val l
  | JObj kv => Val (map (fun p => JStr (fst p)) kv)
  | JStr s => Val (map (fun c => JStr (String c EmptyString)) (list_ascii_of_string s))
  | _ => Exc TypeError
  end.

(** [len(v)]. *)
Definition len (v : json) : res Z :=
  match v with
  | JArr l => Val (Z.of_nat (List.length l))
  | JObj kv => Val (Z.of_nat (List.length kv))
  | JStr s => Val (Z.of_nat (String.length s))
  | _ => Exc TypeError
  end.

(** [next((x for x in l if p x), None)]: the generator is lazy, so elements
    after the first match are never inspected. *)
Fixpoint next_where (p : json -> res bool) (l : list json) : res json :=
  match l with
  | [] => Val JNull
  | x :: rest =>
      match p x with
      | Exc e => Exc e
      | Val true => Val x
      | Val false => next_where p rest
      end
  end.

(** [any(p x for x in l)]. *)
Fixpoint any (p : json -> res bool) (l : list json) : res bool :=
  match l with
  | [] => Val false
  | x :: rest =>
      match p x with
      | Exc e => Exc e
      | Val true => Val true
      | Val false => any p rest
      end
  end.

(** [[f x for x in l]]. *)
Fixpoint comprehension (f : json -> res json) (l : list json) : res (list json) :=
  match l with
  | [] => Val []
  | x :: rest =>
      match f x with
      | Exc e => Exc e
      | Val y => match comprehension f rest with
                 | Exc e => Exc e
                 | Val ys => Val (y :: ys)
                 end
      end
  end.

(** ASCII part of [str.isspace]. *)
Definition isspace (c : ascii) : bool :=
  let n := nat_of_ascii c in
  ((9 <=? n) && (n <=? 13) || (28 <=? n) && (n <=? 32))%nat.

Fixpoint lstrip_chars (l : list ascii) : list ascii :=
  match l with
  | c :: rest => if isspace c then lstrip_chars rest else l
  | [] => []
  end.

(** [s.strip()]. *)
Definition strip (s : string) : string :=
  string_of_list_ascii
    (rev (lstrip_chars (rev (lstrip_chars (list_ascii_of_string s))))).

Definition lower_char (c : ascii) : ascii :=
  let n := nat_of_ascii c in
  if ((65 <=? n) && (n <=? 90))%nat then ascii_of_nat (n + 32) else c.

(** [s.lower()] on ASCII text. *)
Fixpoint lower (s : string) : string :=
  match s with
  | EmptyString => EmptyString
  | String c rest => String (lower_char c) (lower rest)
  end.

Definition newline : ascii := ascii_of_nat 10.

(** [file.readlines()] on text whose line ends are already ["\n"]: every
    line keeps its terminator, a last unterminated line is kept too. *)
Fixpoint readlines (s : string) : list string :=
  match s with
  | EmptyString => []
  | String c rest =>
      if Ascii.eqb c newline then String c EmptyString :: readlines rest
      else match readlines rest with
           | [] => [String c EmptyString]
           | l :: ls => String c l :: ls
           end
  end.

End Py.

(** ** Requests, responses and the observable trace *)

Inductive http_method : Type := GET | POST.

(** The URLs of the module, relative to [BASE_URL = "https://api.notai.com"].
    An identifier interpolated into the path by an f-string is kept as the
    JSON value it came from. *)
Inductive endpoint : Type :=
| ScoreboardMe                        (* /scoreboard/me *)
| Missions                            (* /missions *)
| MissionActivity (mission_id : json) (* /mission-activity/{mission_id} *)
| MissionReward (mission_id : json)   (* /mission-reward/{mission_id} *)
| DailyRewardsTodayInfo               (* /daily-rewards/today-info *)
| DailyRewardsClaim                   (* /daily-rewards/claim *)
| Levels                              (* /levels *)
| BoostCardClicker                    (* /boost/card?filter[type]=CLICKER_BOOSTER *)
| BoostLevelPurchase                  (* /boost/level/purchase *)
| BoostPurchase (upgrade_id : json)   (* /boost/purchase/{upgrade_id} *)
| GameClickerSubmit                   (* /game-clicker/submit *)
| GameClickerFreeze                   (* /game-clicker/freeze *)
| BoostModificationActive             (* /boost-modification/active *)
| BoostModificationBuy                (* /boost-modification/buy *)
| BoostModification.                  (* /boost-modification *)

Inductive param : Type :=
| PStr (s : string)
| PList (l : list string)
| PTime (ms : Z).   (* the UTC clock reading formatted by strftime *)

Record request : Type := mkRequest {
  req_method : http_method;
  req_url : endpoint;
  req_headers : list (string * string);
  req_params : list (string * param);
  req_json : option json
}.

(** What one HTTP exchange can produce: a transport exception, or a response
    with a status code and a body that may or may not parse as JSON. *)
Inductive http_result : Type :=
| ConnFailed
| Response (status : Z) (body : option json).

Record response : Type := mkResponse {
  status : Z;
  body : option json
}.

Inductive log_level : Type := INFO | WARNING | ERROR.

(** Observable events.  A log entry keeps the level and the message template
    of the [logger] call; interpolated values are not rendered. *)
Inductive event : Type :=
| Dispatch (at_ms : Z) (req : request)
| Slept (ms : Z)
| Logged (lvl : log_level) (template : string).

(** ** The per-account progress record *)

Record UserStats : Type := mkUserStats {
  username : json;
  initial_level : json;         (* Optional[int] = None *)
  final_level : json;           (* Optional[int] = None *)
  damage_upgrades : Z;
  limit_upgrades : Z;
  missions_completed : Z;
  taps_performed : Z
}.

Definition new_UserStats (name : json) : UserStats :=
  mkUserStats name JNull JNull 0 0 0 0.

(** ** The world and the monad *)

(** [trace] holds the newest event first.  [user_stats] is the one
    [UserStats] object alive at a time: [process_account] creates it and
    passes the same reference to every phase. *)
Record world : Type := mkWorld {
  now : Z;
  ncalls : nat;
  nrandom : nat;
  trace : list event;
  user_stats : UserStats
}.

Inductive outcome (A : Type) : Type :=
| Ok (a : A)
| Raise (e : exn)
| Diverge.           (* the loop budget of the model ran out *)
Arguments Ok {A} a.
Arguments Raise {A} e.
Arguments Diverge {A}.

Definition M (A : Type) : Type := world -> outcome A * world.

Definition ret {A} (a : A) : M A := fun w => (Ok a, w).

Definition bind {A B} (m : M A) (k : A -> M B) : M B :=
  fun w =>
    match m w with
    | (Ok a, w') => k a w'
    | (Raise e, w') => (Raise e, w')
    | (Diverge, w') => (Diverge, w')
    end.

Declare Scope monad_scope.
Delimit Scope monad_scope with monad.
Notation "x <- m ;; k" := (bind m (fun x => k))
  (at level 61, m at next level, right associativity) : monad_scope.
Notation "m ;; k" := (bind m (fun _ => k))
  (at level 61, right associativity) : monad_scope.
Open Scope monad_scope.

Definition raise {A} (e : exn) : M A := fun w => (Raise e, w).

Definition diverge {A} : M A := fun w => (Diverge, w).

Definition lift {A} (r : res A) : M A :=
  match r with
  | Val a => ret a
  | Exc e => raise e
  end.

(** [try: body except Exception as err: handler]. *)
Definition try_except {A} (body : M A) (handler : exn -> M A) : M A :=
  fun w =>
    match body w with
    | (Raise e, w') => handler e w'
    | r => r
    end.

Definition emit (e : event) : M unit :=
  fun w => (Ok tt, mkWorld (now w) (ncalls w) (nrandom w) (e :: trace w) (user_stats w)).

Definition log (lvl : log_level) (template : string) : M unit :=
  emit (Logged lvl template).

(** [await asyncio.sleep(ms / 1000)]. *)
Definition sleep (ms : Z) : M unit :=
  fun w => (Ok tt, mkWorld (now w + ms) (ncalls w) (nrandom w)
                           (Slept ms :: trace w) (user_stats w)).

(** [time.time()], in milliseconds. *)
Definition time_time : M Z := fun w => (Ok (now w), w).

Definition get_stats : M UserStats := fun w => (Ok (user_stats w), w).

Definition modify_stats (f : UserStats -> UserStats) : M unit :=
  fun w => (Ok tt, mkWorld (now w) (ncalls w) (nrandom w) (trace w) (f (user_stats w))).

Definition set_final_level (v : json) (s : UserStats) : UserStats :=
  mkUserStats (username s) (initial_level s) v (damage_upgrades s)
              (limit_upgrades s) (missions_completed s) (taps_performed s).

Definition set_initial_level (v : json) (s : UserStats) : UserStats :=
  mkUserStats (username s) v (final_level s) (damage_upgrades s)
              (limit_upgrades s) (missions_completed s) (taps_performed s).

Definition add_damage_upgrades (d : Z) (s : UserStats) : UserStats :=
  mkUserStats (username s) (initial_level s) (final_level s) (damage_upgrades s + d)
              (limit_upgrades s) (missions_completed s) (taps_performed s).

Definition add_limit_upgrades (d : Z) (s : UserStats) : UserStats :=
  mkUserStats (username s) (initial_level s) (final_level s) (damage_upgrades s)
              (limit_upgrades s + d) (missions_completed s) (taps_performed s).

Definition add_missions_completed (d : Z) (s : UserStats) : UserStats :=
  mkUserStats (username s) (initial_level s) (final_level s) (damage_upgrades s)
              (limit_upgrades s) (missions_completed s + d) (taps_performed s).

Definition add_taps_performed (d : Z) (s : UserStats) : UserStats :=
  mkUserStats (username s) (initial_level s) (final_level s) (damage_upgrades s)
              (limit_upgrades s) (missions_completed s) (taps_performed s + d).

(** [for x in l: body x]. *)
Fixpoint for_each {A} (l : list A) (body : A -> M unit) : M unit :=
  match l with
  | [] => ret tt
  | x :: rest => body x ;; for_each rest body
  end.

Definition CAMPAIGN_ID : string := "d6a146d0-092b-4206-8b02-8d00c05d7a89".

Definition get_headers (token : string) : list (string * string) :=
  [ ("Authorization", "Bearer " ++ token);
    ("Accept", "*/*");
    ("User-Agent", "Mozilla/5.0 (Windows NT 10.0; Win64; x64) AppleWebKit/537.36 (KHTML, like Gecko) Chrome/130.0.0.0 Safari/537.36") ].

(** [response.raise_for_status()]: aiohttp raises for a status of 400 and
    above. *)
Definition raise_for_status (r : response) : M unit :=
  if 400 <=? status r then raise ClientResponseError else ret tt.

(** [await response.json()]. *)
Definition response_json (r : response) : M json :=
  match body r with
  | Some v => ret v
  | None => raise JSONError
  end.

(** ** The module, function by function *)

Section Notai.

(** The remote service: outcome and latency (ms) of the n-th exchange, and
    the n-th draw of [random.random()] scaled to milliseconds. *)
Variable respond : nat -> http_result.
Variable latency : nat -> nat.
Variable jitter : nat -> nat.

(** [async with session.get/post(...) as response]: the request leaves at
    the current clock reading; the call itself raises on a transport
    failure.  No call site of the module goes through
    [rate_limited_api_call]: every one calls the session directly. *)
Definition send (r : request) : M response :=
  fun w =>
    let w' := mkWorld (now w + Z.of_nat (latency (ncalls w))) (S (ncalls w))
                      (nrandom w) (Dispatch (now w) r :: trace w) (user_stats w) in
    match respond (ncalls w) with
    | ConnFailed => (Raise ClientError, w')
    | Response st b => (Ok (mkResponse st b), w')
    end.

Definition session_get (url : endpoint) (token : string)
           (params : list (string * param)) : M response :=
  send (mkRequest GET url (get_headers token) params None).

Definition session_post (url : endpoint) (token : string)
           (payload : option json) : M response :=
  send (mkRequest POST url (get_headers token) [] payload).

(** [0.8 + random.random() * 0.4] seconds, as milliseconds in [800, 1200). *)
Definition random_delay : M Z :=
  fun w => (Ok (800 + Z.of_nat (jitter (nrandom w) mod 400)),
            mkWorld (now w) (ncalls w) (S (nrandom w)) (trace w) (user_stats w)).

Definition login (token : string) : M json :=
  try_except
    (response <- session_get ScoreboardMe token [] ;;
     raise_for_status response ;;
     user_data <- response_json response ;;
     has_user <- lift (Py.contains "user" user_data) ;;
     has_nick <- (if has_user : bool
                  then user <- lift (Py.getitem user_data "user") ;;
                       lift (Py.contains "nickname" user)
                  else ret false) ;;
     if has_nick : bool then
       user <- lift (Py.getitem user_data "user") ;;
       nickname <- lift (Py.getitem user "nickname") ;;
       log INFO "Login successful for user: {user_data['user']['nickname']}" ;;
       ret nickname
     else
       log WARNING "Login successful, but no nickname found in response" ;;
       ret JNull)
    (fun _ => log ERROR "Login failed: {err}" ;; ret JNull).

Definition missions_params (campaign_id : string) (current_time : Z)
  : list (string * param) :=
  [ ("filter[progress]", PStr "true");
    ("filter[rewards]", PStr "true");
    ("filter[completedPercent]", PStr "true");
    ("filter[hidden]", PStr "false");
    ("filter[campaignId]", PStr campaign_id);
    ("filter[date]", PTime current_time);
    ("filter[grouped]", PStr "true");
    ("filter[status]", PStr "AVAILABLE");
    ("filter[excludeCategories]", PList ["REFERRALS"; "ACHIEVEMENTS"]) ].

Definition get_campaign_missions (token : string) (campaign_id : string) : M json :=
  current_time <- time_time ;;
  try_except
    (response <- session_get Missions token (missions_params campaign_id current_time) ;;
     raise_for_status response ;;
     data <- response_json response ;;
     missions <- lift (Py.getitem data "data") ;;
     _ <- lift (Py.len missions) ;;
     log INFO "Retrieved {len(missions)} missions for campaign" ;;
     ret missions)
    (fun _ => log ERROR "Failed to get missions for campaign: {err}" ;; ret (JArr [])).

Definition complete_mission (token : string) (mission_id mission_label : json) : M bool :=
  try_except
    (response <- session_post (MissionActivity mission_id) token None ;;
     raise_for_status response ;;
     result <- response_json response ;;
     success <- lift (Py.get result "success") ;;
     if Py.truthy success then
       log INFO "Successfully completed mission: {mission_label}" ;; ret true
     else
       log INFO "Unable to complete mission: {mission_label}" ;; ret false)
    (fun _ => log ERROR "Error completing mission {mission_label}" ;; ret false).

Definition claim_mission_reward (token : string) (mission_id mission_label : json) : M bool :=
  try_except
    (response <- session_post (MissionReward mission_id) token None ;;
     if status response =? 201 then
       log INFO "Claimed reward for mission: {mission_label}" ;; ret true
     else
       log INFO "Unable to claim reward for mission: {mission_label}" ;; ret false)
    (fun _ => log ERROR "Error claiming reward for mission {mission_label}: {err}" ;;
              ret false).

(** The body of the [for mission in missions] loop. *)
Definition process_mission (token : string) (mission : json) : M unit :=
  mission_id <- lift (Py.getitem mission "id") ;;
  mission_label <- lift (Py.getitem mission "label") ;;
  log INFO "Processing mission: {mission_label}" ;;
  completed <- lift (Py.getitem mission "completedPercent") ;;
  (if negb (Py.eq completed (JStr "100")) then
     completed_ok <- complete_mission token mission_id mission_label ;;
     if completed_ok : bool then
       claimed <- claim_mission_reward token mission_id mission_label ;;
       if claimed : bool then modify_stats (add_missions_completed 1) else ret tt
     else ret tt
   else
     log INFO "Mission already completed: {mission_label}") ;;
  sleep 5000.

Definition process_missions (token : string) (campaign_id : string) : M unit :=
  missions <- get_campaign_missions token campaign_id ;;
  items <- lift (Py.iter missions) ;;
  for_each items (process_mission token).

Definition claim_daily (token : string) : M unit :=
  try_except
    (response <- session_get DailyRewardsTodayInfo token [] ;;
     raise_for_status response ;;
     daily_info <- response_json response ;;
     today_claimed <- lift (Py.getitem daily_info "todayClaimed") ;;
     if Py.truthy today_claimed then
       log INFO "Daily reward already claimed today."
     else
       claim_response <- session_post DailyRewardsClaim token None ;;
       raise_for_status claim_response ;;
       log INFO "Daily reward claimed successfully")
    (fun _ => log ERROR "Failed to claim daily reward: {err}").

Definition get_levels (token : string) : M json :=
  try_except
    (response <- session_get Levels token [] ;;
     raise_for_status response ;;
     levels <- response_json response ;;
     ret levels)
    (fun _ => log ERROR "Failed to get levels: {err}" ;; ret (JArr [])).

Definition get_tapping_upgrades (token : string) : M json :=
  try_except
    (response <- session_get BoostCardClicker token [] ;;
     raise_for_status response ;;
     data <- response_json response ;;
     upgrades <- lift (Py.getitem data "data") ;;
     ret upgrades)
    (fun _ => log ERROR "Failed to get tapping upgrades: {err}" ;; ret (JArr [])).

(** Returns the pair [(success, level)]; [None] is [JNull]. *)
Definition upgrade_level (token : string) : M (bool * json) :=
  try_except
    (response <- session_post BoostLevelPurchase token None ;;
     if status response =? 201 then
       result <- response_json response ;;
       level <- lift (Py.getitem result "level") ;;
       log INFO "Level upgraded successfully. Current level: {result['level']}" ;;
       modify_stats (set_final_level level) ;;
       level' <- lift (Py.getitem result "level") ;;
       ret (true, level')
     else if status response =? 402 then
       log INFO "Insufficient funds for level upgrade" ;; ret (false, JNull)
     else
       log INFO "Unable to upgrade level" ;; ret (false, JNull))
    (fun _ => log ERROR "Error upgrading level: {err}" ;; ret (false, JNull)).

Definition upgrade_tapping (token : string) (upgrade_id : json) (upgrade_type : string)
  : M (bool * json) :=
  try_except
    (response <- session_post (BoostPurchase upgrade_id) token None ;;
     if status response =? 201 then
       result <- response_json response ;;
       log INFO "{upgrade_type} tapping upgrade successful" ;;
       (if String.eqb upgrade_type "Damage" then
          modify_stats (add_damage_upgrades 1)
        else if String.eqb upgrade_type "Limit energy" then
          modify_stats (add_limit_upgrades 1)
        else ret tt) ;;
       level <- lift (Py.getitem result "level") ;;
       ret (true, level)
     else if status response =? 402 then
       log INFO "Insufficient funds for {upgrade_type} tapping upgrade" ;;
       ret (false, JNull)
     else
       log INFO "Unable to upgrade {upgrade_type} tapping" ;; ret (false, JNull))
    (fun _ => log ERROR "Error upgrading {upgrade_type} tapping: {err}" ;;
              ret (false, JNull)).

Definition clicked_payload (count : Z) : json :=
  JObj [("clickedCount", JNum count)].

(** Returns the status dict, or [None] ([JNull]). *)
Definition get_game_status (token : string) : M json :=
  try_except
    (response <- session_post GameClickerSubmit token (Some (clicked_payload 0)) ;;
     raise_for_status response ;;
     status <- response_json response ;;
     _ <- lift (Py.get status "currentClickedCount") ;;
     _ <- lift (Py.get status "totalClicksLimit") ;;
     log INFO "Current clicks: {currentClickedCount}, Total limit: {totalClicksLimit}" ;;
     ret status)
    (fun _ => log ERROR "Error getting game status: {err}" ;; ret JNull).

Definition perform_tapping (token : string) (click_count : Z) : M json :=
  try_except
    (response <- session_post GameClickerSubmit token (Some (clicked_payload click_count)) ;;
     raise_for_status response ;;
     result <- response_json response ;;
     _ <- lift (Py.get result "currentClickedCount") ;;
     log INFO "Tapping performed successfully. New click count: {currentClickedCount}" ;;
     ret result)
    (fun _ => log ERROR "Error performing tapping: {err}" ;; ret JNull).

Definition freeze_game (token : string) : M json :=
  try_except
    (response <- session_post GameClickerFreeze token None ;;
     raise_for_status response ;;
     result <- response_json response ;;
     log INFO "Game frozen successfully" ;;
     ret result)
    (fun _ => log ERROR "Error freezing game: {err}" ;; ret JNull).

(** [boost['boostModification']['type']]. *)
Definition boost_modification_type (boost : json) : res json :=
  match Py.getitem boost "boostModification" with
  | Val m => Py.getitem m "type"
  | Exc e => Exc e
  end.

Definition get_active_boosts (token : string) : M json :=
  try_except
    (response <- session_get BoostModificationActive token [] ;;
     raise_for_status response ;;
     active_boosts <- response_json response ;;
     items <- lift (Py.iter active_boosts) ;;
     _ <- lift (Py.comprehension boost_modification_type items) ;;
     log INFO "Active boosts: {types}" ;;
     ret active_boosts)
    (fun _ => log ERROR "Error getting active boosts: {err}" ;; ret (JArr [])).

Definition buy_payload (boost_id : json) : json :=
  JObj [("boostModificationId", boost_id)].

Definition use_boost (token : string) (boost_id boost_type : json) : M bool :=
  active_boosts <- get_active_boosts token ;;
  items <- lift (Py.iter active_boosts) ;;
  already <- lift (Py.any (fun boost =>
                             match boost_modification_type boost with
                             | Val t => Val (Py.eq t boost_type)
                             | Exc e => Exc e
                             end) items) ;;
  if already : bool then
    log INFO "{boost_type} boost is already active. Skipping." ;; ret false
  else
    try_except
      (response <- session_post BoostModificationBuy token (Some (buy_payload boost_id)) ;;
       raise_for_status response ;;
       log INFO "Successfully activated {boost_type} boost" ;;
       ret true)
      (fun _ => log INFO "Unable to activate {boost_type} boost: {err}" ;; ret false).

Definition get_boosts (token : string) : M json :=
  try_except
    (response <- session_get BoostModification token [] ;;
     raise_for_status response ;;
     data <- response_json response ;;
     lift (Py.getitem data "data"))
    (fun _ => log ERROR "Error getting boosts: {err}" ;; ret (JArr [])).

(** [b['type'] == 'REFILL_ENERGY' and b['available'] > 0]. *)
Definition is_refill_boost (b : json) : res bool :=
  match Py.getitem b "type" with
  | Exc e => Exc e
  | Val t =>
      if Py.eq t (JStr "REFILL_ENERGY") then
        match Py.getitem b "available" with
        | Exc e => Exc e
        | Val a => match Py.num a with
                   | Exc e => Exc e
                   | Val n => Val (0 <? n)
                   end
        end
      else Val false
  end.

Definition get_refill_boost (token : string) : M json :=
  boosts <- get_boosts token ;;
  items <- lift (Py.iter boosts) ;;
  lift (Py.next_where is_refill_boost items).

Definition use_refill_boost (token : string) : M bool :=
  refill_boost <- get_refill_boost token ;;
  if Py.truthy refill_boost then
    boost_id <- lift (Py.getitem refill_boost "id") ;;
    try_except
      (response <- session_post BoostModificationBuy token (Some (buy_payload boost_id)) ;;
       raise_for_status response ;;
       result <- response_json response ;;
       _ <- lift (Py.getitem result "id") ;;
       log INFO "Successfully used refill boost. New boost ID: {result['id']}" ;;
       ret true)
      (fun _ => log ERROR "Error using refill boost: {err}" ;; ret false)
  else
    log WARNING "No refill boost available." ;; ret false.

(** The body of the loop of [use_available_boosts]. *)
Definition use_available_boost (token : string) (boost : json) : M unit :=
  available <- lift (Py.getitem boost "available") ;;
  n <- lift (Py.num available) ;;
  if 0 <? n then
    boost_id <- lift (Py.getitem boost "id") ;;
    boost_type <- lift (Py.getitem boost "type") ;;
    use_boost token boost_id boost_type ;;
    sleep 1000
  else ret tt.

Definition use_available_boosts (token : string) : M unit :=
  boosts <- get_boosts token ;;
  items <- lift (Py.iter boosts) ;;
  for_each items (use_available_boost token).

(** *** The auto-tap loop *)

Definition refill_threshold : Q := 0.875.
Definition max_consecutive_failures : Z := 5.
Definition boost_check_interval : Z := 300000.   (* 300 s *)
Definition default_click_count : Z := 15.

(** The local variables of [auto_play_game] that live across iterations. *)
Record loop_state : Type := mkLoop {
  tapping_count : Z;
  consecutive_failures : Z;
  last_boost_check : Z
}.

(** [auto_play_game] returns [None] from four [return] statements; the
    model names them after the terminal state each one stands for. *)
Inductive stop_reason : Type :=
| Frozen
| StoppedFailure
| StoppedSwitchAccount.

Inductive step : Type :=
| Continue (ls : loop_state)
| Stop (r : stop_reason).

(** [current_clicks >= total_limit * refill_threshold].  The product is a
    float in Python; 0.875 = 7/8 is a binary fraction, so the comparison is
    exact on integers of ordinary size and is modelled over [Q]. *)
Definition near_limit (current_clicks total_limit : Z) : bool :=
  Qle_bool (inject_Z total_limit * refill_threshold) (inject_Z current_clicks).

(** Top of the loop: the periodic boost check; yields the new
    [last_boost_check]. *)
Definition boost_check (token : string) (last : Z) : M Z :=
  current_time <- time_time ;;
  if boost_check_interval <=? current_time - last then
    use_available_boosts token ;; ret current_time
  else ret last.

(** From [result = await perform_tapping(...)] to the end of the body. *)
Definition after_tap (ls : loop_state) (current_clicks : Z) (result : json) : M step :=
  ls' <- (if Py.truthy result then
            new_json <- lift (Py.getitem result "currentClickedCount") ;;
            new_click_count <- lift (Py.num new_json) ;;
            let taps := new_click_count - current_clicks in
            modify_stats (add_taps_performed taps) ;;
            ret (Continue (mkLoop (tapping_count ls + taps) 0 (last_boost_check ls)))
          else
            let failures := consecutive_failures ls + 1 in
            if max_consecutive_failures <=? failures then
              log ERROR "Failed to perform tapping {max_consecutive_failures} times in a row. Stopping auto-play." ;;
              ret (Stop StoppedFailure)
            else
              log WARNING "Failed to perform tapping. Retrying... (Attempt {consecutive_failures})" ;;
              ret (Continue (mkLoop (tapping_count ls) failures (last_boost_check ls)))) ;;
  match ls' with
  | Stop r => ret (Stop r)
  | Continue l =>
      (if tapping_count l mod 100 =? 0
       then log INFO "Performed {tapping_count} taps" else ret tt) ;;
      delay <- random_delay ;;
      sleep delay ;;
      ret (Continue l)
  end.

(** The block under [if status is None]. *)
Definition on_status_failure (ls : loop_state) : M step :=
  let failures := consecutive_failures ls + 1 in
  if max_consecutive_failures <=? failures then
    log ERROR "Failed to get game status {max_consecutive_failures} times in a row. Stopping auto-play." ;;
    ret (Stop StoppedFailure)
  else
    log WARNING "Failed to get game status. Retrying... (Attempt {consecutive_failures})" ;;
    sleep 5000 ;;
    ret (Continue (mkLoop (tapping_count ls) failures (last_boost_check ls))).

(** The block under [if current_clicks >= total_limit * refill_threshold]. *)
Definition refill_branch (token : string) (ls : loop_state) : M step :=
  log INFO "Approaching click limit. Current: {current_clicks}, Limit: {total_limit}. Attempting to use refill..." ;;
  refilled <- use_refill_boost token ;;
  if refilled : bool then
    log INFO "Successfully used refill boost. Continuing tapping." ;;
    sleep 2000 ;;
    ret (Continue ls)
  else
    log INFO "No refill boost available and approaching limit. Switching to next account." ;;
    ret (Stop StoppedSwitchAccount).

(** The block under [if current_clicks >= total_limit]. *)
Definition freeze_branch (token : string) : M step :=
  log INFO "Reached tapping limit. Freezing game and stopping auto-play." ;;
  freeze_game token ;;
  ret (Stop Frozen).

(** From [if status is None] to the end of the body. *)
Definition after_status (token : string) (ls : loop_state) (status : json) : M step :=
  match status with
  | JNull => on_status_failure ls
  | _ =>
      clicks_json <- lift (Py.getitem status "currentClickedCount") ;;
      limit_json <- lift (Py.getitem status "totalClicksLimit") ;;
      total_limit <- lift (Py.num limit_json) ;;
      current_clicks <- lift (Py.num clicks_json) ;;
      if near_limit current_clicks total_limit then refill_branch token ls
      else if total_limit <=? current_clicks then freeze_branch token
      else
        result <- perform_tapping token default_click_count ;;
        after_tap ls current_clicks result
  end.

(** One pass through the body of [while True]. *)
Definition auto_play_iter (token : string) (ls : loop_state) : M step :=
  last <- boost_check token (last_boost_check ls) ;;
  status <- get_game_status token ;;
  after_status token (mkLoop (tapping_count ls) (consecutive_failures ls) last) status.

Fixpoint auto_play_loop (fuel : nat) (token : string) (ls : loop_state) : M stop_reason :=
  match fuel with
  | O => diverge
  | S fuel' =>
      s <- auto_play_iter token ls ;;
      match s with
      | Stop r => ret r
      | Continue ls' => auto_play_loop fuel' token ls'
      end
  end.

Definition auto_play_game (fuel : nat) (token : string) : M stop_reason :=
  start <- time_time ;;
  auto_play_loop fuel token (mkLoop 0 0 start).

(** *** One account *)

Record config : Type := mkConfig {
  auto_upgrade : string;
  upgrade_count : Z;
  auto_upgrade_tapping : string;
  damage_upgrade_count : Z;
  limit_upgrade_count : Z;
  auto_tapping : string
}.

(** [for i in range(n)] around [upgrade_level]. *)
Fixpoint upgrade_level_loop (n : nat) (token : string) : M unit :=
  match n with
  | O => ret tt
  | S n' =>
      r <- upgrade_level token ;;
      if fst r then
        modify_stats (set_final_level (snd r)) ;;
        sleep 2000 ;;
        upgrade_level_loop n' token
      else ret tt
  end.

(** [for i in range(n)] around [upgrade_tapping]. *)
Fixpoint upgrade_tapping_loop (n : nat) (token : string) (upgrade : json)
         (upgrade_type : string) : M unit :=
  match n with
  | O => ret tt
  | S n' =>
      upgrade_id <- lift (Py.getitem upgrade "id") ;;
      r <- upgrade_tapping token upgrade_id upgrade_type ;;
      if negb (fst r) then ret tt
      else sleep 2000 ;; upgrade_tapping_loop n' token upgrade upgrade_type
  end.

Definition has_boost_type (kind : string) (u : json) : res bool :=
  match Py.getitem u "boostType" with
  | Val t => Val (Py.eq t (JStr kind))
  | Exc e => Exc e
  end.

Definition summarize_upgrades : M unit :=
  stats <- get_stats ;;
  log INFO "Account: {user_stats.username}" ;;
  (match initial_level stats, final_level stats with
   | JNull, _ | _, JNull => ret tt
   | _, _ => log INFO "Level Upgrades: {user_stats.initial_level} -> {user_stats.final_level}"
   end) ;;
  log INFO "Damage Tapping Upgrades: {user_stats.damage_upgrades}" ;;
  log INFO "Limit Energy Tapping Upgrades: {user_stats.limit_upgrades}" ;;
  log INFO "Missions Completed: {user_stats.missions_completed}" ;;
  log INFO "Total Taps Performed: {user_stats.taps_performed}".

Definition level_phase (cfg : config) (token : string) : M unit :=
  if String.eqb (Py.lower (auto_upgrade cfg)) "y" then
    levels <- get_levels token ;;
    if Py.truthy levels then
      last_level <- lift (Py.getitem_last levels) ;;
      initial <- lift (Py.getitem last_level "level") ;;
      modify_stats (set_initial_level initial) ;;
      modify_stats (set_final_level initial) ;;
      upgrade_level_loop (Z.to_nat (upgrade_count cfg)) token
    else ret tt
  else ret tt.

Definition tapping_phase (cfg : config) (token : string) : M unit :=
  if String.eqb (Py.lower (auto_upgrade_tapping cfg)) "y" then
    upgrades <- get_tapping_upgrades token ;;
    if Py.truthy upgrades then
      items <- lift (Py.iter upgrades) ;;
      damage_upgrade <- lift (Py.next_where (has_boost_type "CLICKER_DAMAGE") items) ;;
      items' <- lift (Py.iter upgrades) ;;
      limit_upgrade <- lift (Py.next_where (has_boost_type "CLICKER_ENERGY") items') ;;
      (if Py.truthy damage_upgrade then
         upgrade_tapping_loop (Z.to_nat (damage_upgrade_count cfg)) token
                              damage_upgrade "Damage"
       else ret tt) ;;
      (if Py.truthy limit_upgrade then
         upgrade_tapping_loop (Z.to_nat (limit_upgrade_count cfg)) token
                              limit_upgrade "Limit energy"
       else ret tt)
    else ret tt
  else ret tt.

(** The [try] block of [process_account]. *)
Definition account_phases (fuel : nat) (cfg : config) (token : string) : M unit :=
  claim_daily token ;;
  sleep 2000 ;;
  process_missions token CAMPAIGN_ID ;;
  level_phase cfg token ;;
  tapping_phase cfg token ;;
  summarize_upgrades ;;
  if String.eqb (Py.lower (auto_tapping cfg)) "y" then
    log INFO "Starting auto-play..." ;;
    auto_play_game fuel token ;;
    ret tt
  else ret tt.

Definition process_account (fuel : nat) (cfg : config) (token : string) : M unit :=
  name <- login token ;;
  if negb (Py.truthy name) then
    log ERROR "Failed to log in with provided token"
  else
    modify_stats (fun _ => new_UserStats name) ;;
    try_except
      (account_phases fuel cfg token)
      (fun _ => log ERROR "Error processing account {username}: {e}") ;;
    log INFO "Finished processing account. Waiting before next account..." ;;
    sleep 10000.

(** *** The batch *)

(** What [open("token.txt", "r")] followed by [readlines()] can give. *)
Inductive token_file : Type :=
| FileNotFound
| IOFailure
| FileText (text : string).

Definition process_accounts (file : token_file) (fuel : nat) (cfg : config) : M unit :=
  match file with
  | FileNotFound => log ERROR "File token.txt tidak ditemukan."
  | IOFailure => log ERROR "Error membaca file token.txt: {e}"
  | FileText text =>
      for_each (Py.readlines text)
               (fun line => process_account fuel cfg (Py.strip line))
  end.

End Notai.

(** ** Observations on a run *)

(** The requests of a trace, newest first. *)
Fixpoint requests_of (t : list event) : list request :=
  match t with
  | [] => []
  | Dispatch _ r :: rest => r :: requests_of rest
  | _ :: rest => requests_of rest
  end.

(** Every request dispatched so far, in the order of dispatch. *)
Definition sent (w : world) : list request := rev (requests_of (trace w)).

(** The clock readings at which the requests of a trace left, newest first. *)
Fixpoint dispatch_times (t : list event) : list Z :=
  match t with
  | [] => []
  | Dispatch at_ms _ :: rest => at_ms :: dispatch_times rest
  | _ :: rest => dispatch_times rest
  end.

(** Number of requests dispatched at a time in [[from, from + len)]. *)
Definition calls_within (from len : Z) (w : world) : nat :=
  List.length (filter (fun t => (from <=? t) && (t <? from + len))
                      (dispatch_times (trace w))).

Definition is_log (e : event) : bool :=
  match e with
  | Logged _ _ => true
  | _ => false
  end.

(** The world with the log entries removed from its trace. *)
Definition strip_logs (w : world) : world :=
  mkWorld (now w) (ncalls w) (nrandom w)
          (filter (fun e => negb (is_log e)) (trace w)) (user_stats w).

Definition is_login (r : request) : bool :=
  match req_url r with
  | ScoreboardMe => true
  | _ => false
  end.

(** The header sets of the login requests sent so far, oldest first: one per
    call of [process_account]. *)
Definition logins (w : world) : list (list (string * string)) :=
  map req_headers (filter is_login (sent w)).

(** The HTTP exchange itself failed: no connection, an error status, or a
    body that is not JSON. *)
Definition exchange_failed (r : http_result) : bool :=
  match r with
  | ConnFailed => true
  | Response _ None => true
  | Response st (Some _) => 400 <=? st
  end.

(** What [get_game_status] and [perform_tapping] hand back for an exchange:
    the body when it is a dict served with a status below 400, else [None]. *)
Definition clicker_result (r : http_result) : json :=
  match r with
  | Response st (Some (JObj kv)) => if 400 <=? st then JNull else JObj kv
  | _ => JNull
  end.

(** The [currentClickedCount] an exchange reports, when it reports one. *)
Definition reported_clicks (r : http_result) : option Z :=
  match clicker_result r with
  | JObj kv => match Py.lookup "currentClickedCount" kv with
               | Some v => match Py.num v with
                           | Val z => Some z
                           | Exc _ => None
                           end
               | None => None
               end
  | _ => None
  end.

(** The service never reports a click count below the one of the exchange
    just before. *)
Definition clicks_never_drop (respond : nat -> http_result) : Prop :=
  forall n a b,
    reported_clicks (respond n) = Some a ->
    reported_clicks (respond (S n)) = Some b ->
    a <= b.

(** When [complete_mission] answers [True]: status below 400 and a dict body
    whose [success] entry is truthy. *)
Definition complete_succeeded (r : http_result) : bool :=
  match r with
  | Response st (Some (JObj kv)) =>
      negb (400 <=? st) &&
      match Py.lookup "success" kv with
      | Some v => Py.truthy v
      | None => false
      end
  | _ => false
  end.

(** When [claim_mission_reward] answers [True]: status 201 exactly. *)
Definition claim_succeeded (r : http_result) : bool :=
  match r with
  | Response st _ => st =? 201
  | ConnFailed => false
  end.

(** The three counters that only ever move by [+= 1]. *)
Definition counters_le (s s' : UserStats) : Prop :=
  damage_upgrades s <= damage_upgrades s' /\
  limit_upgrades s <= limit_upgrades s' /\
  missions_completed s <= missions_completed s'.

(** A computation relates every start world to its end world by [R]. *)
Definition steps {A} (R : world -> world -> Prop) (m : M A) : Prop :=
  forall w, R w (snd (m w)).

(** A computation never runs out of loop budget. *)
Definition terminates {A} (m : M A) : Prop :=
  forall w, fst (m w) <> Diverge.

(** A computation never lets an exception out. *)
Definition safe {A} (m : M A) : Prop :=
  forall w e, fst (m w) <> Raise e.

(** The trace only grows, and by events satisfying [P]. *)
Definition trace_grows (P : event -> Prop) (w w' : world) : Prop :=
  exists fresh, trace w' = (fresh ++ trace w)%list /\ Forall P fresh.

Definition not_login_dispatch (e : event) : Prop :=
  match e with
  | Dispatch _ r => is_login r = false
  | _ => True
  end.


Definition world0 : world := mkWorld 0 0 0 [] (new_UserStats JNull).

(** World relations used for the progress record. *)
Definition counters_grow (w w' : world) : Prop :=
  counters_le (user_stats w) (user_stats w').

Definition taps_grow (w w' : world) : Prop :=
  taps_performed (user_stats w) <= taps_performed (user_stats w').

(** The request of a status fetch or a tap submission. *)
Definition submit_request (tok : string) (count : Z) : request :=
  mkRequest POST GameClickerSubmit (get_headers tok) [] (Some (clicked_payload count)).

(** A service whose n-th exchange answers with the n-th entry of a script,
    and with a transport failure once the script is over. *)
Definition scripted (script : list http_result) (n : nat) : http_result :=
  nth n script ConnFailed.

Definition ok_json (v : json) : http_result := Response 200 (Some v).

Definition no_latency (n : nat) : nat := 0%nat.
Definition latency_100ms (n : nat) : nat := 100%nat.
Definition no_jitter (n : nat) : nat := 0%nat.

Definition game_status (clicks limit : Z) : json :=
  JObj [("currentClickedCount", JNum clicks); ("totalClicksLimit", JNum limit)].

Definition login_request (tok : string) : request :=
  mkRequest GET ScoreboardMe (get_headers tok) [] None.

(** Text made of the given lines, each one terminated by a line feed. *)
Fixpoint unlines (ls : list string) : string :=
  match ls with
  | [] => EmptyString
  | l :: rest => l ++ String Py.newline (unlines rest)
  end.

(** The tokens the credential file holds according to its description: the
    trimmed lines, blank ones left out. *)
Definition nonblank_tokens (text : string) : list string :=
  filter (fun t => negb (String.eqb t ""))
         (map Py.strip (Py.readlines text)).

(** What [get_boosts] hands back for an exchange. *)
Definition boosts_listing (r : http_result) : json :=
  match r with
  | Response st (Some b) =>
      if 400 <=? st then JArr []
      else match Py.getitem b "data" with
           | Val d => d
           | Exc _ => JArr []
           end
  | _ => JArr []
  end.

(** What [get_refill_boost] picks from the listing of an exchange: the first
    boost of type [REFILL_ENERGY] with [available > 0], or [None]. *)
Definition refill_choice (r : http_result) : res json :=
  match Py.iter (boosts_listing r) with
  | Val items => Py.next_where is_refill_boost items
  | Exc e => Exc e
  end.

(** When the purchase inside [use_refill_boost] counts as done: a status
    below 400 and a JSON body with an [id]. *)
Definition refill_purchased (r : http_result) : bool :=
  match r with
  | Response st (Some b) =>
      negb (400 <=? st) &&
      match Py.getitem b "id" with
      | Val _ => true
      | Exc _ => false
      end
  | _ => false
  end.

Definition boosts_request (tok : string) : request :=
  mkRequest GET BoostModification (get_headers tok) [] None.

Definition buy_request (tok : string) (boost_id : json) : request :=
  mkRequest POST BoostModificationBuy (get_headers tok) [] (Some (buy_payload boost_id)).

Definition freeze_request (tok : string) : request :=
  mkRequest POST GameClickerFreeze (get_headers tok) [] None.

Definition complete_request (tok : string) (mission_id : json) : request :=
  mkRequest POST (MissionActivity mission_id) (get_headers tok) [] None.

Definition claim_request (tok : string) (mission_id : json) : request :=
  mkRequest POST (MissionReward mission_id) (get_headers tok) [] None.

Definition purchase_request (tok : string) (upgrade_id : json) : request :=
  mkRequest POST (BoostPurchase upgrade_id) (get_headers tok) [] None.


(** When a purchase function answers [True]: status 201 and a JSON body with
    a [level]. *)
Definition purchase_succeeded (r : http_result) : bool :=
  match r with
  | Response st (Some b) =>
      (st =? 201) &&
      match Py.getitem b "level" with
      | Val _ => true
      | Exc _ => false
      end
  | _ => false
  end.

(** When [upgrade_tapping] bumps its counter: status 201 and a JSON body,
    with or without a [level]. *)
Definition purchase_recorded (r : http_result) : bool :=
  match r with
  | Response st (Some _) => st =? 201
  | _ => false
  end.

(** The counter that [upgrade_tapping] keeps for an upgrade type. *)
Definition recorded_upgrades (upgrade_type : string) (s : UserStats) : Z :=
  if String.eqb upgrade_type "Damage" then damage_upgrades s
  else if String.eqb upgrade_type "Limit energy" then limit_upgrades s
  else 0.

Definition damage_card : json :=
  JObj [("id", JStr "dmg-1"); ("boostType", JStr "CLICKER_DAMAGE")].

(** One mission at 50 percent. *)
Definition open_mission : json :=
  JObj [("id", JStr "m1"); ("label", JStr "Follow"); ("completedPercent", JStr "50")].

(** A service that answers every exchange of a short account run: login,
    today-info (reward not yet claimed), daily claim, mission listing with
    one open mission, completion, reward claim. *)
Definition prompt_service : list http_result :=
  [ ok_json (JObj [("user", JObj [("nickname", JStr "bob")])]);
    ok_json (JObj [("todayClaimed", JBool false)]);
    Response 201 None;
    ok_json (JObj [("data", JArr [open_mission])]);
    ok_json (JObj [("success", JBool true)]);
    Response 201 None ].

(** All three toggles answered with "n". *)
Definition all_off : config := mkConfig "n" 1 "n" 0 0 "n".

(** The [level] a purchase answer carries, [None] when it carries none. *)
Definition purchased_level (r : http_result) : json :=
  match r with
  | Response _ (Some b) =>
      match Py.getitem b "level" with
      | Val v => v
      | Exc _ => JNull
      end
  | _ => JNull
  end.

(** ** Further observations, used for the properties beyond the claims *)

Definition today_info_request (tok : string) : request :=
  mkRequest GET DailyRewardsTodayInfo (get_headers tok) [] None.

Definition daily_claim_request (tok : string) : request :=
  mkRequest POST DailyRewardsClaim (get_headers tok) [] None.

Definition active_boosts_request (tok : string) : request :=
  mkRequest GET BoostModificationActive (get_headers tok) [] None.

(** When [claim_daily] goes on to post the claim: the today-info exchange
    succeeded and its [todayClaimed] entry is falsy. *)
Definition daily_needs_claim (r : http_result) : bool :=
  match r with
  | Response st (Some b) =>
      negb (400 <=? st) &&
      match Py.getitem b "todayClaimed" with
      | Val v => negb (Py.truthy v)
      | Exc _ => false
      end
  | _ => false
  end.

(** What [get_active_boosts] hands back for an exchange. *)
Definition active_listing (r : http_result) : json :=
  match r with
  | Response st (Some b) =>
      if 400 <=? st then JArr []
      else match Py.iter b with
           | Val items =>
               match Py.comprehension boost_modification_type items with
               | Val _ => b
               | Exc _ => JArr []
               end
           | Exc _ => JArr []
           end
  | _ => JArr []
  end.

(** Whether the listing of an exchange shows a boost of the given type as
    active. *)
Definition already_active (r : http_result) (boost_type : json) : bool :=
  match Py.iter (active_listing r) with
  | Val items =>
      existsb (fun boost =>
                 match boost_modification_type boost with
                 | Val t => Py.eq t boost_type
                 | Exc _ => false
                 end) items
  | Exc _ => false
  end.

(** When the purchase inside [use_boost] counts as done: any answer with a
    status below 400. *)
Definition boost_bought (r : http_result) : bool :=
  match r with
  | Response st _ => negb (400 <=? st)
  | ConnFailed => false
  end.

(** What [get_campaign_missions] hands back for an exchange. *)
Definition missions_listing (r : http_result) : json :=
  match r with
  | Response st (Some b) =>
      if 400 <=? st then JArr []
      else match Py.getitem b "data" with
           | Val d => match Py.len d with
                      | Val _ => d
                      | Exc _ => JArr []
                      end
           | Exc _ => JArr []
           end
  | _ => JArr []
  end.

(** The characters of a string, and the text of a list of lines put back
    together. *)
Definition chars (s : string) : list ascii := list_ascii_of_string s.


(** Which phases a configuration switches on. *)
Record phases : Type := mkPhases {
  levels_on : bool;
  tapping_upgrades_on : bool;
  auto_play_on : bool
}.

Definition phases_of (cfg : config) : phases :=
  mkPhases (String.eqb (Py.lower (auto_upgrade cfg)) "y")
           (String.eqb (Py.lower (auto_upgrade_tapping cfg)) "y")
           (String.eqb (Py.lower (auto_tapping cfg)) "y").

Definition all_phases : phases := mkPhases true true true.

(** The requests the module can issue for an account: each carries the
    bearer token of the account, each endpoint is used with one method only,
    a body is sent to the submit and buy endpoints only, a submission carries
    0 or 15 clicks, and the endpoints of a switchable phase need that phase
    to be on. *)
Definition issued (ph : phases) (tok : string) (r : request) : Prop :=
  req_headers r = get_headers tok /\
  match req_method r, req_url r, req_json r with
  | GET, ScoreboardMe, None => req_params r = []
  | GET, Missions, None => True
  | GET, DailyRewardsTodayInfo, None => req_params r = []
  | POST, DailyRewardsClaim, None => True
  | POST, MissionActivity _, None => True
  | POST, MissionReward _, None => True
  | GET, Levels, None => levels_on ph = true
  | POST, BoostLevelPurchase, None => levels_on ph = true
  | GET, BoostCardClicker, None => tapping_upgrades_on ph = true
  | POST, BoostPurchase _, None => tapping_upgrades_on ph = true
  | POST, GameClickerSubmit, Some p =>
      auto_play_on ph = true /\ (p = clicked_payload 0 \/ p = clicked_payload 15)
  | POST, GameClickerFreeze, None => auto_play_on ph = true
  | GET, BoostModificationActive, None => auto_play_on ph = true
  | GET, BoostModification, None => auto_play_on ph = true
  | POST, BoostModificationBuy, Some p =>
      auto_play_on ph = true /\ exists boost_id, p = buy_payload boost_id
  | _, _, _ => False
  end.

(** A computation adds only requests satisfying [P] to the trace. *)
Definition sends_only {A} (P : request -> Prop) (m : M A) : Prop :=
  forall w, exists fresh,
    requests_of (trace (snd (m w))) = (fresh ++ requests_of (trace w))%list
    /\ Forall P fresh.

(** The number of exchanges never goes down. *)
Definition calls_grow (w w' : world) : Prop := (ncalls w <= ncalls w')%nat.

(** A listing with a shield, a spent refill and two usable refills. *)
Definition mixed_boosts : list json :=
  [ JObj [("id", JStr "shield"); ("type", JStr "SHIELD"); ("available", JNum 3)];
    JObj [("id", JStr "spent"); ("type", JStr "REFILL_ENERGY"); ("available", JNum 0)];
    JObj [("id", JStr "fresh"); ("type", JStr "REFILL_ENERGY"); ("available", JNum 1)];
    JObj [("id", JStr "spare"); ("type", JStr "REFILL_ENERGY"); ("available", JNum 4)] ].

(** From [w] to [w'] at most [calls] exchanges took place, [damage_upgrades]
    rose by at most [d] and [limit_upgrades] by at most [l], none of the
    three going down. *)
Definition within (calls : nat) (d l : Z) (w w' : world) : Prop :=
  (ncalls w <= ncalls w' <= ncalls w + calls)%nat
  /\ damage_upgrades (user_stats w) <= damage_upgrades (user_stats w')
     <= damage_upgrades (user_stats w) + d
  /\ limit_upgrades (user_stats w) <= limit_upgrades (user_stats w')
     <= limit_upgrades (user_stats w) + l.

(** ** The interactive front end *)

(** [validate_input] answers an [int] or a [str]. *)
Inductive answer : Type :=
| AnInt (z : Z)
| AText (s : string).

(** What the console shows: the prompt written by [input] and the lines
    written by [print]. *)
Inductive console_event : Type :=
| Prompted (prompt : string)
| Printed (message : string).

(** What can stop the front end: [input] at the end of the input, and, for
    an answer that is not a string, the missing [lower] method. *)
Inductive console_error : Type :=
| EOFError
| NoLowerMethod.

Section FrontEnd.

(** [int(s)], the conversion of the Python runtime: [None] stands for
    [ValueError]. *)
Variable parse_int : string -> option Z.

(** [validate_input(prompt, valid_options, is_int)] on the lines still to be
    read; [valid_options = None] is the empty list, falsy like it.  Answers
    the value (or [None] when [input] raised [EOFError]), the lines left and
    the console, newest event first. *)
Fixpoint validate_input (prompt : string) (valid_options : list string) (is_int : bool)
         (inputs : list string) (shown : list console_event)
  : option answer * list string * list console_event :=
  match inputs with
  | [] => (None, [], Prompted prompt :: shown)
  | line :: rest =>
      let shown1 := Prompted prompt :: shown in
      let user_input := Py.strip line in
      if match valid_options with [] => false | _ => true end
         && negb (existsb (String.eqb (Py.lower user_input)) valid_options)
      then
        validate_input prompt valid_options is_int rest
          (Printed ("Invalid input. Please enter one of "
                    ++ String.concat ", " valid_options) :: shown1)
      else if is_int then
        match parse_int user_input with
        | Some z => (Some (AnInt z), rest, shown1)
        | None =>
            validate_input prompt valid_options is_int rest
              (Printed "Invalid input. Please enter a number." :: shown1)
        end
      else (Some (AText user_input), rest, shown1)
  end.

(** [x.lower() == 'y'] on an answer. *)
Definition answered_yes (a : answer) : console_error + bool :=
  match a with
  | AText s => inr (String.eqb (Py.lower s) "y")
  | AnInt _ => inl NoLowerMethod
  end.

(** The value kept for a toggle and for a count. *)
Definition as_text (a : answer) : string :=
  match a with
  | AText s => s
  | AnInt _ => EmptyString
  end.

Definition as_count (a : answer) : Z :=
  match a with
  | AnInt z => z
  | AText _ => 0
  end.

Definition yes_no : list string := ["y"; "n"].

(** The prompts of [__main__], up to the call of [process_accounts]:
    answers the configuration, the lines left and the console. *)
Definition read_config (inputs : list string)
  : (console_error + config) * list string * list console_event :=
  match validate_input "Upgrade Level (Y/N): " yes_no false inputs [] with
  | (None, rest, shown) => (inl EOFError, rest, shown)
  | (Some au, rest, shown) =>
      match answered_yes au with
      | inl e => (inl e, rest, shown)
      | inr level_yes =>
          let counted :=
            if level_yes : bool
            then validate_input "Enter the number of times to upgrade level: " [] true
                                rest shown
            else (Some (AnInt 1), rest, shown) in
          match counted with
          | (None, rest1, shown1) => (inl EOFError, rest1, shown1)
          | (Some uc, rest1, shown1) =>
              match validate_input "Auto Upgrade Tapping (Y/N): " yes_no false rest1 shown1 with
              | (None, rest2, shown2) => (inl EOFError, rest2, shown2)
              | (Some aut, rest2, shown2) =>
                  match answered_yes aut with
                  | inl e => (inl e, rest2, shown2)
                  | inr tapping_yes =>
                      let counts :=
                        if tapping_yes : bool
                        then
                          match validate_input
                                  "Damage Upgrade (number of levels to upgrade): "
                                  [] true rest2 shown2 with
                          | (None, r, sh) => (None, r, sh)
                          | (Some dc, r, sh) =>
                              match validate_input
                                      "Limit Upgrade (number of levels to upgrade): "
                                      [] true r sh with
                              | (None, r', sh') => (None, r', sh')
                              | (Some lc, r', sh') => (Some (dc, lc), r', sh')
                              end
                          end
                        else (Some (AnInt 0, AnInt 0), rest2, shown2) in
                      match counts with
                      | (None, rest3, shown3) => (inl EOFError, rest3, shown3)
                      | (Some (dc, lc), rest3, shown3) =>
                          match validate_input "Auto Tapping (Y/N): " yes_no false
                                               rest3 shown3 with
                          | (None, rest4, shown4) => (inl EOFError, rest4, shown4)
                          | (Some at_, rest4, shown4) =>
                              (inr (mkConfig (as_text au) (as_count uc) (as_text aut)
                                             (as_count dc) (as_count lc) (as_text at_)),
                               rest4, shown4)
                          end
                      end
                  end
              end
          end
      end
  end.

End FrontEnd.

(** The number of [print] lines on a console. *)
Definition printed_lines (shown : list console_event) : nat :=
  List.length (filter (fun e => match e with Printed _ => true | _ => false end) shown).

(** Whether [validate_input] takes a line as the answer. *)
Definition accepts (parse_int : string -> option Z) (valid_options : list string)
           (is_int : bool) (line : string) : bool :=
  negb (match valid_options with [] => false | _ => true end
        && negb (existsb (String.eqb (Py.lower (Py.strip line))) valid_options))
  && (negb is_int || match parse_int (Py.strip line) with Some _ => true | None => false end).

(** The value [validate_input] makes of an accepted line. *)
Definition answer_of (parse_int : string -> option Z) (is_int : bool) (line : string)
  : answer :=
  if is_int then AnInt (match parse_int (Py.strip line) with Some z => z | None => 0 end)
  else AText (Py.strip line).

(** A stand-in for [int] that knows the numerals 0 to 3. *)
Definition small_int (s : string) : option Z :=
  if String.eqb s "0" then Some 0
  else if String.eqb s "1" then Some 1
  else if String.eqb s "2" then Some 2
  else if String.eqb s "3" then Some 3
  else None.

(** ** Time *)

(** From [w] to [w'] the clock did not go back, the trace only grew, and
    every request added left no earlier than the clock of [w] and satisfies
    [P] with its time of dispatch. *)
Definition paced (P : Z -> request -> Prop) (w w' : world) : Prop :=
  now w <= now w'
  /\ exists fresh,
       trace w' = (fresh ++ trace w)%list
       /\ Forall (fun e => match e with
                           | Dispatch t r => now w <= t /\ P t r
                           | _ => True
                           end) fresh.

(** The requests for the active boosts in a trace were all sent at [T] or
    later. *)
Definition active_listing_not_before (T : Z) (w w' : world) : Prop :=
  exists fresh,
    trace w' = (fresh ++ trace w)%list
    /\ Forall (fun e => match e with
                        | Dispatch t r => req_url r = BoostModificationActive -> T <= t
                        | _ => True
                        end) fresh.

(** No request for the active boosts. *)
Definition not_active_listing (t : Z) (r : request) : Prop :=
  req_url r <> BoostModificationActive.

Definition any_request (t : Z) (r : request) : Prop := True.

(** Whatever [m] returns satisfies [Pv]. *)
Definition yields {A : Type} (Pv : A -> Prop) (m : M A) : Prop :=
  forall w a, fst (m w) = Ok a -> Pv a.

(** A pass that goes on carries [last] as the time of its boost check. *)
Definition goes_on_with (last : Z) (s : step) : Prop :=
  forall ls', s = Continue ls' -> last_boost_check ls' = last.

(** A service whose first answer takes five minutes. *)
Definition slow_first_answer (n : nat) : nat :=
  match n with
  | O => Z.to_nat 300000
  | _ => 0%nat
  end.

Definition is_active_listing (e : event) : bool :=
  match e with
  | Dispatch _ r =>
      match req_url r with
      | BoostModificationActive => true
      | _ => false
      end
  | _ => false
  end.

(** ** Who writes what in the progress record *)

(** The part [view] of the progress record is the same in [w] and [w']. *)
Definition unchanged {V : Type} (view : UserStats -> V) (w w' : world) : Prop :=
  view (user_stats w') = view (user_stats w).

(** The update [f] of the progress record leaves the part [view] alone. *)
Definition leaves {V : Type} (view : UserStats -> V) (f : UserStats -> UserStats) : Prop :=
  forall s, view (f s) = view s.

Definition besides_missions (s : UserStats) :=
  (username s, initial_level s, final_level s, damage_upgrades s, limit_upgrades s,
   taps_performed s).

Definition besides_levels (s : UserStats) :=
  (username s, damage_upgrades s, limit_upgrades s, missions_completed s,
   taps_performed s).

Definition besides_upgrades (s : UserStats) :=
  (username s, initial_level s, final_level s, missions_completed s, taps_performed s).

Definition besides_taps (s : UserStats) :=
  (username s, initial_level s, final_level s, damage_upgrades s, limit_upgrades s,
   missions_completed s).

(** * Proofs *)

(** ** Unfolding the monad *)

Ltac run_monad :=
  cbv [bind ret raise diverge lift try_except log emit sleep time_time get_stats
       modify_stats send session_get session_post raise_for_status response_json
       random_delay] in *.

(** Split on the scrutinee of the first conditional or match of the goal. *)
Ltac split_match :=
  match goal with
  | |- context [if ?c then _ else _] => destruct c eqn:?
  | |- context [match ?x with _ => _ end] => destruct x eqn:?
  end.

Ltac crunch := repeat (simpl in *; try split_match); simpl in *.

(** ** Reasoning about what a computation does to the world *)

Section Steps.

Variable R : world -> world -> Prop.
Hypothesis R_refl : forall w, R w w.
Hypothesis R_trans : forall a b c, R a b -> R b c -> R a c.

Lemma steps_ret A (a : A) : steps R (ret a).
Proof. intros w. apply R_refl. Qed.

Lemma steps_raise A e : steps R (@raise A e).
Proof. intros w. apply R_refl. Qed.

Lemma steps_diverge A : steps R (@diverge A).
Proof. intros w. apply R_refl. Qed.

Lemma steps_lift A (r : res A) : steps R (lift r).
Proof. destruct r; [apply steps_ret | apply steps_raise]. Qed.

Lemma steps_time : steps R time_time.
Proof. intros w. apply R_refl. Qed.

Lemma steps_get_stats : steps R get_stats.
Proof. intros w. apply R_refl. Qed.

Lemma steps_bind A B (m : M A) (k : A -> M B) :
  steps R m -> (forall a, steps R (k a)) -> steps R (bind m k).
Proof.
  intros Hm Hk w. unfold bind. specialize (Hm w).
  destruct (m w) as [[a|e|] w']; simpl in *; auto.
  eapply R_trans; [exact Hm | apply Hk].
Qed.

Lemma steps_try A (m : M A) h :
  steps R m -> (forall e, steps R (h e)) -> steps R (try_except m h).
Proof.
  intros Hm Hh w. unfold try_except. specialize (Hm w).
  destruct (m w) as [[a|e|] w']; simpl in *; auto.
  eapply R_trans; [exact Hm | apply Hh].
Qed.

Lemma steps_for_each A (l : list A) body :
  (forall x, steps R (body x)) -> steps R (for_each l body).
Proof.
  intros Hb. induction l as [|x l IH]; simpl.
  - apply steps_ret.
  - apply steps_bind; auto.
Qed.

(** The oracle, and what [R] is assumed to tolerate: every request except
    possibly a login, every log entry, sleep and random draw, and the updates
    of the progress record in [okf]. *)
Variable respond : nat -> http_result.
Variable latency : nat -> nat.
Variable jitter : nat -> nat.
Variable okf : (UserStats -> UserStats) -> Prop.

Hypothesis R_send : forall r, is_login r = false -> steps R (send respond latency r).
Hypothesis R_log : forall l s, steps R (log l s).
Hypothesis R_sleep : forall d, steps R (sleep d).
Hypothesis R_random : steps R (random_delay jitter).
Hypothesis R_modify : forall f, okf f -> steps R (modify_stats f).
Hypothesis okf_final : forall v, okf (set_final_level v).
Hypothesis okf_initial : forall v, okf (set_initial_level v).
Hypothesis okf_damage : okf (add_damage_upgrades 1).
Hypothesis okf_limit : okf (add_limit_upgrades 1).
Hypothesis okf_missions : okf (add_missions_completed 1).

Ltac steps_tac :=
  repeat first
    [ simple apply steps_ret | simple apply steps_raise | simple apply steps_diverge
    | simple apply steps_lift | simple apply steps_time | simple apply steps_get_stats
    | simple apply R_log | simple apply R_sleep | simple apply R_random
    | simple apply R_modify; solve [auto]
    | simple apply steps_bind; [ | intros ? ]
    | simple apply steps_try; [ | intros ? ]
    | simple apply steps_for_each; intros ?
    | match goal with
      | |- steps _ (if ?c then _ else _) => destruct c
      | |- steps _ (match ?x with _ => _ end) => destruct x
      | |- steps _ (raise_for_status _) => unfold raise_for_status
      | |- steps _ (response_json _) => unfold response_json
      | |- steps _ (session_get _ _ _ _ _) =>
          unfold session_get; apply R_send; reflexivity
      | |- steps _ (session_post _ _ _ _ _) =>
          unfold session_post; apply R_send; reflexivity
      end ].

Lemma steps_get_campaign_missions tok c :
  steps R (get_campaign_missions respond latency tok c).
Proof. unfold get_campaign_missions. steps_tac. Qed.

Lemma steps_complete_mission tok i l :
  steps R (complete_mission respond latency tok i l).
Proof. unfold complete_mission. steps_tac. Qed.

Lemma steps_claim_mission_reward tok i l :
  steps R (claim_mission_reward respond latency tok i l).
Proof. unfold claim_mission_reward. steps_tac. Qed.

Lemma steps_process_mission tok m :
  steps R (process_mission respond latency tok m).
Proof.
  unfold process_mission.
  pose proof steps_complete_mission. pose proof steps_claim_mission_reward.
  steps_tac; auto.
Qed.

Lemma steps_process_missions tok c :
  steps R (process_missions respond latency tok c).
Proof.
  unfold process_missions.
  pose proof steps_get_campaign_missions. pose proof steps_process_mission.
  steps_tac; auto.
Qed.

Lemma steps_claim_daily tok : steps R (claim_daily respond latency tok).
Proof. unfold claim_daily. steps_tac. Qed.

Lemma steps_get_levels tok : steps R (get_levels respond latency tok).
Proof. unfold get_levels. steps_tac. Qed.

Lemma steps_get_tapping_upgrades tok :
  steps R (get_tapping_upgrades respond latency tok).
Proof. unfold get_tapping_upgrades. steps_tac. Qed.

Lemma steps_upgrade_level tok : steps R (upgrade_level respond latency tok).
Proof. unfold upgrade_level. steps_tac. Qed.

Lemma steps_upgrade_tapping tok i ty :
  steps R (upgrade_tapping respond latency tok i ty).
Proof. unfold upgrade_tapping. steps_tac. Qed.

Lemma steps_get_game_status tok : steps R (get_game_status respond latency tok).
Proof. unfold get_game_status. steps_tac. Qed.

Lemma steps_perform_tapping tok n : steps R (perform_tapping respond latency tok n).
Proof. unfold perform_tapping. steps_tac. Qed.

Lemma steps_freeze_game tok : steps R (freeze_game respond latency tok).
Proof. unfold freeze_game. steps_tac. Qed.

Lemma steps_get_active_boosts tok : steps R (get_active_boosts respond latency tok).
Proof. unfold get_active_boosts. steps_tac. Qed.

Lemma steps_get_boosts tok : steps R (get_boosts respond latency tok).
Proof. unfold get_boosts. steps_tac. Qed.

Lemma steps_use_boost tok i ty : steps R (use_boost respond latency tok i ty).
Proof. unfold use_boost. pose proof steps_get_active_boosts. steps_tac; auto. Qed.

Lemma steps_use_refill_boost tok : steps R (use_refill_boost respond latency tok).
Proof.
  unfold use_refill_boost, get_refill_boost. pose proof steps_get_boosts.
  steps_tac; auto.
Qed.

Lemma steps_use_available_boosts tok :
  steps R (use_available_boosts respond latency tok).
Proof.
  unfold use_available_boosts, use_available_boost.
  pose proof steps_get_boosts. pose proof steps_use_boost.
  steps_tac; auto.
Qed.

Lemma steps_boost_check tok last : steps R (boost_check respond latency tok last).
Proof.
  unfold boost_check. pose proof steps_use_available_boosts. steps_tac; auto.
Qed.

Lemma steps_upgrade_level_loop n tok :
  steps R (upgrade_level_loop respond latency n tok).
Proof.
  induction n as [|n IH]; simpl; pose proof steps_upgrade_level; steps_tac; auto.
Qed.

Lemma steps_upgrade_tapping_loop n tok u ty :
  steps R (upgrade_tapping_loop respond latency n tok u ty).
Proof.
  induction n as [|n IH]; simpl; pose proof steps_upgrade_tapping; steps_tac; auto.
Qed.

Lemma steps_summarize_upgrades : steps R summarize_upgrades.
Proof. unfold summarize_upgrades. steps_tac. Qed.

Lemma steps_level_phase cfg tok : steps R (level_phase respond latency cfg tok).
Proof.
  unfold level_phase.
  pose proof steps_get_levels. pose proof steps_upgrade_level_loop.
  steps_tac; auto.
Qed.

Lemma steps_tapping_phase cfg tok : steps R (tapping_phase respond latency cfg tok).
Proof.
  unfold tapping_phase.
  pose proof steps_get_tapping_upgrades. pose proof steps_upgrade_tapping_loop.
  steps_tac; auto.
Qed.

Lemma steps_on_status_failure ls : steps R (on_status_failure ls).
Proof. unfold on_status_failure. steps_tac. Qed.

Lemma steps_refill_branch tok ls : steps R (refill_branch respond latency tok ls).
Proof. unfold refill_branch. pose proof steps_use_refill_boost. steps_tac; auto. Qed.

Lemma steps_freeze_branch tok : steps R (freeze_branch respond latency tok).
Proof. unfold freeze_branch. pose proof steps_freeze_game. steps_tac; auto. Qed.

(** The loop body, for relations that tolerate any change of
    [taps_performed]. *)
Hypothesis okf_taps : forall d, okf (add_taps_performed d).

Lemma steps_after_tap ls c result :
  steps R (after_tap jitter ls c result).
Proof. unfold after_tap. steps_tac. Qed.

Lemma steps_after_status tok ls status :
  steps R (after_status respond latency jitter tok ls status).
Proof.
  unfold after_status.
  pose proof steps_on_status_failure. pose proof steps_refill_branch.
  pose proof steps_freeze_branch.
  pose proof steps_perform_tapping. pose proof steps_after_tap.
  steps_tac; auto.
Qed.

Lemma steps_auto_play_iter tok ls :
  steps R (auto_play_iter respond latency jitter tok ls).
Proof.
  unfold auto_play_iter.
  pose proof steps_boost_check. pose proof steps_get_game_status.
  pose proof steps_after_status.
  steps_tac; auto.
Qed.

(** The rest is stated for any loop body that respects [R]: the relations
    of interest differ in how they treat a tap. *)
Hypothesis R_iter : forall tok ls, steps R (auto_play_iter respond latency jitter tok ls).

Lemma steps_auto_play_loop fuel tok ls :
  steps R (auto_play_loop respond latency jitter fuel tok ls).
Proof.
  revert ls. induction fuel as [|fuel IH]; intros ls; simpl; steps_tac; auto.
Qed.

Lemma steps_auto_play_game fuel tok :
  steps R (auto_play_game respond latency jitter fuel tok).
Proof.
  unfold auto_play_game. pose proof steps_auto_play_loop. steps_tac; auto.
Qed.

Lemma steps_account_phases fuel cfg tok :
  steps R (account_phases respond latency jitter fuel cfg tok).
Proof.
  unfold account_phases.
  pose proof steps_claim_daily. pose proof steps_process_missions.
  pose proof steps_level_phase. pose proof steps_tapping_phase.
  pose proof steps_summarize_upgrades. pose proof steps_auto_play_game.
  steps_tac; auto.
Qed.

End Steps.

(** ** Termination and exception safety *)

Lemma terminates_ret A (a : A) : terminates (ret a).
Proof. intros w. discriminate. Qed.

Lemma terminates_raise A e : terminates (@raise A e).
Proof. intros w. discriminate. Qed.

Lemma terminates_lift A (r : res A) : terminates (lift r).
Proof. destruct r; intros w; discriminate. Qed.

Lemma terminates_bind A B (m : M A) (k : A -> M B) :
  terminates m -> (forall a, terminates (k a)) -> terminates (bind m k).
Proof.
  intros Hm Hk w. unfold bind. specialize (Hm w).
  destruct (m w) as [[a|e|] w']; simpl in *; try discriminate; auto.
  apply Hk.
Qed.

Lemma terminates_try A (m : M A) h :
  terminates m -> (forall e, terminates (h e)) -> terminates (try_except m h).
Proof.
  intros Hm Hh w. unfold try_except. specialize (Hm w).
  destruct (m w) as [[a|e|] w']; simpl in *; try discriminate; auto.
  apply Hh.
Qed.

Lemma terminates_for_each A (l : list A) body :
  (forall x, terminates (body x)) -> terminates (for_each l body).
Proof.
  intros Hb. induction l as [|x l IH]; simpl.
  - apply terminates_ret.
  - apply terminates_bind; auto.
Qed.

Lemma terminates_log l s : terminates (log l s).
Proof. intros w. discriminate. Qed.

Lemma terminates_sleep d : terminates (sleep d).
Proof. intros w. discriminate. Qed.

Lemma terminates_time : terminates time_time.
Proof. intros w. discriminate. Qed.

Lemma terminates_get_stats : terminates get_stats.
Proof. intros w. discriminate. Qed.

Lemma terminates_modify f : terminates (modify_stats f).
Proof. intros w. discriminate. Qed.

Lemma terminates_send respond latency r : terminates (send respond latency r).
Proof. intros w. unfold send. destruct (respond (ncalls w)); discriminate. Qed.

Lemma terminates_random jitter : terminates (random_delay jitter).
Proof. intros w. discriminate. Qed.

Lemma safe_ret A (a : A) : safe (ret a).
Proof. intros w e. discriminate. Qed.

Lemma safe_bind A B (m : M A) (k : A -> M B) :
  safe m -> (forall a, safe (k a)) -> safe (bind m k).
Proof.
  intros Hm Hk w e. unfold bind. specialize (Hm w).
  destruct (m w) as [[a|e'|] w']; simpl in *; try discriminate.
  - apply Hk.
  - exfalso. apply (Hm e'). reflexivity.
Qed.

(** [except Exception] with a handler that cannot fail lets nothing out,
    whatever the body does. *)
Lemma safe_try A (m : M A) h :
  (forall e, safe (h e)) -> safe (try_except m h).
Proof.
  intros Hh w e. unfold try_except.
  destruct (m w) as [[a|e'|] w']; simpl in *; try discriminate.
  apply Hh.
Qed.

Lemma safe_for_each A (l : list A) body :
  (forall x, safe (body x)) -> safe (for_each l body).
Proof.
  intros Hb. induction l as [|x l IH]; simpl.
  - apply safe_ret.
  - apply safe_bind; auto.
Qed.

Lemma safe_log l s : safe (log l s).
Proof. intros w e. discriminate. Qed.

Lemma safe_sleep d : safe (sleep d).
Proof. intros w e. discriminate. Qed.


Lemma safe_modify f : safe (modify_stats f).
Proof. intros w e. discriminate. Qed.

Lemma safe_terminates_ok A (m : M A) w :
  safe m -> terminates m -> exists a, fst (m w) = Ok a.
Proof.
  intros Hs Ht. specialize (Hs w). specialize (Ht w).
  destruct (fst (m w)) as [a|e|].
  - eauto.
  - exfalso. apply (Hs e). reflexivity.
  - exfalso. apply Ht. reflexivity.
Qed.

Ltac terminates_tac :=
  repeat first
    [ simple apply terminates_ret | simple apply terminates_raise
    | simple apply terminates_lift | simple apply terminates_log
    | simple apply terminates_sleep | simple apply terminates_time
    | simple apply terminates_get_stats | simple apply terminates_modify
    | simple apply terminates_random
    | simple apply terminates_bind; [ | intros ? ]
    | simple apply terminates_try; [ | intros ? ]
    | simple apply terminates_for_each; intros ?
    | match goal with
      | |- terminates (if ?c then _ else _) => destruct c
      | |- terminates (match ?x with _ => _ end) => destruct x
      | |- terminates (raise_for_status _) => unfold raise_for_status
      | |- terminates (response_json _) => unfold response_json
      | |- terminates (session_get _ _ _ _ _) =>
          unfold session_get; simple apply terminates_send
      | |- terminates (session_post _ _ _ _ _) =>
          unfold session_post; simple apply terminates_send
      end ].

(** A handler that logs and returns a constant. *)
Ltac safe_handler :=
  intros ?; simple apply safe_bind; [ simple apply safe_log | intros ?; simple apply safe_ret ].

Section Gateway.

Variable respond : nat -> http_result.
Variable latency : nat -> nat.

Lemma terminates_login tok : terminates (login respond latency tok).
Proof. unfold login. terminates_tac. Qed.

Lemma safe_login tok : safe (login respond latency tok).
Proof. unfold login. apply safe_try. safe_handler. Qed.

Lemma terminates_get_campaign_missions tok c :
  terminates (get_campaign_missions respond latency tok c).
Proof. unfold get_campaign_missions. terminates_tac. Qed.


Lemma terminates_complete_mission tok i l :
  terminates (complete_mission respond latency tok i l).
Proof. unfold complete_mission. terminates_tac. Qed.


Lemma terminates_claim_mission_reward tok i l :
  terminates (claim_mission_reward respond latency tok i l).
Proof. unfold claim_mission_reward. terminates_tac. Qed.


Lemma terminates_claim_daily tok : terminates (claim_daily respond latency tok).
Proof. unfold claim_daily. terminates_tac. Qed.

Lemma safe_claim_daily tok : safe (claim_daily respond latency tok).
Proof. unfold claim_daily. apply safe_try. intros ?. apply safe_log. Qed.

Lemma terminates_get_levels tok : terminates (get_levels respond latency tok).
Proof. unfold get_levels. terminates_tac. Qed.

Lemma safe_get_levels tok : safe (get_levels respond latency tok).
Proof. unfold get_levels. apply safe_try. safe_handler. Qed.

Lemma terminates_get_tapping_upgrades tok :
  terminates (get_tapping_upgrades respond latency tok).
Proof. unfold get_tapping_upgrades. terminates_tac. Qed.

Lemma safe_get_tapping_upgrades tok :
  safe (get_tapping_upgrades respond latency tok).
Proof. unfold get_tapping_upgrades. apply safe_try. safe_handler. Qed.

Lemma terminates_upgrade_level tok : terminates (upgrade_level respond latency tok).
Proof. unfold upgrade_level. terminates_tac. Qed.


Lemma terminates_upgrade_tapping tok i ty :
  terminates (upgrade_tapping respond latency tok i ty).
Proof. unfold upgrade_tapping. terminates_tac. Qed.


Lemma terminates_get_game_status tok :
  terminates (get_game_status respond latency tok).
Proof. unfold get_game_status. terminates_tac. Qed.

Lemma safe_get_game_status tok : safe (get_game_status respond latency tok).
Proof. unfold get_game_status. apply safe_try. safe_handler. Qed.

Lemma terminates_perform_tapping tok n :
  terminates (perform_tapping respond latency tok n).
Proof. unfold perform_tapping. terminates_tac. Qed.

Lemma safe_perform_tapping tok n : safe (perform_tapping respond latency tok n).
Proof. unfold perform_tapping. apply safe_try. safe_handler. Qed.

Lemma terminates_freeze_game tok : terminates (freeze_game respond latency tok).
Proof. unfold freeze_game. terminates_tac. Qed.

Lemma safe_freeze_game tok : safe (freeze_game respond latency tok).
Proof. unfold freeze_game. apply safe_try. safe_handler. Qed.

Lemma terminates_get_active_boosts tok :
  terminates (get_active_boosts respond latency tok).
Proof. unfold get_active_boosts. terminates_tac. Qed.

Lemma safe_get_active_boosts tok : safe (get_active_boosts respond latency tok).
Proof. unfold get_active_boosts. apply safe_try. safe_handler. Qed.

Lemma terminates_get_boosts tok : terminates (get_boosts respond latency tok).
Proof. unfold get_boosts. terminates_tac. Qed.

Lemma safe_get_boosts tok : safe (get_boosts respond latency tok).
Proof. unfold get_boosts. apply safe_try. safe_handler. Qed.

End Gateway.

Section Containment.

Variable respond : nat -> http_result.
Variable latency : nat -> nat.
Variable jitter : nat -> nat.











Lemma safe_process_account fuel cfg tok :
  safe (process_account respond latency jitter fuel cfg tok).
Proof.
  unfold process_account.
  apply safe_bind; [apply safe_login | intros name].
  destruct (negb (Py.truthy name)).
  - apply safe_log.
  - apply safe_bind; [apply safe_modify | intros _].
    apply safe_bind; [apply safe_try; intros ?; apply safe_log | intros _].
    apply safe_bind; [apply safe_log | intros _; apply safe_sleep].
Qed.

Lemma safe_process_accounts file fuel cfg :
  safe (process_accounts respond latency jitter file fuel cfg).
Proof.
  unfold process_accounts. destruct file.
  - apply safe_log.
  - apply safe_log.
  - apply safe_for_each. intros line. apply safe_process_account.
Qed.

End Containment.

(** [use_boost] inspects the active boosts outside of any [try], but
    [get_active_boosts] has already walked the same fields inside its own
    [try], so the second walk cannot fail. *)




(** ** Failure containment *)



(** ** Status fetch and tap submission *)

(** C10.  [get_game_status] is [perform_tapping] at a click count of 0: both
    send the same POST to the submit endpoint with [clickedCount = 0], hand
    back the same value and leave the same world, log entries apart. *)
Theorem status_fetch_is_zero_click_tap :
  forall (respond : nat -> http_result) (latency : nat -> nat) (tok : string) (w : world),
    fst (get_game_status respond latency tok w)
    = fst (perform_tapping respond latency tok 0 w)
    /\ strip_logs (snd (get_game_status respond latency tok w))
       = strip_logs (snd (perform_tapping respond latency tok 0 w))
    /\ sent (snd (get_game_status respond latency tok w))
       = (sent w ++ [mkRequest POST GameClickerSubmit (get_headers tok) []
                               (Some (JObj [("clickedCount", JNum 0)]))])%list.
Proof.
  intros respond latency tok w. unfold get_game_status, perform_tapping, sent. run_monad.
  destruct (respond (ncalls w)) as [|st [b|]]; simpl; auto.
  - destruct (400 <=? st); simpl; auto.
    destruct b; simpl; auto.
    destruct (Py.lookup "currentClickedCount" fields),
             (Py.lookup "totalClicksLimit" fields); simpl; auto.
  - destruct (400 <=? st); simpl; auto.
Qed.

(** ** What one submit exchange does *)

Lemma get_game_status_run respond latency tok w :
  exists w',
    get_game_status respond latency tok w = (Ok (clicker_result (respond (ncalls w))), w')
    /\ ncalls w' = S (ncalls w)
    /\ user_stats w' = user_stats w
    /\ requests_of (trace w') = submit_request tok 0 :: requests_of (trace w).
Proof.
  unfold get_game_status. run_monad.
  destruct (respond (ncalls w)) as [|st [b|]]; simpl.
  - eexists; repeat split; reflexivity.
  - destruct (400 <=? st) eqn:Hst; simpl.
    + destruct b; simpl; eexists; repeat split; reflexivity.
    + destruct b; simpl; try (eexists; repeat split; reflexivity).
      destruct (Py.lookup "currentClickedCount" fields),
               (Py.lookup "totalClicksLimit" fields); simpl;
        eexists; repeat split; reflexivity.
  - destruct (400 <=? st); simpl; eexists; repeat split; reflexivity.
Qed.

Lemma perform_tapping_run respond latency tok n w :
  exists w',
    perform_tapping respond latency tok n w = (Ok (clicker_result (respond (ncalls w))), w')
    /\ ncalls w' = S (ncalls w)
    /\ user_stats w' = user_stats w
    /\ requests_of (trace w') = submit_request tok n :: requests_of (trace w).
Proof.
  unfold perform_tapping. run_monad.
  destruct (respond (ncalls w)) as [|st [b|]]; simpl.
  - eexists; repeat split; reflexivity.
  - destruct (400 <=? st) eqn:Hst; simpl.
    + destruct b; simpl; eexists; repeat split; reflexivity.
    + destruct b; simpl; try (eexists; repeat split; reflexivity).
      destruct (Py.lookup "currentClickedCount" fields); simpl;
        eexists; repeat split; reflexivity.
  - destruct (400 <=? st); simpl; eexists; repeat split; reflexivity.
Qed.

(** ** The progress counters *)

Lemma counters_le_refl s : counters_le s s.
Proof. unfold counters_le. lia. Qed.

Lemma counters_le_trans a b c : counters_le a b -> counters_le b c -> counters_le a c.
Proof. unfold counters_le. lia. Qed.

Section Counters.

Variable respond : nat -> http_result.
Variable latency : nat -> nat.
Variable jitter : nat -> nat.

Let okc (f : UserStats -> UserStats) : Prop := forall s, counters_le s (f s).
Let okt (f : UserStats -> UserStats) : Prop :=
  forall s, taps_performed s <= taps_performed (f s).

Lemma counters_grow_refl w : counters_grow w w.
Proof. apply counters_le_refl. Qed.

Lemma counters_grow_trans a b c :
  counters_grow a b -> counters_grow b c -> counters_grow a c.
Proof. apply counters_le_trans. Qed.

Lemma taps_grow_refl w : taps_grow w w.
Proof. unfold taps_grow. lia. Qed.

Lemma taps_grow_trans a b c : taps_grow a b -> taps_grow b c -> taps_grow a c.
Proof. unfold taps_grow. lia. Qed.

Lemma counters_send r : steps counters_grow (send respond latency r).
Proof.
  intros w. unfold send. destruct (respond (ncalls w)); apply counters_le_refl.
Qed.

Lemma taps_send r : steps taps_grow (send respond latency r).
Proof.
  intros w. unfold send, taps_grow. destruct (respond (ncalls w)); simpl; lia.
Qed.

Lemma counters_modify f : okc f -> steps counters_grow (modify_stats f).
Proof. intros H w. apply H. Qed.

Lemma taps_modify f : okt f -> steps taps_grow (modify_stats f).
Proof. intros H w. apply H. Qed.

Ltac stats_frame :=
  first [ apply counters_grow_refl | apply counters_grow_trans
        | apply taps_grow_refl | apply taps_grow_trans
        | intros; apply counters_send | intros; apply taps_send
        | apply counters_modify | apply taps_modify
        | intros; intros ?; apply counters_le_refl
        | intros; intros ?; unfold taps_grow; simpl; lia
        | intros; intros ?; unfold counters_le; simpl; lia ].

(** Every phase other than the loop body, for both relations. *)
Lemma counters_auto_play_iter tok ls :
  steps counters_grow (auto_play_iter respond latency jitter tok ls).
Proof. apply steps_auto_play_iter with (okf := okc); stats_frame. Qed.

Lemma counters_account_phases fuel cfg tok :
  steps counters_grow (account_phases respond latency jitter fuel cfg tok).
Proof.
  apply steps_account_phases with (okf := okc); try stats_frame.
  apply counters_auto_play_iter.
Qed.

(** A tap whose answer reports at least the click count of the status
    before it does not lower [taps_performed]. *)
Lemma taps_after_tap ls c result :
  (forall v fresh, Py.getitem result "currentClickedCount" = Val v ->
                   Py.num v = Val fresh -> c <= fresh) ->
  steps taps_grow (after_tap jitter ls c result).
Proof.
  intros Hc w. unfold after_tap, taps_grow. run_monad.
  destruct (Py.truthy result).
  - destruct (Py.getitem result "currentClickedCount") as [v|] eqn:Hv; simpl; [|lia].
    destruct (Py.num v) as [fresh|] eqn:Hn; simpl; [|lia].
    specialize (Hc v fresh eq_refl Hn).
    destruct (_ =? 0); simpl; lia.
  - destruct (max_consecutive_failures <=? consecutive_failures ls + 1); simpl; [lia|].
    destruct (_ =? 0); simpl; lia.
Qed.

Lemma taps_after_status tok ls n w :
  clicks_never_drop respond ->
  ncalls w = S n ->
  taps_grow w (snd (after_status respond latency jitter tok ls
                                 (clicker_result (respond n)) w)).
Proof.
  intros Hdrop Hn. unfold after_status.
  destruct (clicker_result (respond n)) as [| | | | |kv] eqn:Hs;
    try (apply steps_on_status_failure; stats_frame);
    try (unfold clicker_result in Hs; destruct (respond n) as [|st [[]|]];
         try destruct (400 <=? st); discriminate).
  unfold Py.getitem.
  destruct (Py.lookup "currentClickedCount" kv) as [cj|] eqn:Hcj;
    [|apply taps_grow_refl].
  destruct (Py.lookup "totalClicksLimit" kv) as [lj|]; [|apply taps_grow_refl].
  unfold lift at 1 2. unfold bind at 1 2. cbv [ret]. cbv beta iota.
  destruct (Py.num lj) as [l|]; [|apply taps_grow_refl].
  destruct (Py.num cj) as [c|] eqn:Hc; [|apply taps_grow_refl].
  unfold lift at 1 2. unfold bind at 1 2. cbv [ret]. cbv beta iota.
  destruct (near_limit c l).
  { apply steps_refill_branch; stats_frame. }
  destruct (l <=? c).
  { apply steps_freeze_branch; stats_frame. }
  unfold bind at 1.
  destruct (perform_tapping_run respond latency tok default_click_count w)
    as (w' & Hrun & Hcalls & Hstats & _).
  rewrite Hrun. rewrite Hn.
  apply taps_grow_trans with (b := w').
  { unfold taps_grow. rewrite Hstats. lia. }
  apply taps_after_tap. intros v fresh Hv Hf.
  apply (Hdrop n c fresh).
  - unfold reported_clicks. rewrite Hs, Hcj, Hc. reflexivity.
  - unfold reported_clicks.
    destruct (clicker_result (respond (S n))) as [| | | | |kv']; try discriminate.
    unfold Py.getitem in Hv.
    destruct (Py.lookup "currentClickedCount" kv') as [v'|]; [|discriminate].
    injection Hv as ->. rewrite Hf. reflexivity.
Qed.

Lemma taps_auto_play_iter tok ls :
  clicks_never_drop respond ->
  steps taps_grow (auto_play_iter respond latency jitter tok ls).
Proof.
  intros Hdrop w. unfold auto_play_iter. unfold bind at 1.
  assert (Hbc : steps taps_grow (boost_check respond latency tok (last_boost_check ls))).
  { apply steps_boost_check; stats_frame. }
  specialize (Hbc w).
  destruct (boost_check respond latency tok (last_boost_check ls) w) as [[last|e|] w1];
    simpl in Hbc; try exact Hbc.
  unfold bind at 1.
  destruct (get_game_status_run respond latency tok w1)
    as (w2 & Hrun & Hcalls & Hstats & _).
  rewrite Hrun.
  apply taps_grow_trans with (b := w1); [exact Hbc|].
  apply taps_grow_trans with (b := w2).
  { unfold taps_grow. rewrite Hstats. lia. }
  apply taps_after_status; assumption.
Qed.

Lemma taps_account_phases fuel cfg tok :
  clicks_never_drop respond ->
  steps taps_grow (account_phases respond latency jitter fuel cfg tok).
Proof.
  intros Hdrop.
  apply steps_account_phases with (okf := okt); try stats_frame.
  intros. apply taps_auto_play_iter. exact Hdrop.
Qed.

End Counters.

(** C3, as amended.  [damage_upgrades], [limit_upgrades] and
    [missions_completed] never decrease, whatever the service answers: over
    the whole [try] block of an account (for every loop budget, hence at
    every point of the auto-tap loop), over one pass of the loop and over one
    purchase.  [taps_performed] moves by [new_click_count - current_clicks]
    at each successful tap, so it never decreases when no exchange reports a
    click count below the one reported just before it. *)
Theorem progress_counters_are_monotone :
  forall (respond : nat -> http_result) (latency jitter : nat -> nat)
         (fuel : nat) (cfg : config) (tok : string) (w : world),
    counters_grow w (snd (account_phases respond latency jitter fuel cfg tok w))
    /\ (forall ls, counters_grow w (snd (auto_play_iter respond latency jitter tok ls w)))
    /\ (forall i ty, counters_grow w (snd (upgrade_tapping respond latency tok i ty w)))
    /\ (clicks_never_drop respond ->
        taps_grow w (snd (account_phases respond latency jitter fuel cfg tok w))
        /\ forall ls, taps_grow w (snd (auto_play_iter respond latency jitter tok ls w))).
Proof.
  intros respond latency jitter fuel cfg tok w.
  split; [|split; [|split; [|intros Hdrop; split]]].
  - apply counters_account_phases.
  - intros ls. apply counters_auto_play_iter.
  - intros i ty.
    apply steps_upgrade_tapping
      with (okf := fun f => forall s, counters_le s (f s));
      first [ apply counters_grow_refl | apply counters_grow_trans
            | intros; apply counters_send
            | intros; intros ?; apply counters_le_refl
            | intros f Hf w0; apply Hf
            | unfold counters_le; simpl; intros; lia ].
  - apply taps_account_phases. assumption.
  - intros ls. apply taps_auto_play_iter. assumption.
Qed.

(** A status of 10 clicks followed by a tap answer of 25 clicks: the service
    never goes back, and the pass credits 15 taps. *)
Lemma progress_counters_are_monotone_witness :
  let respond := scripted [ok_json (game_status 10 100); ok_json (game_status 25 100)] in
  clicks_never_drop respond
  /\ taps_grow world0
       (snd (auto_play_iter respond no_latency no_jitter "token" (mkLoop 0 0 0) world0)).
Proof.
  intros respond.
  assert (H : clicks_never_drop respond).
  { intros n a b Ha Hb.
    destruct n as [|[|[|n]]]; vm_compute in Ha, Hb; try discriminate.
    injection Ha as <-. injection Hb as <-. lia. }
  split; [exact H|].
  apply (progress_counters_are_monotone respond no_latency no_jitter 0
           (mkConfig "n" 0 "n" 0 0 "n") "token" world0).
  exact H.
Defined.

(** C3, as first stated, fails for [taps_performed]: a status reporting 50
    clicks followed by a tap answer reporting 10 takes the counter from 0 to
    -40. *)
Lemma taps_performed_can_decrease :
  let respond := scripted [ok_json (game_status 50 100); ok_json (game_status 10 100)] in
  let w' := snd (auto_play_iter respond no_latency no_jitter "token"
                                (mkLoop 0 0 0) world0) in
  taps_performed (user_stats w') = -40
  /\ ~ taps_performed (user_stats world0) <= taps_performed (user_stats w').
Proof.
  vm_compute. split; [reflexivity | intros H; apply H; reflexivity].
Qed.

(** ** The batch: which accounts are started *)

Lemma trace_grows_refl P w : trace_grows P w w.
Proof. exists []. split; [reflexivity | constructor]. Qed.

Lemma trace_grows_trans P a b c :
  trace_grows P a b -> trace_grows P b c -> trace_grows P a c.
Proof.
  intros (f1 & H1 & F1) (f2 & H2 & F2). exists (f2 ++ f1)%list. split.
  - rewrite H2, H1. apply app_assoc.
  - apply Forall_app. split; assumption.
Qed.

Lemma trace_grows_one (P : event -> Prop) e w w' :
  trace w' = e :: trace w -> P e -> trace_grows P w w'.
Proof. intros H He. exists [e]. split; [exact H | repeat constructor; exact He]. Qed.

Lemma trace_grows_same (P : event -> Prop) w w' :
  trace w' = trace w -> trace_grows P w w'.
Proof. intros H. exists []. split; [exact H | constructor]. Qed.

Lemma requests_of_app a b :
  requests_of (a ++ b) = (requests_of a ++ requests_of b)%list.
Proof.
  induction a as [|e a IH]; simpl; [reflexivity|].
  destruct e; simpl; rewrite IH; reflexivity.
Qed.

Lemma no_login_in_fresh fresh :
  Forall not_login_dispatch fresh -> filter is_login (requests_of fresh) = [].
Proof.
  induction 1 as [|e fresh He _ IH]; simpl; [reflexivity|].
  destruct e; simpl; auto. simpl in He. rewrite He. exact IH.
Qed.

Lemma logins_unchanged w w' :
  trace_grows not_login_dispatch w w' -> logins w' = logins w.
Proof.
  intros (fresh & H & F). unfold logins, sent. rewrite H, requests_of_app, rev_app_distr.
  rewrite filter_app, map_app.
  rewrite <- (rev_involutive (filter is_login (rev (requests_of fresh)))).
  rewrite <- filter_rev, rev_involutive, (no_login_in_fresh _ F). simpl.
  apply app_nil_r.
Qed.

Lemma logins_after_login tok w w' t :
  trace_grows not_login_dispatch
    (mkWorld (now w) (ncalls w) (nrandom w)
             (Dispatch t (login_request tok) :: trace w) (user_stats w)) w' ->
  logins w' = (logins w ++ [get_headers tok])%list.
Proof.
  intros H. rewrite (logins_unchanged _ _ H). unfold logins, sent. simpl.
  rewrite filter_app, map_app. reflexivity.
Qed.

Section Batch.

Variable respond : nat -> http_result.
Variable latency : nat -> nat.
Variable jitter : nat -> nat.

Let quiet := trace_grows not_login_dispatch.

Ltac trace_frame :=
  first [ apply trace_grows_refl | apply trace_grows_trans
        | exact I
        | intros; exact I
        | intros; intros ?; apply trace_grows_same; reflexivity
        | intros; intros ?; eapply trace_grows_one; [reflexivity | exact I] ].

Lemma quiet_send r : is_login r = false -> steps quiet (send respond latency r).
Proof.
  intros Hr w. unfold send.
  destruct (respond (ncalls w)); (eapply trace_grows_one; [reflexivity | exact Hr]).
Qed.

Lemma quiet_auto_play_iter tok ls :
  steps quiet (auto_play_iter respond latency jitter tok ls).
Proof.
  apply steps_auto_play_iter with (okf := fun _ => True);
    first [ apply quiet_send | trace_frame ].
Qed.

Lemma quiet_account_phases fuel cfg tok :
  steps quiet (account_phases respond latency jitter fuel cfg tok).
Proof.
  apply steps_account_phases with (okf := fun _ => True);
    first [ apply quiet_send | apply quiet_auto_play_iter | trace_frame ].
Qed.

(** [login] sends exactly the login request, then only logs. *)
Lemma login_run tok w :
  exists v w',
    login respond latency tok w = (Ok v, w')
    /\ trace_grows not_login_dispatch
         (mkWorld (now w) (ncalls w) (nrandom w)
                  (Dispatch (now w) (login_request tok) :: trace w) (user_stats w)) w'.
Proof.
  unfold login. run_monad.
  destruct (respond (ncalls w)) as [|st [b|]]; simpl.
  - do 2 eexists. split; [reflexivity|].
    eapply trace_grows_one; [reflexivity | exact I].
  - destruct (400 <=? st); simpl.
    + do 2 eexists. split; [reflexivity|].
      eapply trace_grows_one; [reflexivity | exact I].
    + destruct (Py.contains "user" b) as [[|]|]; simpl;
        try (do 2 eexists; split;
             [reflexivity | eapply trace_grows_one; [reflexivity | exact I]]).
      destruct (Py.getitem b "user") as [u|]; simpl;
        try (do 2 eexists; split;
             [reflexivity | eapply trace_grows_one; [reflexivity | exact I]]).
      destruct (Py.contains "nickname" u) as [[|]|]; simpl;
        try (do 2 eexists; split;
             [reflexivity | eapply trace_grows_one; [reflexivity | exact I]]).
      destruct (Py.getitem u "nickname"); simpl;
        do 2 eexists; (split;
             [reflexivity | eapply trace_grows_one; [reflexivity | exact I]]).
  - destruct (400 <=? st); simpl;
      do 2 eexists; (split;
        [reflexivity | eapply trace_grows_one; [reflexivity | exact I]]).
Qed.

Lemma process_account_logins fuel cfg tok w :
  logins (snd (process_account respond latency jitter fuel cfg tok w))
  = (logins w ++ [get_headers tok])%list.
Proof.
  unfold process_account. unfold bind at 1.
  destruct (login_run tok w) as (name & w1 & Hrun & Hq). rewrite Hrun.
  apply logins_after_login with (t := now w).
  eapply trace_grows_trans; [exact Hq|].
  match goal with |- trace_grows _ _ (snd (?m _)) => assert (Hm : steps quiet m) end.
  { destruct (negb (Py.truthy name)).
    - intros ?. eapply trace_grows_one; [reflexivity | exact I].
    - apply steps_bind; [apply trace_grows_trans | | intros _].
      { intros ?. apply trace_grows_same. reflexivity. }
      apply steps_bind; [apply trace_grows_trans | | intros _].
      { apply steps_try; [apply trace_grows_trans | apply quiet_account_phases |].
        intros _ ?. eapply trace_grows_one; [reflexivity | exact I]. }
      apply steps_bind; [apply trace_grows_trans | | intros _].
      { intros ?. eapply trace_grows_one; [reflexivity | exact I]. }
      intros ?. eapply trace_grows_one; [reflexivity | exact I]. }
  apply Hm.
Qed.

(** Without auto-tapping nothing in an account can run forever. *)
Lemma terminates_process_mission tok m :
  terminates (process_mission respond latency tok m).
Proof.
  unfold process_mission.
  pose proof (terminates_complete_mission respond latency).
  pose proof (terminates_claim_mission_reward respond latency).
  terminates_tac; auto.
Qed.

Lemma terminates_process_missions tok c :
  terminates (process_missions respond latency tok c).
Proof.
  unfold process_missions.
  pose proof (terminates_get_campaign_missions respond latency).
  pose proof terminates_process_mission.
  terminates_tac; auto.
Qed.

Lemma terminates_upgrade_level_loop n tok :
  terminates (upgrade_level_loop respond latency n tok).
Proof.
  induction n as [|n IH]; simpl;
    pose proof (terminates_upgrade_level respond latency); terminates_tac; auto.
Qed.

Lemma terminates_upgrade_tapping_loop n tok u ty :
  terminates (upgrade_tapping_loop respond latency n tok u ty).
Proof.
  induction n as [|n IH]; simpl;
    pose proof (terminates_upgrade_tapping respond latency); terminates_tac; auto.
Qed.

Lemma terminates_level_phase cfg tok :
  terminates (level_phase respond latency cfg tok).
Proof.
  unfold level_phase.
  pose proof (terminates_get_levels respond latency).
  pose proof terminates_upgrade_level_loop.
  terminates_tac; auto.
Qed.

Lemma terminates_tapping_phase cfg tok :
  terminates (tapping_phase respond latency cfg tok).
Proof.
  unfold tapping_phase.
  pose proof (terminates_get_tapping_upgrades respond latency).
  pose proof terminates_upgrade_tapping_loop.
  terminates_tac; auto.
Qed.

Lemma terminates_summarize_upgrades : terminates summarize_upgrades.
Proof. unfold summarize_upgrades. terminates_tac. Qed.

Lemma terminates_process_account fuel cfg tok :
  String.eqb (Py.lower (auto_tapping cfg)) "y" = false ->
  terminates (process_account respond latency jitter fuel cfg tok).
Proof.
  intros Hoff. unfold process_account, account_phases. rewrite Hoff.
  pose proof (terminates_login respond latency).
  pose proof (terminates_claim_daily respond latency).
  pose proof terminates_process_missions.
  pose proof terminates_level_phase. pose proof terminates_tapping_phase.
  pose proof terminates_summarize_upgrades.
  terminates_tac; auto.
Qed.

Lemma process_accounts_logins fuel cfg lines w :
  let r := for_each lines (fun line =>
             process_account respond latency jitter fuel cfg (Py.strip line)) w in
  exists k,
    (k <= List.length lines)%nat
    /\ logins (snd r)
       = (logins w ++ map (fun line => get_headers (Py.strip line)) (firstn k lines))%list
    /\ (fst r <> Diverge -> k = List.length lines).
Proof.
  revert w. induction lines as [|line lines IH]; intros w; simpl.
  - exists 0%nat. simpl. rewrite app_nil_r. auto.
  - unfold bind.
    pose proof (process_account_logins fuel cfg (Py.strip line) w) as Hl.
    pose proof (safe_process_account respond latency jitter fuel cfg (Py.strip line) w) as Hs.
    destruct (process_account respond latency jitter fuel cfg (Py.strip line) w)
      as [[[]|e|] w1]; simpl in *.
    + destruct (IH w1) as (k & Hk & Hlog & Hall).
      exists (S k). simpl. rewrite Hlog, Hl, <- app_assoc. simpl.
      split; [lia | split; [reflexivity | intros Hd; f_equal; auto]].
    + exfalso. apply (Hs e). reflexivity.
    + exists 1%nat. simpl. rewrite Hl.
      split; [lia | split; [reflexivity | intros Hd; congruence]].
Qed.

End Batch.

(** C8, as amended.  With a readable credential file the batch calls
    [process_account] once per line, in order, with the line trimmed of
    surrounding whitespace: a blank line is no exception, its account is
    started with the empty token.  The accounts started are a prefix of the
    lines, and all of them once the batch returns, which it always does when
    auto-tapping is off.  With the file missing the batch logs one error and
    sends nothing. *)
Theorem batch_starts_one_account_per_line :
  forall (respond : nat -> http_result) (latency jitter : nat -> nat)
         (fuel : nat) (cfg : config) (w : world),
    (forall text,
        let r := process_accounts respond latency jitter (FileText text) fuel cfg w in
        exists k,
          (k <= List.length (Py.readlines text))%nat
          /\ logins (snd r)
             = (logins w ++ map (fun line => get_headers (Py.strip line))
                                (firstn k (Py.readlines text)))%list
          /\ (fst r <> Diverge -> k = List.length (Py.readlines text))
          /\ (String.eqb (Py.lower (auto_tapping cfg)) "y" = false -> fst r = Ok tt))
    /\ process_accounts respond latency jitter FileNotFound fuel cfg w
       = (Ok tt, mkWorld (now w) (ncalls w) (nrandom w)
                         (Logged ERROR "File token.txt tidak ditemukan." :: trace w)
                         (user_stats w))
    /\ sent (snd (process_accounts respond latency jitter FileNotFound fuel cfg w))
       = sent w.
Proof.
  intros respond latency jitter fuel cfg w. split; [|split; reflexivity].
  intros text r.
  destruct (process_accounts_logins respond latency jitter fuel cfg (Py.readlines text) w)
    as (k & Hk & Hlog & Hall).
  exists k. repeat split; try assumption.
  intros Hoff.
  destruct (safe_terminates_ok _
              (process_accounts respond latency jitter (FileText text) fuel cfg) w)
    as [[] Hok].
  - apply safe_process_accounts.
  - unfold process_accounts. apply terminates_for_each. intros line.
    apply terminates_process_account. exact Hoff.
  - exact Hok.
Qed.

(** Three lines, the middle one blank and the last one padded, with the
    network down: three accounts are started, with the tokens ["tokA"], [""]
    and ["tokB"]. *)
Lemma batch_starts_one_account_per_line_witness :
  let cfg := mkConfig "n" 1 "n" 0 0 "n" in
  let text := unlines ["tokA"; ""; "  tokB "] in
  String.eqb (Py.lower (auto_tapping cfg)) "y" = false
  /\ logins (snd (process_accounts (fun _ => ConnFailed) no_latency no_jitter
                                   (FileText text) 0 cfg world0))
     = [get_headers "tokA"; get_headers ""; get_headers "tokB"].
Proof.
  intros cfg text. split; [reflexivity|].
  destruct (batch_starts_one_account_per_line
              (fun _ => ConnFailed) no_latency no_jitter 0%nat cfg world0)
    as [H _].
  destruct (H text) as (k & _ & Hlog & Hall & Hok).
  rewrite Hlog. rewrite Hall.
  - reflexivity.
  - rewrite (Hok eq_refl). discriminate.
Defined.

(** C8, as first stated, fails on a blank line: the file "tokA", "", "tokB"
    holds two non-empty lines, yet three accounts are started, one of them
    with the empty token. *)
Lemma blank_line_starts_an_account :
  let cfg := mkConfig "n" 1 "n" 0 0 "n" in
  let text := unlines ["tokA"; ""; "tokB"] in
  let w' := snd (process_accounts (fun _ => ConnFailed) no_latency no_jitter
                                  (FileText text) 0 cfg world0) in
  nonblank_tokens text = ["tokA"; "tokB"]
  /\ logins w' = [get_headers "tokA"; get_headers ""; get_headers "tokB"]
  /\ logins w' <> map get_headers (nonblank_tokens text).
Proof.
  vm_compute. repeat split. discriminate.
Qed.

(** ** The refill attempt *)

Lemma sent_snoc w w' r :
  requests_of (trace w') = r :: requests_of (trace w) ->
  sent w' = (sent w ++ [r])%list.
Proof. intros H. unfold sent. rewrite H. reflexivity. Qed.

Lemma sent_snoc2 w w' r1 r2 :
  requests_of (trace w') = r2 :: r1 :: requests_of (trace w) ->
  sent w' = (sent w ++ [r1; r2])%list.
Proof. intros H. unfold sent. rewrite H. simpl. rewrite <- app_assoc. reflexivity. Qed.

Lemma sent_same w w' :
  requests_of (trace w') = requests_of (trace w) -> sent w' = sent w.
Proof. intros H. unfold sent. rewrite H. reflexivity. Qed.

Lemma get_boosts_run respond latency tok w :
  exists w',
    get_boosts respond latency tok w = (Ok (boosts_listing (respond (ncalls w))), w')
    /\ ncalls w' = S (ncalls w)
    /\ user_stats w' = user_stats w
    /\ requests_of (trace w') = boosts_request tok :: requests_of (trace w).
Proof.
  unfold get_boosts. run_monad.
  destruct (respond (ncalls w)) as [|st [b|]]; simpl.
  - eexists; repeat split; reflexivity.
  - destruct (400 <=? st); simpl.
    + eexists; repeat split; reflexivity.
    + destruct (Py.getitem b "data"); simpl; eexists; repeat split; reflexivity.
  - destruct (400 <=? st); simpl; eexists; repeat split; reflexivity.
Qed.

(** [use_refill_boost], exchange by exchange: the listing is fetched; when it
    holds no usable refill the answer is [False] and nothing else is sent;
    otherwise the purchase is sent and the answer is whether it went
    through. *)
Lemma use_refill_boost_run respond latency tok w :
  let n := ncalls w in
  exists w',
    requests_of (trace w') = boosts_request tok :: requests_of (trace w)
    /\ ncalls w' = S n
    /\ match refill_choice (respond n) with
       | Exc e => use_refill_boost respond latency tok w = (Raise e, w')
       | Val b =>
           if Py.truthy b then
             match Py.getitem b "id" with
             | Exc e => use_refill_boost respond latency tok w = (Raise e, w')
             | Val boost_id =>
                 exists w'',
                   use_refill_boost respond latency tok w
                   = (Ok (refill_purchased (respond (S n))), w'')
                   /\ requests_of (trace w'')
                      = buy_request tok boost_id :: requests_of (trace w')
             end
           else
             exists w'',
               use_refill_boost respond latency tok w = (Ok false, w'')
               /\ requests_of (trace w'') = requests_of (trace w')
       end.
Proof.
  intros n. subst n.
  destruct (get_boosts_run respond latency tok w) as (w1 & Hrun & Hn & _ & Hreq).
  exists w1. split; [exact Hreq|]. split; [exact Hn|].
  unfold use_refill_boost, get_refill_boost, refill_choice. run_monad. rewrite Hrun.
  destruct (Py.iter (boosts_listing (respond (ncalls w)))) as [items|e]; simpl;
    [|reflexivity].
  destruct (Py.next_where is_refill_boost items) as [b|e]; simpl; [|reflexivity].
  destruct (Py.truthy b); simpl.
  - destruct (Py.getitem b "id") as [boost_id|e]; simpl; [|reflexivity].
    rewrite Hn.
    destruct (respond (S (ncalls w))) as [|st [body|]]; simpl.
    + eexists; split; reflexivity.
    + destruct (400 <=? st); simpl.
      * eexists; split; reflexivity.
      * destruct (Py.getitem body "id"); simpl; eexists; split; reflexivity.
    + destruct (400 <=? st); simpl; eexists; split; reflexivity.
  - eexists; split; reflexivity.
Qed.

(** ** The loop body after a successful status fetch *)

Lemma near_limit_spec c l : near_limit c l = true <-> 7 * l <= 8 * c.
Proof.
  unfold near_limit, refill_threshold. rewrite Qle_bool_iff.
  unfold Qle, Qmult, inject_Z. cbn [Qnum Qden Pos.mul]. lia.
Qed.

Lemma after_status_dispatch respond latency jitter tok ls kv cj lj c l w :
  Py.lookup "currentClickedCount" kv = Some cj ->
  Py.lookup "totalClicksLimit" kv = Some lj ->
  Py.num cj = Val c ->
  Py.num lj = Val l ->
  after_status respond latency jitter tok ls (JObj kv) w
  = (if near_limit c l then refill_branch respond latency tok ls
     else if l <=? c then freeze_branch respond latency tok
          else bind (perform_tapping respond latency tok default_click_count)
                    (after_tap jitter ls c)) w.
Proof.
  intros Hc Hl Hcn Hln. unfold after_status, Py.getitem. rewrite Hc, Hl.
  unfold lift at 1 2. unfold bind at 1 2. cbv [ret]. cbv beta iota.
  rewrite Hln, Hcn.
  unfold lift at 1 2. unfold bind at 1 2. cbv [ret]. cbv beta iota.
  reflexivity.
Qed.

Lemma freeze_game_run respond latency tok w :
  exists v w',
    freeze_game respond latency tok w = (Ok v, w')
    /\ requests_of (trace w') = freeze_request tok :: requests_of (trace w).
Proof.
  unfold freeze_game. run_monad.
  destruct (respond (ncalls w)) as [|st [b|]]; simpl;
    try destruct (400 <=? st); simpl; do 2 eexists; split; reflexivity.
Qed.

Lemma freeze_branch_run respond latency tok w :
  fst (freeze_branch respond latency tok w) = Ok (Stop Frozen)
  /\ sent (snd (freeze_branch respond latency tok w)) = (sent w ++ [freeze_request tok])%list.
Proof.
  unfold freeze_branch. run_monad.
  match goal with
  | |- context [freeze_game respond latency tok ?w1] =>
      destruct (freeze_game_run respond latency tok w1) as (v & w2 & Hrun & Hreq);
      rewrite Hrun
  end.
  simpl. split; [reflexivity|]. apply sent_snoc. exact Hreq.
Qed.

(** [after_tap] sends nothing. *)
Lemma after_tap_sends_nothing jitter ls c result w :
  requests_of (trace (snd (after_tap jitter ls c result w))) = requests_of (trace w).
Proof.
  unfold after_tap. run_monad.
  destruct (Py.truthy result).
  - destruct (Py.getitem result "currentClickedCount") as [v|]; simpl; [|reflexivity].
    destruct (Py.num v); simpl; [|reflexivity].
    destruct (_ =? 0); reflexivity.
  - destruct (max_consecutive_failures <=? consecutive_failures ls + 1); simpl;
      [reflexivity|].
    destruct (_ =? 0); reflexivity.
Qed.


(** The refill block, exchange by exchange. *)
Lemma refill_branch_run respond latency tok ls w :
  let r := refill_branch respond latency tok ls w in
  let n := ncalls w in
  match refill_choice (respond n) with
  | Exc e => fst r = Raise e /\ sent (snd r) = (sent w ++ [boosts_request tok])%list
  | Val b =>
      if Py.truthy b then
        match Py.getitem b "id" with
        | Exc e => fst r = Raise e /\ sent (snd r) = (sent w ++ [boosts_request tok])%list
        | Val boost_id =>
            sent (snd r) = (sent w ++ [boosts_request tok; buy_request tok boost_id])%list
            /\ if refill_purchased (respond (S n))
               then fst r = Ok (Continue ls)
                    /\ exists t, trace (snd r) = Slept 2000 :: t
               else fst r = Ok (Stop StoppedSwitchAccount)
        end
      else fst r = Ok (Stop StoppedSwitchAccount)
           /\ sent (snd r) = (sent w ++ [boosts_request tok])%list
  end.
Proof.
  intros r n. subst r n. unfold refill_branch. run_monad.
  match goal with
  | |- context [use_refill_boost respond latency tok ?w1] =>
      pose proof (use_refill_boost_run respond latency tok w1) as H;
      set (w1' := w1) in *
  end.
  simpl in H. destruct H as (w2 & Hreq & Hn & H).
  change (ncalls w1') with (ncalls w) in *.
  change (requests_of (trace w1')) with (requests_of (trace w)) in *.
  destruct (refill_choice (respond (ncalls w))) as [b|e].
  - destruct (Py.truthy b).
    + destruct (Py.getitem b "id") as [boost_id|e].
      * destruct H as (w3 & Hrun & Hreq3). rewrite Hrun.
        split.
        { destruct (refill_purchased (respond (S (ncalls w)))); simpl;
            apply sent_snoc2; simpl; rewrite Hreq3, Hreq; reflexivity. }
        destruct (refill_purchased (respond (S (ncalls w)))); simpl; eauto.
      * rewrite H. simpl. split; [reflexivity | apply sent_snoc; exact Hreq].
    + destruct H as (w3 & Hrun & Hreq3). rewrite Hrun. simpl.
      split; [reflexivity | apply sent_snoc; simpl; rewrite Hreq3; exact Hreq].
  - rewrite H. simpl. split; [reflexivity | apply sent_snoc; exact Hreq].
Qed.



(** ** The hard cap *)

(** C2, as amended.  The freeze test comes after the refill check, whose
    block always leaves the pass: a status
    with [current_clicks >= total_limit] freezes the game and ends the loop
    as Frozen only when the refill check did not fire, which for such a
    status needs a negative limit.  With [current_clicks >= total_limit >= 0]
    the refill block runs instead: the pass never ends as Frozen and sends no
    freeze request. *)
Theorem freeze_is_behind_the_refill_check :
  forall (respond : nat -> http_result) (latency jitter : nat -> nat) (tok : string)
         (ls : loop_state) (kv : list (string * json)) (cj lj : json) (c l : Z) (w : world),
    Py.lookup "currentClickedCount" kv = Some cj ->
    Py.lookup "totalClicksLimit" kv = Some lj ->
    Py.num cj = Val c ->
    Py.num lj = Val l ->
    l <= c ->
    let r := after_status respond latency jitter tok ls (JObj kv) w in
    (near_limit c l = false ->
       l < 0
       /\ fst r = Ok (Stop Frozen)
       /\ sent (snd r) = (sent w ++ [freeze_request tok])%list)
    /\ (0 <= l ->
        near_limit c l = true
        /\ fst r <> Ok (Stop Frozen)
        /\ exists fresh, sent (snd r) = (sent w ++ fresh)%list
                         /\ ~ In (freeze_request tok) fresh).
Proof.
  intros respond latency jitter tok ls kv cj lj c l w Hc Hl Hcn Hln Hle r. subst r.
  rewrite (after_status_dispatch respond latency jitter tok ls kv cj lj c l w Hc Hl Hcn Hln).
  split.
  - intros Hnear. rewrite Hnear.
    assert (Hneg : l < 0).
    { destruct (Z.ltb_spec l 0) as [|Hpos]; [assumption|].
      assert (Ht : near_limit c l = true) by (apply near_limit_spec; lia).
      congruence. }
    split; [exact Hneg|].
    destruct (Z.leb_spec l c); [|lia]. apply freeze_branch_run.
  - intros Hpos.
    assert (Hnear : near_limit c l = true) by (apply near_limit_spec; lia).
    split; [exact Hnear|]. rewrite Hnear.
    pose proof (refill_branch_run respond latency tok ls w) as H. simpl in H.
    destruct (refill_choice (respond (ncalls w))) as [b|e].
    + destruct (Py.truthy b).
      * destruct (Py.getitem b "id") as [boost_id|e].
        { destruct H as (Hsent & H). split.
          - destruct (refill_purchased (respond (S (ncalls w))));
              [destruct H as (H & _)|]; rewrite H; discriminate.
          - eexists. split; [exact Hsent|].
            intros [Hin|[Hin|[]]]; discriminate. }
        { destruct H as (H & Hsent). split; [rewrite H; discriminate|].
          eexists. split; [exact Hsent|]. intros [Hin|[]]; discriminate. }
      * destruct H as (H & Hsent). split; [rewrite H; discriminate|].
        eexists. split; [exact Hsent|]. intros [Hin|[]]; discriminate.
    + destruct H as (H & Hsent). split; [rewrite H; discriminate|].
      eexists. split; [exact Hsent|]. intros [Hin|[]]; discriminate.
Qed.

(** A status of -8 clicks with a limit of -8 passes the refill check
    (-8 < -7) and reaches the freeze; a status of 100 of 100 does not. *)
Lemma freeze_is_behind_the_refill_check_witness :
  let ls := mkLoop 0 0 0 in
  let low := after_status (scripted []) no_latency no_jitter "token" ls
                          (game_status (-8) (-8)) world0 in
  let full := after_status (scripted []) no_latency no_jitter "token" ls
                           (game_status 100 100) world0 in
  near_limit (-8) (-8) = false
  /\ fst low = Ok (Stop Frozen)
  /\ sent (snd low) = [freeze_request "token"]
  /\ fst full <> Ok (Stop Frozen).
Proof.
  intros ls low full.
  pose proof (freeze_is_behind_the_refill_check (scripted []) no_latency no_jitter "token" ls
                [("currentClickedCount", JNum (-8)); ("totalClicksLimit", JNum (-8))]
                (JNum (-8)) (JNum (-8)) (-8) (-8) world0
                eq_refl eq_refl eq_refl eq_refl (Z.le_refl (-8))) as [Hlow _].
  pose proof (freeze_is_behind_the_refill_check (scripted []) no_latency no_jitter "token" ls
                [("currentClickedCount", JNum 100); ("totalClicksLimit", JNum 100)]
                (JNum 100) (JNum 100) 100 100 world0
                eq_refl eq_refl eq_refl eq_refl (Z.le_refl 100)) as [_ Hfull].
  destruct (Hlow eq_refl) as (_ & Hf & Hs).
  destruct Hfull as (_ & Hn & _); [discriminate|].
  split; [reflexivity|]. split; [exact Hf|]. split; [exact Hs | exact Hn].
Defined.

(** C2, as first stated, fails at the cap itself: with 100 clicks of 100 and
    no refill on offer the loop asks for the boost listing and stops to
    switch account; the freeze request is never sent. *)
Lemma at_the_cap_the_loop_switches_account :
  let respond := scripted [ok_json (game_status 100 100); ok_json (JObj [("data", JArr [])])] in
  let r := auto_play_game respond no_latency no_jitter 5 "token" world0 in
  100 <= 100
  /\ fst r = Ok StoppedSwitchAccount
  /\ fst r <> Ok Frozen
  /\ sent (snd r) = [submit_request "token" 0; boosts_request "token"]
  /\ ~ In (freeze_request "token") (sent (snd r)).
Proof.
  vm_compute. repeat split; try discriminate.
  intros [H|[H|[]]]; discriminate.
Qed.

(** ** The consecutive-failure counter *)

Lemma on_status_failure_run ls w :
  let r := on_status_failure ls w in
  let failures := consecutive_failures ls + 1 in
  sent (snd r) = sent w
  /\ if max_consecutive_failures <=? failures
     then fst r = Ok (Stop StoppedFailure)
     else fst r = Ok (Continue (mkLoop (tapping_count ls) failures (last_boost_check ls)))
          /\ exists t, trace (snd r) = Slept 5000 :: t.
Proof.
  unfold on_status_failure. run_monad.
  destruct (max_consecutive_failures <=? consecutive_failures ls + 1); simpl; eauto.
Qed.

Lemma after_tap_failure jitter ls c result w :
  Py.truthy result = false ->
  let r := after_tap jitter ls c result w in
  let failures := consecutive_failures ls + 1 in
  sent (snd r) = sent w
  /\ if max_consecutive_failures <=? failures
     then fst r = Ok (Stop StoppedFailure)
     else fst r = Ok (Continue (mkLoop (tapping_count ls) failures (last_boost_check ls))).
Proof.
  intros Hf. split.
  - apply sent_same. apply after_tap_sends_nothing.
  - unfold after_tap. run_monad. rewrite Hf.
    destruct (max_consecutive_failures <=? consecutive_failures ls + 1); simpl;
      [reflexivity|].
    destruct (_ =? 0); reflexivity.
Qed.

Lemma after_tap_success jitter ls c result v fresh w :
  Py.truthy result = true ->
  Py.getitem result "currentClickedCount" = Val v ->
  Py.num v = Val fresh ->
  fst (after_tap jitter ls c result w)
  = Ok (Continue (mkLoop (tapping_count ls + (fresh - c)) 0 (last_boost_check ls))).
Proof.
  intros Ht Hv Hn. unfold after_tap. run_monad. rewrite Ht, Hv. simpl. rewrite Hn. simpl.
  destruct (_ =? 0); reflexivity.
Qed.

Lemma after_tap_counter jitter ls c result w s :
  fst (after_tap jitter ls c result w) = Ok (Continue s) ->
  consecutive_failures s = 0
  \/ (consecutive_failures s = consecutive_failures ls + 1
      /\ consecutive_failures s < max_consecutive_failures).
Proof.
  unfold after_tap. run_monad.
  destruct (Py.truthy result).
  - destruct (Py.getitem result "currentClickedCount") as [v|]; simpl; [|discriminate].
    destruct (Py.num v); simpl; [|discriminate].
    destruct (_ =? 0); simpl; intros H; injection H as <-; left; reflexivity.
  - destruct (Z.leb_spec max_consecutive_failures (consecutive_failures ls + 1));
      simpl; [discriminate|].
    destruct (_ =? 0); simpl; intros He; injection He as <-; right; simpl; lia.
Qed.

Lemma on_status_failure_counter ls w s :
  fst (on_status_failure ls w) = Ok (Continue s) ->
  consecutive_failures s = consecutive_failures ls + 1
  /\ consecutive_failures s < max_consecutive_failures.
Proof.
  unfold on_status_failure. run_monad.
  destruct (Z.leb_spec max_consecutive_failures (consecutive_failures ls + 1));
    simpl; [discriminate|].
  intros He; injection He as <-; simpl; lia.
Qed.

Lemma refill_branch_counter respond latency tok ls w s :
  fst (refill_branch respond latency tok ls w) = Ok (Continue s) -> s = ls.
Proof.
  unfold refill_branch. run_monad.
  match goal with
  | |- context [use_refill_boost respond latency tok ?w1] =>
      destruct (use_refill_boost respond latency tok w1) as [[[|]|e|] w2]
  end; simpl; intros H; try discriminate.
  injection H as <-. reflexivity.
Qed.

Lemma freeze_branch_stops respond latency tok w s :
  fst (freeze_branch respond latency tok w) <> Ok (Continue s).
Proof. rewrite (proj1 (freeze_branch_run respond latency tok w)). discriminate. Qed.

(** How one pass can move the counter: back to 0, not at all, or up by one
    while staying below the maximum. *)
Lemma pass_counter respond latency jitter tok ls w s :
  fst (auto_play_iter respond latency jitter tok ls w) = Ok (Continue s) ->
  consecutive_failures s = 0
  \/ consecutive_failures s = consecutive_failures ls
  \/ (consecutive_failures s = consecutive_failures ls + 1
      /\ consecutive_failures s < max_consecutive_failures).
Proof.
  unfold auto_play_iter. unfold bind at 1.
  destruct (boost_check respond latency tok (last_boost_check ls) w) as [[last|e|] w1];
    simpl; try discriminate.
  unfold bind at 1.
  destruct (get_game_status_run respond latency tok w1) as (w2 & Hrun & _).
  rewrite Hrun.
  set (ls1 := mkLoop (tapping_count ls) (consecutive_failures ls) last).
  change (consecutive_failures ls) with (consecutive_failures ls1).
  unfold after_status.
  destruct (clicker_result (respond (ncalls w1))) as [| | | | |kv] eqn:Hs;
    try (intros H; apply on_status_failure_counter in H; tauto);
    try (unfold clicker_result in Hs; destruct (respond (ncalls w1)) as [|st [[]|]];
         try destruct (400 <=? st); discriminate).
  unfold Py.getitem.
  destruct (Py.lookup "currentClickedCount" kv) as [cj|]; [|discriminate].
  destruct (Py.lookup "totalClicksLimit" kv) as [lj|]; [|discriminate].
  unfold lift at 1 2. unfold bind at 1 2. cbv [ret]. cbv beta iota.
  destruct (Py.num lj) as [l|]; [|discriminate].
  destruct (Py.num cj) as [c|]; [|discriminate].
  unfold lift at 1 2. unfold bind at 1 2. cbv [ret]. cbv beta iota.
  destruct (near_limit c l).
  { intros H. apply refill_branch_counter in H. subst s. tauto. }
  destruct (l <=? c).
  { intros H. exfalso. exact (freeze_branch_stops _ _ _ _ _ H). }
  unfold bind at 1.
  destruct (perform_tapping respond latency tok default_click_count w2) as [[result|e|] w3];
    simpl; try discriminate.
  intros H. apply after_tap_counter in H. tauto.
Qed.

(** A pass that stops ends the loop on the spot: the world the loop returns
    is the world of that pass. *)
Lemma stop_ends_the_loop respond latency jitter fuel tok ls w reason w' :
  auto_play_iter respond latency jitter tok ls w = (Ok (Stop reason), w') ->
  auto_play_loop respond latency jitter (S fuel) tok ls w = (Ok reason, w').
Proof. intros H. simpl. unfold bind. rewrite H. reflexivity. Qed.

Lemma failed_exchange_no_status r : exchange_failed r = true -> clicker_result r = JNull.
Proof.
  destruct r as [|st [[]|]]; simpl; intros H; try reflexivity; rewrite H; reflexivity.
Qed.

Lemma failed_exchange_no_boosts r : exchange_failed r = true -> boosts_listing r = JArr [].
Proof.
  destruct r as [|st [b|]]; simpl; intros H; try reflexivity. rewrite H. reflexivity.
Qed.

Lemma boost_check_offline respond latency tok last w :
  exchange_failed (respond (ncalls w)) = true ->
  exists last' w',
    boost_check respond latency tok last w = (Ok last', w')
    /\ (ncalls w <= ncalls w')%nat
    /\ (ncalls w' <= S (ncalls w))%nat.
Proof.
  intros Hf. unfold boost_check. unfold time_time, bind at 1.
  destruct (boost_check_interval <=? now w - last).
  - unfold use_available_boosts. run_monad.
    destruct (get_boosts_run respond latency tok w) as (w1 & Hrun & Hn & _).
    rewrite Hrun, (failed_exchange_no_boosts _ Hf). simpl.
    do 2 eexists. split; [reflexivity|]. simpl. lia.
  - do 2 eexists. split; [reflexivity|]. lia.
Qed.

(** With the service down for good the loop gives up after the passes it
    takes to bring the counter to the maximum. *)
Lemma loop_gives_up_offline respond latency jitter tok :
  forall (k fuel : nat) (ls : loop_state) (w : world),
    (1 <= k)%nat ->
    consecutive_failures ls + Z.of_nat k = max_consecutive_failures ->
    (k <= fuel)%nat ->
    (forall n, (ncalls w <= n)%nat -> exchange_failed (respond n) = true) ->
    exists w',
      auto_play_loop respond latency jitter fuel tok ls w = (Ok StoppedFailure, w')
      /\ (ncalls w' <= ncalls w + 2 * k)%nat.
Proof.
  induction k as [|k IH]; intros fuel ls w Hk Hcf Hfuel Hoff; [lia|].
  destruct fuel as [|fuel]; [lia|].
  simpl auto_play_loop. unfold auto_play_iter. unfold bind at 1 2.
  destruct (boost_check_offline respond latency tok (last_boost_check ls) w)
    as (last & w1 & Hbc & Hge & Hle); [apply Hoff; lia|].
  rewrite Hbc. unfold bind at 1.
  destruct (get_game_status_run respond latency tok w1) as (w2 & Hrun & Hn2 & _).
  rewrite Hrun, (failed_exchange_no_status _ (Hoff _ Hge)).
  unfold after_status, on_status_failure. run_monad.
  cbn [consecutive_failures tapping_count last_boost_check].
  destruct (max_consecutive_failures <=? consecutive_failures ls + 1) eqn:Hmax.
  - simpl. eexists. split; [reflexivity|]. simpl. lia.
  - apply Z.leb_gt in Hmax. simpl.
    match goal with
    | |- context [auto_play_loop _ _ _ fuel tok ?ls' ?w'] =>
        destruct (IH fuel ls' w') as (w3 & Hloop & Hcalls)
    end; simpl; try lia.
    { intros n Hn. apply Hoff. lia. }
    rewrite Hloop. eexists. split; [reflexivity|]. simpl in Hcalls. lia.
Qed.

Lemma after_tap_outcome jitter ls c result w s :
  fst (after_tap jitter ls c result w) = Ok (Continue s) ->
  (Py.truthy result = true /\ consecutive_failures s = 0)
  \/ (Py.truthy result = false
      /\ consecutive_failures s = consecutive_failures ls + 1
      /\ consecutive_failures s < max_consecutive_failures).
Proof.
  unfold after_tap. run_monad.
  destruct (Py.truthy result).
  - destruct (Py.getitem result "currentClickedCount") as [v|]; simpl; [|discriminate].
    destruct (Py.num v); simpl; [|discriminate].
    destruct (_ =? 0); simpl; intros H; injection H as <-; left; split; reflexivity.
  - destruct (Z.leb_spec max_consecutive_failures (consecutive_failures ls + 1));
      simpl; [discriminate|].
    destruct (_ =? 0); simpl; intros He; injection He as <-; right; simpl;
      (split; [reflexivity | lia]).
Qed.

(** Every way a pass can go on after the status fetch, with what it does to
    the counter: a failed fetch or a failed tap adds one, a refill restart
    leaves the loop state as it was, and only a tap with a truthy answer
    brings the counter back to 0. *)
Lemma after_status_outcome respond latency jitter tok ls status w s :
  fst (after_status respond latency jitter tok ls status w) = Ok (Continue s) ->
  (status = JNull
   /\ consecutive_failures s = consecutive_failures ls + 1
   /\ consecutive_failures s < max_consecutive_failures)
  \/ (status <> JNull /\ s = ls)
  \/ (status <> JNull
      /\ Py.truthy (clicker_result (respond (ncalls w))) = true
      /\ consecutive_failures s = 0)
  \/ (status <> JNull
      /\ Py.truthy (clicker_result (respond (ncalls w))) = false
      /\ consecutive_failures s = consecutive_failures ls + 1
      /\ consecutive_failures s < max_consecutive_failures).
Proof.
  assert (Hgen : forall v, v <> JNull ->
    fst ((clicks_json <- lift (Py.getitem v "currentClickedCount") ;;
          limit_json <- lift (Py.getitem v "totalClicksLimit") ;;
          total_limit <- lift (Py.num limit_json) ;;
          current_clicks <- lift (Py.num clicks_json) ;;
          if near_limit current_clicks total_limit
          then refill_branch respond latency tok ls
          else if total_limit <=? current_clicks
               then freeze_branch respond latency tok
               else result <- perform_tapping respond latency tok default_click_count ;;
                    after_tap jitter ls current_clicks result) w) = Ok (Continue s) ->
    (v <> JNull /\ s = ls)
    \/ (v <> JNull
        /\ Py.truthy (clicker_result (respond (ncalls w))) = true
        /\ consecutive_failures s = 0)
    \/ (v <> JNull
        /\ Py.truthy (clicker_result (respond (ncalls w))) = false
        /\ consecutive_failures s = consecutive_failures ls + 1
        /\ consecutive_failures s < max_consecutive_failures)).
  { intros v Hv.
    destruct (Py.getitem v "currentClickedCount") as [cj|]; [|discriminate].
    destruct (Py.getitem v "totalClicksLimit") as [lj|]; [|discriminate].
    unfold lift at 1 2. unfold bind at 1 2. cbv [ret]. cbv beta iota.
    destruct (Py.num lj) as [l|]; [|discriminate].
    destruct (Py.num cj) as [c|]; [|discriminate].
    unfold lift at 1 2. unfold bind at 1 2. cbv [ret]. cbv beta iota.
    destruct (near_limit c l).
    { intros H. apply refill_branch_counter in H. left. auto. }
    destruct (l <=? c).
    { intros H. exfalso. exact (freeze_branch_stops _ _ _ _ _ H). }
    unfold bind at 1.
    destruct (perform_tapping_run respond latency tok default_click_count w)
      as (w1 & Hrun & _).
    rewrite Hrun. intros H. apply after_tap_outcome in H. right. tauto. }
  unfold after_status. destruct status;
    try (intros H; right; apply Hgen; [discriminate | exact H]).
  intros H. apply on_status_failure_counter in H. left. tauto.
Qed.

(** C4.  The status fetch and the tap share [consecutive_failures]: a
    failed fetch and a failed tap each add one to it and send nothing more in
    that pass; at 5 the pass ends as Stopped-Failure, and a pass that stops
    ends the loop in the world it left.  A pass that goes on either failed
    (counter up by one, still below 5), restarted after a refill (loop state
    untouched, so a good status fetch alone resets nothing), or had a tap
    with a truthy answer, the only case that resets the counter to 0.  With
    the service down for good, the loop started at counter value [5 - k]
    returns Stopped-Failure within [k] passes. *)
Theorem consecutive_failures_stop_the_loop :
  forall (respond : nat -> http_result) (latency jitter : nat -> nat) (tok : string)
         (ls : loop_state) (w : world),
    let failures := consecutive_failures ls + 1 in
    let failed := mkLoop (tapping_count ls) failures (last_boost_check ls) in
    (let r := after_status respond latency jitter tok ls JNull w in
     sent (snd r) = sent w
     /\ if max_consecutive_failures <=? failures
        then fst r = Ok (Stop StoppedFailure)
        else fst r = Ok (Continue failed) /\ exists t, trace (snd r) = Slept 5000 :: t)
    /\ (forall c result,
          Py.truthy result = false ->
          let r := after_tap jitter ls c result w in
          sent (snd r) = sent w
          /\ if max_consecutive_failures <=? failures
             then fst r = Ok (Stop StoppedFailure)
             else fst r = Ok (Continue failed))
    /\ (forall c result v fresh,
          Py.truthy result = true ->
          Py.getitem result "currentClickedCount" = Val v ->
          Py.num v = Val fresh ->
          fst (after_tap jitter ls c result w)
          = Ok (Continue (mkLoop (tapping_count ls + (fresh - c)) 0 (last_boost_check ls))))
    /\ (forall status s,
          fst (after_status respond latency jitter tok ls status w) = Ok (Continue s) ->
          (status = JNull
           /\ consecutive_failures s = failures
           /\ consecutive_failures s < max_consecutive_failures)
          \/ (status <> JNull /\ s = ls)
          \/ (status <> JNull
              /\ Py.truthy (clicker_result (respond (ncalls w))) = true
              /\ consecutive_failures s = 0)
          \/ (status <> JNull
              /\ Py.truthy (clicker_result (respond (ncalls w))) = false
              /\ consecutive_failures s = failures
              /\ consecutive_failures s < max_consecutive_failures))
    /\ (forall s,
          fst (auto_play_iter respond latency jitter tok ls w) = Ok (Continue s) ->
          consecutive_failures s = 0
          \/ consecutive_failures s = consecutive_failures ls
          \/ (consecutive_failures s = failures
              /\ consecutive_failures s < max_consecutive_failures))
    /\ (forall fuel reason w',
          auto_play_iter respond latency jitter tok ls w = (Ok (Stop reason), w') ->
          auto_play_loop respond latency jitter (S fuel) tok ls w = (Ok reason, w'))
    /\ (forall k fuel,
          (1 <= k)%nat ->
          consecutive_failures ls + Z.of_nat k = max_consecutive_failures ->
          (k <= fuel)%nat ->
          (forall n, (ncalls w <= n)%nat -> exchange_failed (respond n) = true) ->
          exists w',
            auto_play_loop respond latency jitter fuel tok ls w = (Ok StoppedFailure, w')
            /\ (ncalls w' <= ncalls w + 2 * k)%nat).
Proof.
  intros respond latency jitter tok ls w failures failed. subst failures failed.
  split; [apply on_status_failure_run|].
  split; [intros c result Hf; apply after_tap_failure; exact Hf|].
  split; [intros c result v fresh; apply after_tap_success|].
  split; [intros status s; apply after_status_outcome|].
  split; [intros s; apply pass_counter|].
  split; [intros fuel reason w'; apply stop_ends_the_loop|].
  intros k fuel. apply loop_gives_up_offline.
Qed.

(** With the network down from the start, the loop started at counter 0
    returns Stopped-Failure on a budget of 5 passes. *)
Lemma consecutive_failures_stop_the_loop_witness :
  exists w',
    auto_play_loop (scripted []) no_latency no_jitter 5 "token" (mkLoop 0 0 0) world0
    = (Ok StoppedFailure, w')
    /\ (ncalls w' <= 10)%nat.
Proof.
  destruct (consecutive_failures_stop_the_loop (scripted []) no_latency no_jitter "token"
              (mkLoop 0 0 0) world0) as (_ & _ & _ & _ & _ & _ & H).
  apply (H 5%nat 5%nat).
  - lia.
  - reflexivity.
  - lia.
  - intros n _. unfold scripted. destruct n as [|n]; reflexivity.
Defined.

(** Failures of both kinds add up: a failed fetch, a failed tap, a tap
    answered with an empty dict, a failed fetch and a failed tap, with three
    good status fetches in between, end the loop as Stopped-Failure after
    eight requests. *)
Example mixed_failures_add_up :
  let respond := scripted [ ConnFailed;
                            ok_json (game_status 10 100); ConnFailed;
                            ok_json (game_status 10 100); ok_json (JObj []);
                            Response 500 None;
                            ok_json (game_status 10 100); Response 503 None ] in
  let r := auto_play_game respond no_latency no_jitter 10 "token" world0 in
  fst r = Ok StoppedFailure /\ ncalls (snd r) = 8%nat.
Proof. vm_compute. split; reflexivity. Qed.

(** ** The mission runner *)

Lemma eq_string_literal v s : Py.eq v (JStr s) = true <-> v = JStr s.
Proof.
  destruct v; simpl; split; intros H; try discriminate.
  - apply String.eqb_eq in H. subst. reflexivity.
  - injection H as ->. apply String.eqb_refl.
Qed.

Lemma complete_mission_run respond latency tok mid label w :
  exists w',
    complete_mission respond latency tok mid label w
    = (Ok (complete_succeeded (respond (ncalls w))), w')
    /\ ncalls w' = S (ncalls w)
    /\ user_stats w' = user_stats w
    /\ requests_of (trace w') = complete_request tok mid :: requests_of (trace w).
Proof.
  unfold complete_mission. run_monad.
  destruct (respond (ncalls w)) as [|st [b|]]; simpl.
  - eexists; repeat split; reflexivity.
  - destruct (400 <=? st); simpl.
    + destruct b; eexists; repeat split; reflexivity.
    + destruct b; simpl; try (eexists; repeat split; reflexivity).
      destruct (Py.lookup "success" fields) as [v|]; simpl;
        [destruct (Py.truthy v)|]; eexists; repeat split; reflexivity.
  - destruct (400 <=? st); simpl; eexists; repeat split; reflexivity.
Qed.

Lemma claim_mission_reward_run respond latency tok mid label w :
  exists w',
    claim_mission_reward respond latency tok mid label w
    = (Ok (claim_succeeded (respond (ncalls w))), w')
    /\ ncalls w' = S (ncalls w)
    /\ user_stats w' = user_stats w
    /\ requests_of (trace w') = claim_request tok mid :: requests_of (trace w).
Proof.
  unfold claim_mission_reward. run_monad.
  destruct (respond (ncalls w)) as [|st b]; simpl.
  - eexists; repeat split; reflexivity.
  - destruct (st =? 201); simpl; eexists; repeat split; reflexivity.
Qed.

(** C6.  For a mission carrying [id], [label] and [completedPercent]: when
    [completedPercent] is the string "100" neither the complete nor the claim
    request is sent and [missions_completed] stays; otherwise the complete
    request is sent, the claim request follows only when the completion
    succeeded, and [missions_completed] goes up by exactly 1 when both
    succeeded and by 0 when either failed. *)
Theorem mission_counts_when_completed_and_claimed :
  forall (respond : nat -> http_result) (latency : nat -> nat) (tok : string)
         (mission mid label pct : json) (w : world),
    Py.getitem mission "id" = Val mid ->
    Py.getitem mission "label" = Val label ->
    Py.getitem mission "completedPercent" = Val pct ->
    let r := process_mission respond latency tok mission w in
    let n := ncalls w in
    let before := missions_completed (user_stats w) in
    let after := missions_completed (user_stats (snd r)) in
    fst r = Ok tt
    /\ (pct = JStr "100" -> sent (snd r) = sent w /\ after = before)
    /\ (pct <> JStr "100" ->
        if complete_succeeded (respond n) then
          sent (snd r) = (sent w ++ [complete_request tok mid; claim_request tok mid])%list
          /\ after = before + (if claim_succeeded (respond (S n)) then 1 else 0)
        else
          sent (snd r) = (sent w ++ [complete_request tok mid])%list
          /\ after = before).
Proof.
  intros respond latency tok mission mid label pct w Hid Hlabel Hpct r n before after.
  subst r n before after. unfold process_mission. rewrite Hid, Hlabel, Hpct.
  run_monad.
  destruct (Py.eq pct (JStr "100")) eqn:Heq; cbv [negb].
  - apply eq_string_literal in Heq. simpl.
    split; [reflexivity|]. split; [auto | intros Hne; contradiction].
  - assert (Hne : pct <> JStr "100").
    { intros E. apply eq_string_literal in E. congruence. }
    match goal with
    | |- context [complete_mission respond latency tok mid label ?w1] =>
        destruct (complete_mission_run respond latency tok mid label w1)
          as (w2 & Hrun & Hn2 & Hs2 & Hr2);
        rewrite Hrun
    end.
    simpl in Hn2, Hs2, Hr2. cbn [ncalls].
    destruct (complete_succeeded (respond (ncalls w))) eqn:Hdone; cbv beta iota.
    + destruct (claim_mission_reward_run respond latency tok mid label w2)
        as (w3 & Hrun3 & Hn3 & Hs3 & Hr3).
      rewrite Hrun3, Hn2.
      destruct (claim_succeeded (respond (S (ncalls w)))); simpl;
        (split; [reflexivity|]); (split; [intros E; contradiction|]); intros _;
        (split; [apply sent_snoc2; simpl; rewrite Hr3, Hr2; reflexivity|]);
        rewrite ?Hs3, Hs2; lia.
    + simpl.
      split; [reflexivity|]. split; [intros E; contradiction|]. intros _.
      split; [apply sent_snoc; simpl; exact Hr2 | rewrite Hs2; reflexivity].
Qed.

(** One mission at 50 percent whose completion and claim both succeed: two
    requests, and the counter goes from 0 to 1. *)
Lemma mission_counts_when_completed_and_claimed_witness :
  let respond := scripted [ok_json (JObj [("success", JBool true)]); Response 201 None] in
  let mission := JObj [("id", JStr "m1"); ("label", JStr "Follow");
                       ("completedPercent", JStr "50")] in
  let r := process_mission respond no_latency "token" mission world0 in
  JStr "50" <> JStr "100"
  /\ sent (snd r) = [complete_request "token" (JStr "m1"); claim_request "token" (JStr "m1")]
  /\ missions_completed (user_stats (snd r)) = 1.
Proof.
  intros respond mission r.
  assert (Hne : JStr "50" <> JStr "100") by discriminate.
  destruct (mission_counts_when_completed_and_claimed respond no_latency "token" mission
              (JStr "m1") (JStr "Follow") (JStr "50") world0 eq_refl eq_refl eq_refl)
    as (_ & _ & H).
  specialize (H Hne). simpl in H. destruct H as (Hsent & Hcount).
  split; [exact Hne|]. split; [exact Hsent | exact Hcount].
Defined.

(** ** The upgrade loops *)

Lemma upgrade_tapping_run respond latency tok uid ty w :
  ty = "Damage" \/ ty = "Limit energy" ->
  exists lvl w',
    upgrade_tapping respond latency tok uid ty w
    = (Ok (purchase_succeeded (respond (ncalls w)), lvl), w')
    /\ ncalls w' = S (ncalls w)
    /\ recorded_upgrades ty (user_stats w')
       = recorded_upgrades ty (user_stats w)
         + (if purchase_recorded (respond (ncalls w)) then 1 else 0)
    /\ requests_of (trace w') = purchase_request tok uid :: requests_of (trace w).
Proof.
  intros Hty. unfold upgrade_tapping, recorded_upgrades. run_monad.
  destruct (respond (ncalls w)) as [|st [b|]]; simpl.
  - do 2 eexists. repeat split; try reflexivity. simpl. lia.
  - destruct (st =? 201); simpl.
    + destruct Hty as [-> | ->]; simpl;
        destruct (Py.getitem b "level"); simpl;
        do 2 eexists; repeat split; reflexivity.
    + destruct (st =? 402); simpl;
        do 2 eexists; repeat split; try reflexivity; simpl; lia.
  - destruct (st =? 201); simpl; [|destruct (st =? 402); simpl];
      do 2 eexists; repeat split; try reflexivity; simpl; lia.
Qed.

(** The tapping-upgrade loop with [k] successful purchases followed by a
    failed one, out of [N > k] requested: [k + 1] purchases are sent and the
    counter moves by [k], plus one when the failed answer was a 201 with a
    JSON body lacking [level]. *)
Lemma upgrade_tapping_loop_stops respond latency tok upgrade uid ty :
  ty = "Damage" \/ ty = "Limit energy" ->
  Py.getitem upgrade "id" = Val uid ->
  forall (k N : nat) (w : world),
    (k < N)%nat ->
    (forall i, (i < k)%nat -> purchase_succeeded (respond (ncalls w + i)%nat) = true) ->
    purchase_succeeded (respond (ncalls w + k)%nat) = false ->
    let w' := snd (upgrade_tapping_loop respond latency N tok upgrade ty w) in
    ncalls w' = (ncalls w + k + 1)%nat
    /\ recorded_upgrades ty (user_stats w')
       = recorded_upgrades ty (user_stats w) + Z.of_nat k
         + (if purchase_recorded (respond (ncalls w + k)%nat) then 1 else 0).
Proof.
  intros Hty Hid. induction k as [|k IH]; intros N w HN Hok Hfail w'; subst w';
    (destruct N as [|N]; [lia|]); simpl; rewrite Hid; run_monad;
    destruct (upgrade_tapping_run respond latency tok uid ty w Hty)
      as (lvl & w1 & Hrun & Hn & Hrec & _);
    rewrite Hrun; cbn [fst snd].
  - rewrite Nat.add_0_r in *. rewrite Hfail. cbn [negb snd].
    rewrite Hrec, Hn. split; lia.
  - assert (H0 : purchase_succeeded (respond (ncalls w)) = true).
    { specialize (Hok 0%nat). rewrite Nat.add_0_r in Hok. apply Hok. lia. }
    rewrite H0. cbn [negb].
    match goal with
    | |- context [upgrade_tapping_loop _ _ N _ _ _ ?w0] =>
        set (w2 := w0); specialize (IH N w2)
    end.
    assert (Hn2 : ncalls w2 = S (ncalls w)) by exact Hn.
    assert (Hs2 : user_stats w2 = user_stats w1) by reflexivity.
    cbv zeta in IH. rewrite Hn2, Hs2 in IH.
    replace (S (ncalls w) + k)%nat with (ncalls w + S k)%nat in IH by lia.
    destruct IH as (Hcalls & Hcount).
    + lia.
    + intros i Hi. replace (S (ncalls w) + i)%nat with (ncalls w + S i)%nat by lia.
      apply Hok. lia.
    + exact Hfail.
    + rewrite Hcalls, Hcount, Hrec.
      assert (Hrecd : purchase_recorded (respond (ncalls w)) = true).
      { unfold purchase_succeeded in H0. unfold purchase_recorded.
        destruct (respond (ncalls w)) as [|st [b|]]; try discriminate.
        destruct (st =? 201); [reflexivity | discriminate]. }
      rewrite Hrecd. split; lia.
Qed.

(** With every purchase successful the loop sends all [N] and counts [N]. *)
Lemma upgrade_tapping_loop_completes respond latency tok upgrade uid ty :
  ty = "Damage" \/ ty = "Limit energy" ->
  Py.getitem upgrade "id" = Val uid ->
  forall (N : nat) (w : world),
    (forall i, (i < N)%nat -> purchase_succeeded (respond (ncalls w + i)%nat) = true) ->
    let w' := snd (upgrade_tapping_loop respond latency N tok upgrade ty w) in
    ncalls w' = (ncalls w + N)%nat
    /\ recorded_upgrades ty (user_stats w')
       = recorded_upgrades ty (user_stats w) + Z.of_nat N.
Proof.
  intros Hty Hid. induction N as [|N IH]; intros w Hok w'; subst w'.
  - simpl. split; lia.
  - simpl. rewrite Hid. run_monad.
    destruct (upgrade_tapping_run respond latency tok uid ty w Hty)
      as (lvl & w1 & Hrun & Hn & Hrec & _).
    rewrite Hrun. cbn [fst snd].
    assert (H0 : purchase_succeeded (respond (ncalls w)) = true).
    { specialize (Hok 0%nat). rewrite Nat.add_0_r in Hok. apply Hok. lia. }
    rewrite H0. cbn [negb].
    match goal with
    | |- context [upgrade_tapping_loop _ _ N _ _ _ ?w0] =>
        set (w2 := w0); specialize (IH w2)
    end.
    assert (Hn2 : ncalls w2 = S (ncalls w)) by exact Hn.
    assert (Hs2 : user_stats w2 = user_stats w1) by reflexivity.
    cbv zeta in IH. rewrite Hn2, Hs2 in IH.
    destruct IH as (Hcalls & Hcount).
    + intros i Hi. replace (S (ncalls w) + i)%nat with (ncalls w + S i)%nat by lia.
      apply Hok. lia.
    + rewrite Hcalls, Hcount, Hrec.
      assert (Hrecd : purchase_recorded (respond (ncalls w)) = true).
      { unfold purchase_succeeded in H0. unfold purchase_recorded.
        destruct (respond (ncalls w)) as [|st [b|]]; try discriminate.
        destruct (st =? 201); [reflexivity | discriminate]. }
      rewrite Hrecd. split; lia.
Qed.

Lemma upgrade_level_run respond latency tok w :
  exists lvl w',
    upgrade_level respond latency tok w
    = (Ok (purchase_succeeded (respond (ncalls w)), lvl), w')
    /\ ncalls w' = S (ncalls w)
    /\ (if purchase_succeeded (respond (ncalls w))
        then lvl = purchased_level (respond (ncalls w))
             /\ final_level (user_stats w') = lvl
        else user_stats w' = user_stats w).
Proof.
  unfold upgrade_level. run_monad.
  destruct (respond (ncalls w)) as [|st [b|]]; simpl.
  - do 2 eexists. repeat split; reflexivity.
  - destruct (st =? 201); simpl.
    + destruct (Py.getitem b "level"); simpl; do 2 eexists; repeat split; reflexivity.
    + destruct (st =? 402); simpl; do 2 eexists; repeat split; reflexivity.
  - destruct (st =? 201); simpl; [|destruct (st =? 402); simpl];
      do 2 eexists; repeat split; reflexivity.
Qed.

(** The level loop with [k] successful purchases followed by a failed one,
    out of [N > k] requested: [k + 1] purchases are sent, and [final_level]
    is the level of the last successful one. *)
Lemma upgrade_level_loop_stops respond latency tok :
  forall (k N : nat) (w : world),
    (k < N)%nat ->
    (forall i, (i < k)%nat -> purchase_succeeded (respond (ncalls w + i)%nat) = true) ->
    purchase_succeeded (respond (ncalls w + k)%nat) = false ->
    let w' := snd (upgrade_level_loop respond latency N tok w) in
    ncalls w' = (ncalls w + k + 1)%nat
    /\ final_level (user_stats w')
       = match k with
         | O => final_level (user_stats w)
         | S j => purchased_level (respond (ncalls w + j)%nat)
         end.
Proof.
  induction k as [|k IH]; intros N w HN Hok Hfail w'; subst w';
    (destruct N as [|N]; [lia|]); simpl; run_monad;
    destruct (upgrade_level_run respond latency tok w) as (lvl & w1 & Hrun & Hn & Hlvl);
    rewrite Hrun; cbn [fst snd].
  - rewrite Nat.add_0_r in *. rewrite Hfail in *. cbn [snd].
    rewrite Hlvl, Hn. split; [lia | reflexivity].
  - assert (H0 : purchase_succeeded (respond (ncalls w)) = true).
    { specialize (Hok 0%nat). rewrite Nat.add_0_r in Hok. apply Hok. lia. }
    rewrite H0 in *. destruct Hlvl as (Hl & Hf).
    match goal with
    | |- context [upgrade_level_loop _ _ N _ ?w0] =>
        set (w2 := w0); specialize (IH N w2)
    end.
    assert (Hn2 : ncalls w2 = S (ncalls w)) by exact Hn.
    assert (Hf2 : final_level (user_stats w2) = lvl) by reflexivity.
    cbv zeta in IH. rewrite Hn2, Hf2 in IH.
    replace (S (ncalls w) + k)%nat with (ncalls w + S k)%nat in IH by lia.
    destruct IH as (Hcalls & Hfinal).
    + lia.
    + intros i Hi. replace (S (ncalls w) + i)%nat with (ncalls w + S i)%nat by lia.
      apply Hok. lia.
    + exact Hfail.
    + rewrite Hcalls, Hfinal. split; [lia|].
      destruct k as [|j].
      * rewrite Nat.add_0_r. exact Hl.
      * f_equal. f_equal. lia.
Qed.

(** With every purchase successful the level loop sends all [N]. *)
Lemma upgrade_level_loop_completes respond latency tok :
  forall (N : nat) (w : world),
    (forall i, (i < N)%nat -> purchase_succeeded (respond (ncalls w + i)%nat) = true) ->
    ncalls (snd (upgrade_level_loop respond latency N tok w)) = (ncalls w + N)%nat.
Proof.
  induction N as [|N IH]; intros w Hok.
  - simpl. lia.
  - simpl. run_monad.
    destruct (upgrade_level_run respond latency tok w) as (lvl & w1 & Hrun & Hn & _).
    rewrite Hrun. cbn [fst snd].
    assert (H0 : purchase_succeeded (respond (ncalls w)) = true).
    { specialize (Hok 0%nat). rewrite Nat.add_0_r in Hok. apply Hok. lia. }
    rewrite H0.
    match goal with
    | |- context [upgrade_level_loop _ _ N _ ?w0] =>
        set (w2 := w0); specialize (IH w2)
    end.
    assert (Hn2 : ncalls w2 = S (ncalls w)) by exact Hn.
    rewrite Hn2 in IH. rewrite IH; [lia|].
    intros i Hi. replace (S (ncalls w) + i)%nat with (ncalls w + S i)%nat by lia.
    apply Hok. lia.
Qed.

(** C7, at the input where the code departs from it.  Three damage upgrades
    are requested and the first purchase is answered 201 with a JSON body
    that has no [level]: [upgrade_tapping] has already bumped
    [damage_upgrades] when reading [result['level']] raises, so it reports
    failure, the loop stops after this one attempt, and one success stays
    recorded where the first failed attempt being the first calls for
    none. *)
Theorem purchase_counted_yet_reported_failed :
  let respond := scripted [Response 201 (Some (JObj []))] in
  let r := upgrade_tapping_loop respond no_latency 3 "token" damage_card "Damage" world0 in
  fst (upgrade_tapping respond no_latency "token" (JStr "dmg-1") "Damage" world0)
  = Ok (false, JNull)
  /\ purchase_succeeded (respond 0%nat) = false
  /\ sent (snd r) = [purchase_request "token" (JStr "dmg-1")]
  /\ damage_upgrades (user_stats (snd r)) = 1.
Proof. vm_compute. repeat split. Qed.

(** ** Pacing of the requests *)

(** C1, at an input where the code departs from it.  No call site goes
    through [rate_limited_api_call], so nothing holds a request back: with a
    service that answers each exchange in 100 ms, one account with one open
    mission sends six requests within 2.5 s, more than five in a window of
    10 s. *)
Theorem six_requests_within_ten_seconds :
  let r := process_account (scripted prompt_service) latency_100ms no_jitter 0
                           all_off "token" world0 in
  fst r = Ok tt
  /\ rev (dispatch_times (trace (snd r))) = [0; 100; 200; 2300; 2400; 2500]
  /\ calls_within 0 10000 (snd r) = 6%nat
  /\ (5 < calls_within 0 10000 (snd r))%nat.
Proof. vm_compute. repeat split. apply le_n. Qed.

(** ** Whole runs on small services *)

(** One account, one mission at 50 percent that completes and claims: the
    counter ends at 1 and each of the two mission requests is sent once. *)
Example one_open_mission_end_to_end :
  let r := process_account (scripted prompt_service) no_latency no_jitter 0
                           all_off "token" world0 in
  missions_completed (user_stats (snd r)) = 1
  /\ filter (fun q => match req_url q with
                      | MissionActivity _ | MissionReward _ => true
                      | _ => false
                      end) (sent (snd r))
     = [complete_request "token" (JStr "m1"); claim_request "token" (JStr "m1")].
Proof. vm_compute. split; reflexivity. Qed.

(** At 80 clicks of 100 the pass taps: the status fetch is followed by a
    submission of 15 clicks and nothing else. *)
Example below_threshold_the_pass_taps :
  let respond := scripted [ok_json (game_status 80 100); ok_json (game_status 95 100)] in
  let r := auto_play_iter respond no_latency no_jitter "token" (mkLoop 0 0 0) world0 in
  sent (snd r) = [submit_request "token" 0; submit_request "token" 15]
  /\ taps_performed (user_stats (snd r)) = 15.
Proof. vm_compute. split; reflexivity. Qed.

(** A failed login ends the account at once: one request, no progress
    record, no inter-account sleep. *)
Example failed_login_skips_the_account :
  let r := process_account (scripted [Response 401 None]) no_latency no_jitter 0
                           all_off "token" world0 in
  fst r = Ok tt
  /\ sent (snd r) = [login_request "token"]
  /\ now (snd r) = 0.
Proof. vm_compute. repeat split. Qed.

(** * Further properties of the module *)

(** ** Login and the account orchestrator *)

(** [login] is one exchange: it always answers, advances the clock by the
    latency of that exchange only, and leaves the progress record alone. *)
Lemma login_frame respond latency tok w :
  exists v w',
    login respond latency tok w = (Ok v, w')
    /\ ncalls w' = S (ncalls w)
    /\ now w' = now w + Z.of_nat (latency (ncalls w))
    /\ user_stats w' = user_stats w
    /\ requests_of (trace w') = login_request tok :: requests_of (trace w).
Proof.
  unfold login. run_monad.
  destruct (respond (ncalls w)) as [|st [b|]]; simpl.
  - do 2 eexists. repeat split; reflexivity.
  - destruct (400 <=? st); simpl.
    + do 2 eexists. repeat split; reflexivity.
    + destruct (Py.contains "user" b) as [[|]|]; simpl;
        try (do 2 eexists; repeat split; reflexivity).
      destruct (Py.getitem b "user") as [u|]; simpl;
        try (do 2 eexists; repeat split; reflexivity).
      destruct (Py.contains "nickname" u) as [[|]|]; simpl;
        try (do 2 eexists; repeat split; reflexivity).
      destruct (Py.getitem u "nickname"); simpl;
        do 2 eexists; repeat split; reflexivity.
  - destruct (400 <=? st); simpl; do 2 eexists; repeat split; reflexivity.
Qed.

(** X1.  An account whose login answers a falsy name (no answer, no
    nickname, an empty nickname) is dropped at once: the login is the only
    request, the progress record is untouched, and the clock moves by the
    latency of the login only, so not even the inter-account sleep runs. *)
Theorem failed_login_ends_the_account :
  forall (respond : nat -> http_result) (latency jitter : nat -> nat)
         (fuel : nat) (cfg : config) (tok : string) (w : world) (name : json),
    fst (login respond latency tok w) = Ok name ->
    Py.truthy name = false ->
    let r := process_account respond latency jitter fuel cfg tok w in
    fst r = Ok tt
    /\ sent (snd r) = (sent w ++ [login_request tok])%list
    /\ user_stats (snd r) = user_stats w
    /\ now (snd r) = now w + Z.of_nat (latency (ncalls w))
    /\ ncalls (snd r) = S (ncalls w).
Proof.
  intros respond latency jitter fuel cfg tok w name Hlogin Hfalsy r. subst r.
  destruct (login_frame respond latency tok w) as (v & w1 & Hrun & Hn & Hnow & Hs & Hreq).
  rewrite Hrun in Hlogin. simpl in Hlogin. injection Hlogin as ->.
  unfold process_account. run_monad. rewrite Hrun, Hfalsy. simpl.
  repeat split; try assumption. apply sent_snoc. exact Hreq.
Qed.

Lemma failed_login_ends_the_account_witness :
  let r := process_account (scripted [ok_json (JObj [("user", JObj [("nickname", JStr "")])])])
                           latency_100ms no_jitter 0 all_off "token" world0 in
  fst r = Ok tt /\ sent (snd r) = [login_request "token"] /\ now (snd r) = 100.
Proof.
  intros r.
  destruct (failed_login_ends_the_account
              (scripted [ok_json (JObj [("user", JObj [("nickname", JStr "")])])])
              latency_100ms no_jitter 0%nat all_off "token" world0 (JStr "")
              eq_refl eq_refl) as (Hok & Hsent & _ & Hnow & _).
  split; [exact Hok|]. split; [exact Hsent | exact Hnow].
Defined.

(** X2.  Once the login has answered a truthy name, an account that comes
    back at all comes back normally and ends with the closing log entry and
    the 10 s wait, whatever happened in its phases; an exception raised by a
    phase is logged just before. *)
Theorem account_always_ends_with_the_wait :
  forall (respond : nat -> http_result) (latency jitter : nat -> nat)
         (fuel : nat) (cfg : config) (tok : string) (w : world) (name : json),
    fst (login respond latency tok w) = Ok name ->
    Py.truthy name = true ->
    let r := process_account respond latency jitter fuel cfg tok w in
    fst r <> Diverge ->
    fst r = Ok tt
    /\ exists t,
         trace (snd r)
         = Slept 10000
           :: Logged INFO "Finished processing account. Waiting before next account..."
           :: t
         /\ forall e w1 w2,
              login respond latency tok w = (Ok name, w1) ->
              account_phases respond latency jitter fuel cfg tok
                (mkWorld (now w1) (ncalls w1) (nrandom w1) (trace w1) (new_UserStats name))
              = (Raise e, w2) ->
              t = Logged ERROR "Error processing account {username}: {e}" :: trace w2.
Proof.
  intros respond latency jitter fuel cfg tok w name Hlogin Htruthy r. subst r.
  destruct (login_frame respond latency tok w) as (v & w1 & Hrun & _).
  rewrite Hrun in Hlogin. simpl in Hlogin. injection Hlogin as ->.
  unfold process_account. run_monad. rewrite Hrun, Htruthy. cbn [negb]. cbv beta iota.
  match goal with
  | |- context [account_phases respond latency jitter fuel cfg tok ?w0] =>
      destruct (account_phases respond latency jitter fuel cfg tok w0)
        as [[[]|e|] w2] eqn:Hphases
  end; simpl; intros Hd.
  - split; [reflexivity|]. eexists. split; [reflexivity|].
    intros e w1' w2' Hl Hp. injection Hl as <-. rewrite Hphases in Hp. discriminate.
  - split; [reflexivity|]. eexists. split; [reflexivity|].
    intros e' w1' w2' Hl Hp. injection Hl as <-. rewrite Hphases in Hp.
    injection Hp as _ <-. reflexivity.
  - contradiction.
Qed.

(** A mission listing whose only entry has no [id] makes the mission runner
    raise; the account still ends with the error log, the closing log and
    the wait. *)
Lemma account_always_ends_with_the_wait_witness :
  let respond := scripted [ ok_json (JObj [("user", JObj [("nickname", JStr "bob")])]);
                            ok_json (JObj [("todayClaimed", JBool true)]);
                            ok_json (JObj [("data", JArr [JObj [("label", JStr "x")]])]) ] in
  let r := process_account respond no_latency no_jitter 0 all_off "token" world0 in
  fst r = Ok tt
  /\ exists t, trace (snd r)
               = Slept 10000
                 :: Logged INFO "Finished processing account. Waiting before next account..."
                 :: Logged ERROR "Error processing account {username}: {e}" :: t.
Proof.
  intros respond r.
  destruct (account_always_ends_with_the_wait respond no_latency no_jitter 0%nat all_off
              "token" world0 (JStr "bob") eq_refl eq_refl) as (Hok & t & Ht & Hraise).
  - vm_compute. discriminate.
  - split; [exact Hok|].
    eexists. fold r in Ht. rewrite Ht. f_equal. f_equal.
    eapply Hraise; vm_compute; reflexivity.
Defined.

(** ** The daily reward *)

(** X3.  [claim_daily] always answers, never touches the progress record,
    and posts the claim only after a today-info exchange that succeeded and
    reported the reward as not yet claimed; in every other case the
    today-info request is the only one. *)
Theorem daily_claim_needs_an_unclaimed_reward :
  forall (respond : nat -> http_result) (latency : nat -> nat) (tok : string) (w : world),
    let r := claim_daily respond latency tok w in
    fst r = Ok tt
    /\ user_stats (snd r) = user_stats w
    /\ sent (snd r)
       = (sent w ++ if daily_needs_claim (respond (ncalls w))
                    then [today_info_request tok; daily_claim_request tok]
                    else [today_info_request tok])%list.
Proof.
  intros respond latency tok w r. subst r. unfold claim_daily, sent. run_monad.
  destruct (respond (ncalls w)) as [|st [b|]]; simpl; auto.
  - destruct (400 <=? st); simpl; auto.
    destruct (Py.getitem b "todayClaimed") as [v|]; simpl; auto.
    destruct (Py.truthy v); simpl; auto.
    destruct (respond (S (ncalls w))) as [|st' b']; simpl.
    + rewrite <- app_assoc. auto.
    + destruct (400 <=? st'); simpl; rewrite <- app_assoc; auto.
  - destruct (400 <=? st); simpl; auto.
Qed.

(** ** Boosts *)

Lemma any_after_comprehension f g l ts :
  Py.comprehension f l = Val ts ->
  Py.any (fun x => match f x with
                   | Val t => Val (g t)
                   | Exc e => Exc e
                   end) l
  = Val (existsb (fun x => match f x with
                           | Val t => g t
                           | Exc _ => false
                           end) l).
Proof.
  revert ts. induction l as [|x l IH]; intros ts H; simpl in *; [reflexivity|].
  destruct (f x) as [t|e]; [|discriminate].
  destruct (Py.comprehension f l) as [ts'|e]; [|discriminate].
  destruct (g t); simpl; [reflexivity|]. eapply IH. reflexivity.
Qed.

Lemma get_active_boosts_run respond latency tok w :
  exists w',
    get_active_boosts respond latency tok w = (Ok (active_listing (respond (ncalls w))), w')
    /\ ncalls w' = S (ncalls w)
    /\ user_stats w' = user_stats w
    /\ requests_of (trace w') = active_boosts_request tok :: requests_of (trace w).
Proof.
  unfold get_active_boosts. run_monad.
  destruct (respond (ncalls w)) as [|st [b|]]; simpl.
  - eexists; repeat split; reflexivity.
  - destruct (400 <=? st); simpl.
    + eexists; repeat split; reflexivity.
    + destruct (Py.iter b) as [items|]; simpl;
        [destruct (Py.comprehension boost_modification_type items); simpl|];
        eexists; repeat split; reflexivity.
  - destruct (400 <=? st); simpl; eexists; repeat split; reflexivity.
Qed.

(** The listing [get_active_boosts] hands back can always be walked. *)
Lemma active_listing_walkable r :
  exists items ts,
    Py.iter (active_listing r) = Val items
    /\ Py.comprehension boost_modification_type items = Val ts.
Proof.
  unfold active_listing.
  destruct r as [|st [b|]]; try (exists [], []; split; reflexivity).
  destruct (400 <=? st); try (exists [], []; split; reflexivity).
  destruct (Py.iter b) as [items|] eqn:Hi; try (exists [], []; split; reflexivity).
  destruct (Py.comprehension boost_modification_type items) as [ts|] eqn:Hc;
    try (exists [], []; split; reflexivity).
  exists items, ts. split; assumption.
Qed.

(** X4.  [use_boost] first asks for the active boosts.  When a boost of the
    requested type is among them it answers [False] and buys nothing;
    otherwise it posts the purchase for the given id and answers whether the
    purchase came back with a status below 400.  It never touches the
    progress record. *)
Theorem active_boost_is_not_bought_again :
  forall (respond : nat -> http_result) (latency : nat -> nat) (tok : string)
         (boost_id boost_type : json) (w : world),
    let n := ncalls w in
    let r := use_boost respond latency tok boost_id boost_type w in
    user_stats (snd r) = user_stats w
    /\ if already_active (respond n) boost_type
       then fst r = Ok false
            /\ sent (snd r) = (sent w ++ [active_boosts_request tok])%list
       else fst r = Ok (boost_bought (respond (S n)))
            /\ sent (snd r)
               = (sent w ++ [active_boosts_request tok; buy_request tok boost_id])%list.
Proof.
  intros respond latency tok boost_id boost_type w n r. subst n r.
  destruct (get_active_boosts_run respond latency tok w) as (w1 & Hrun & Hn & Hs & Hreq).
  destruct (active_listing_walkable (respond (ncalls w))) as (items & ts & Hi & Hc).
  unfold use_boost, already_active. run_monad. rewrite Hrun, Hi. cbv beta iota.
  rewrite (any_after_comprehension boost_modification_type
             (fun t => Py.eq t boost_type) items ts Hc).
  cbv beta iota.
  destruct (existsb _ items); simpl.
  - split; [exact Hs|]. split; [reflexivity | apply sent_snoc; exact Hreq].
  - rewrite Hn.
    destruct (respond (S (ncalls w))) as [|st b]; simpl.
    + split; [exact Hs|]. split; [reflexivity|].
      apply sent_snoc2. simpl. rewrite Hreq. reflexivity.
    + destruct (400 <=? st); simpl; (split; [exact Hs|]); (split; [reflexivity|]);
        apply sent_snoc2; simpl; rewrite Hreq; reflexivity.
Qed.

Lemma next_where_first p l x :
  Py.next_where p l = Val x ->
  (x = JNull /\ Forall (fun y => p y = Val false) l)
  \/ exists pre post,
       l = (pre ++ x :: post)%list
       /\ Forall (fun y => p y = Val false) pre
       /\ p x = Val true.
Proof.
  induction l as [|y l IH]; simpl; intros H.
  - injection H as <-. left. split; [reflexivity | constructor].
  - destruct (p y) as [[|]|e] eqn:Hy; try discriminate.
    + injection H as <-. right. exists [], l. repeat split; [constructor | exact Hy].
    + destruct (IH H) as [(-> & Hall) | (pre & post & -> & Hpre & Hx)].
      * left. split; [reflexivity | constructor; assumption].
      * right. exists (y :: pre), post. repeat split; [constructor; assumption | exact Hx].
Qed.

Lemma is_refill_boost_true b :
  is_refill_boost b = Val true ->
  Py.getitem b "type" = Val (JStr "REFILL_ENERGY")
  /\ exists a n, Py.getitem b "available" = Val a /\ Py.num a = Val n /\ 0 < n.
Proof.
  unfold is_refill_boost.
  destruct (Py.getitem b "type") as [t|]; [|discriminate].
  destruct (Py.eq t (JStr "REFILL_ENERGY")) eqn:Ht; [|discriminate].
  apply eq_string_literal in Ht. subst t.
  destruct (Py.getitem b "available") as [a|]; [|discriminate].
  destruct (Py.num a) as [n|] eqn:Hn; [|discriminate].
  intros H. injection H as H. apply Z.ltb_lt in H.
  split; [reflexivity|]. exists a, n. auto.
Qed.

(** X5.  What [get_refill_boost] picks from a listing that can be walked
    without error: either nothing, and then no entry of the listing is a
    refill with [available > 0]; or an entry of the listing of type
    [REFILL_ENERGY] with [available > 0] before which no such entry occurs.
    So the purchase of [use_refill_boost] is only ever made for the first
    usable refill on offer. *)
Theorem refill_choice_is_the_first_usable_refill :
  forall (r : http_result) (items : list json) (b : json),
    Py.iter (boosts_listing r) = Val items ->
    refill_choice r = Val b ->
    (Py.truthy b = false
     /\ Forall (fun x => is_refill_boost x = Val false) items)
    \/ (Py.truthy b = true
        /\ Py.getitem b "type" = Val (JStr "REFILL_ENERGY")
        /\ (exists a n, Py.getitem b "available" = Val a /\ Py.num a = Val n /\ 0 < n)
        /\ exists pre post,
             items = (pre ++ b :: post)%list
             /\ Forall (fun x => is_refill_boost x = Val false) pre).
Proof.
  intros r items b Hi Hc. unfold refill_choice in Hc. rewrite Hi in Hc.
  destruct (next_where_first _ _ _ Hc) as [(-> & Hall) | (pre & post & -> & Hpre & Hb)].
  - left. split; [reflexivity | exact Hall].
  - right. destruct (is_refill_boost_true b Hb) as (Hty & Hav).
    split.
    { unfold Py.getitem in Hty. destruct b; try discriminate.
      destruct fields; [discriminate | reflexivity]. }
    split; [exact Hty|]. split; [exact Hav|].
    exists pre, post. split; [reflexivity | exact Hpre].
Qed.

(** Among a shield, a spent refill and two usable refills, the first usable
    one is picked. *)
Lemma refill_choice_is_the_first_usable_refill_witness :
  let r := ok_json (JObj [("data", JArr mixed_boosts)]) in
  refill_choice r
  = Val (JObj [("id", JStr "fresh"); ("type", JStr "REFILL_ENERGY"); ("available", JNum 1)])
  /\ exists a n,
       Py.getitem (JObj [("id", JStr "fresh"); ("type", JStr "REFILL_ENERGY");
                         ("available", JNum 1)]) "available" = Val a
       /\ Py.num a = Val n /\ 0 < n.
Proof.
  intros r. split; [reflexivity|].
  destruct (refill_choice_is_the_first_usable_refill r mixed_boosts
              (JObj [("id", JStr "fresh"); ("type", JStr "REFILL_ENERGY");
                     ("available", JNum 1)]) eq_refl eq_refl)
    as [(Hf & _) | (_ & _ & Hav & _)].
  - discriminate Hf.
  - exact Hav.
Defined.

(** X6.  [use_available_boosts] leaves alone every boost whose [available]
    is not positive: on a listing made of such boosts only, the listing
    request is the only request, nothing is slept, and the progress record
    is untouched. *)
Theorem unavailable_boosts_are_skipped :
  forall (respond : nat -> http_result) (latency : nat -> nat) (tok : string)
         (w : world) (items : list json),
    Py.iter (boosts_listing (respond (ncalls w))) = Val items ->
    Forall (fun b => exists a n,
                Py.getitem b "available" = Val a /\ Py.num a = Val n /\ n <= 0) items ->
    let r := use_available_boosts respond latency tok w in
    fst r = Ok tt
    /\ sent (snd r) = (sent w ++ [boosts_request tok])%list
    /\ now (snd r) = now w + Z.of_nat (latency (ncalls w))
    /\ user_stats (snd r) = user_stats w.
Proof.
  intros respond latency tok w items Hi Hall r. subst r.
  assert (Hrun : exists w1,
             get_boosts respond latency tok w
             = (Ok (boosts_listing (respond (ncalls w))), w1)
             /\ now w1 = now w + Z.of_nat (latency (ncalls w))
             /\ user_stats w1 = user_stats w
             /\ requests_of (trace w1) = boosts_request tok :: requests_of (trace w)).
  { unfold get_boosts. run_monad.
    destruct (respond (ncalls w)) as [|st [b|]]; simpl.
    - eexists; repeat split; reflexivity.
    - destruct (400 <=? st); simpl.
      + eexists; repeat split; reflexivity.
      + destruct (Py.getitem b "data"); simpl; eexists; repeat split; reflexivity.
    - destruct (400 <=? st); simpl; eexists; repeat split; reflexivity. }
  destruct Hrun as (w1 & Hrun & Hnow & Hs & Hreq).
  assert (Hloop : for_each items (use_available_boost respond latency tok) w1 = (Ok tt, w1)).
  { clear Hi. induction Hall as [|b items (a & n & Ha & Hn & Hle) _ IH]; simpl;
      [reflexivity|].
    assert (Hone : use_available_boost respond latency tok b w1 = (Ok tt, w1)).
    { unfold use_available_boost. run_monad. rewrite Ha. simpl. rewrite Hn. simpl.
      destruct (Z.ltb_spec 0 n); [lia | reflexivity]. }
    unfold bind. rewrite Hone. exact IH. }
  assert (Heq : use_available_boosts respond latency tok w = (Ok tt, w1)).
  { unfold use_available_boosts. run_monad. rewrite Hrun, Hi. exact Hloop. }
  rewrite Heq. simpl. repeat split; try assumption. apply sent_snoc. exact Hreq.
Qed.

Lemma unavailable_boosts_are_skipped_witness :
  let respond := scripted [ok_json (JObj [("data", JArr [JObj [("id", JStr "spent");
                                                            ("type", JStr "REFILL_ENERGY");
                                                            ("available", JNum 0)]])])] in
  let r := use_available_boosts respond latency_100ms "token" world0 in
  fst r = Ok tt /\ sent (snd r) = [boosts_request "token"] /\ now (snd r) = 100.
Proof.
  intros respond r.
  destruct (unavailable_boosts_are_skipped respond latency_100ms "token" world0
              [JObj [("id", JStr "spent"); ("type", JStr "REFILL_ENERGY");
                     ("available", JNum 0)]] eq_refl)
    as (Hok & Hsent & Hnow & _).
  - constructor; [|constructor]. exists (JNum 0), 0. repeat split. lia.
  - split; [exact Hok|]. split; [exact Hsent | exact Hnow].
Defined.

(** ** Pacing and malformed answers inside the loop *)



(** X8.  A status dict that lacks one of its two fields makes the pass raise
    [KeyError], and one that carries a non-number in a field makes it raise
    [TypeError], in both cases before anything is sent, slept or changed. *)
Theorem malformed_status_raises_before_anything_is_sent :
  forall (respond : nat -> http_result) (latency jitter : nat -> nat) (tok : string)
         (ls : loop_state) (kv : list (string * json)) (w : world),
    (Py.lookup "currentClickedCount" kv = None \/ Py.lookup "totalClicksLimit" kv = None ->
     after_status respond latency jitter tok ls (JObj kv) w = (Raise KeyError, w))
    /\ (forall cj lj,
          Py.lookup "currentClickedCount" kv = Some cj ->
          Py.lookup "totalClicksLimit" kv = Some lj ->
          Py.num cj = Exc TypeError \/ Py.num lj = Exc TypeError ->
          after_status respond latency jitter tok ls (JObj kv) w = (Raise TypeError, w)).
Proof.
  intros respond latency jitter tok ls kv w. split.
  - intros H. unfold after_status, Py.getitem. run_monad.
    destruct (Py.lookup "currentClickedCount" kv) as [cj|]; simpl; [|reflexivity].
    destruct H as [H|H]; [discriminate|]. rewrite H. reflexivity.
  - intros cj lj Hc Hl H. unfold after_status, Py.getitem. run_monad.
    rewrite Hc, Hl. simpl.
    destruct (Py.num lj) as [l|e] eqn:Hln; simpl.
    + destruct H as [H|H]; [|discriminate]. rewrite H. reflexivity.
    + destruct lj; simpl in Hln; try discriminate; injection Hln as <-; reflexivity.
Qed.

Lemma malformed_status_raises_before_anything_is_sent_witness :
  after_status (scripted []) no_latency no_jitter "token" (mkLoop 0 0 0)
               (JObj [("currentClickedCount", JNum 3)]) world0
  = (Raise KeyError, world0)
  /\ after_status (scripted []) no_latency no_jitter "token" (mkLoop 0 0 0)
                  (JObj [("currentClickedCount", JNum 3); ("totalClicksLimit", JStr "100")])
                  world0
     = (Raise TypeError, world0).
Proof.
  destruct (malformed_status_raises_before_anything_is_sent (scripted []) no_latency no_jitter
              "token" (mkLoop 0 0 0) [("currentClickedCount", JNum 3)] world0) as (Hk & _).
  destruct (malformed_status_raises_before_anything_is_sent (scripted []) no_latency no_jitter
              "token" (mkLoop 0 0 0)
              [("currentClickedCount", JNum 3); ("totalClicksLimit", JStr "100")] world0)
    as (_ & Ht).
  split.
  - apply Hk. right. reflexivity.
  - apply (Ht (JNum 3) (JStr "100") eq_refl eq_refl). right. reflexivity.
Defined.

(** ** Reading the credential file *)

Lemma append_String c a b : (String c a ++ b)%string = String c (a ++ b)%string.
Proof. reflexivity. Qed.


(** Every line of [readlines] is non-empty and holds a line feed at most as
    its last character. *)
Lemma readlines_lines text :
  Forall (fun line =>
            exists body,
              ~ In Py.newline body
              /\ (chars line = (body ++ [Py.newline])%list
                  \/ (chars line = body /\ body <> [])))
         (Py.readlines text).
Proof.
  induction text as [|c rest IH]; simpl; [constructor|].
  destruct (Ascii.eqb_spec c Py.newline) as [->|Hc].
  - constructor; [|exact IH].
    exists []. split; [intros []|]. left. reflexivity.
  - destruct (Py.readlines rest) as [|l ls].
    + constructor; [|constructor].
      exists [c]. split.
      * intros [H|[]]. congruence.
      * right. split; [reflexivity | discriminate].
    + inversion IH as [|? ? (body & Hbody & Hl) Hls]; subst.
      constructor; [|exact Hls].
      exists (c :: body). split.
      * intros [H|H]; [congruence | contradiction].
      * unfold chars in *. simpl. destruct Hl as [Hl|[Hl Hne]].
        { left. rewrite Hl. reflexivity. }
        { right. rewrite Hl. split; [reflexivity | discriminate]. }
Qed.

Lemma lstrip_chars_split l :
  exists pre,
    l = (pre ++ Py.lstrip_chars l)%list
    /\ Forall (fun c => Py.isspace c = true) pre
    /\ match Py.lstrip_chars l with
       | [] => True
       | c :: _ => Py.isspace c = false
       end.
Proof.
  induction l as [|c l (pre & Hl & Hpre & Hhead)]; simpl.
  - exists []. repeat split; constructor.
  - destruct (Py.isspace c) eqn:Hc.
    + exists (c :: pre). split; [simpl; f_equal; exact Hl|].
      split; [constructor; assumption | exact Hhead].
    + exists []. split; [reflexivity|]. split; [constructor | exact Hc].
Qed.

Lemma chars_strip s :
  chars (Py.strip s) = rev (Py.lstrip_chars (rev (Py.lstrip_chars (chars s)))).
Proof. unfold chars, Py.strip. apply list_ascii_of_string_of_list_ascii. Qed.

(** X10.  [strip] takes whitespace off the two ends and nothing else: the
    string is a run of whitespace, the stripped string, and a run of
    whitespace, and the stripped string neither starts nor ends with a
    whitespace character. *)
Theorem strip_trims_the_ends_only :
  forall s : string,
    exists pre post,
      chars s = (pre ++ chars (Py.strip s) ++ post)%list
      /\ Forall (fun c => Py.isspace c = true) pre
      /\ Forall (fun c => Py.isspace c = true) post
      /\ (forall c rest, chars (Py.strip s) = c :: rest -> Py.isspace c = false)
      /\ (forall c init, chars (Py.strip s) = (init ++ [c])%list -> Py.isspace c = false).
Proof.
  intros s. rewrite chars_strip.
  destruct (lstrip_chars_split (chars s)) as (pre & Hl & Hpre & Hhead).
  set (X := Py.lstrip_chars (chars s)) in *.
  destruct (lstrip_chars_split (rev X)) as (tail & Hr & Htail & Hlast).
  set (Y := Py.lstrip_chars (rev X)) in *.
  assert (HX : X = (rev Y ++ rev tail)%list).
  { rewrite <- (rev_involutive X), Hr, rev_app_distr. reflexivity. }
  exists pre, (rev tail). split; [rewrite Hl at 1; rewrite HX; reflexivity|].
  split; [exact Hpre|].
  split; [apply Forall_rev; exact Htail|].
  split.
  - intros c rest Hc. rewrite HX, Hc in Hhead. exact Hhead.
  - intros c init Hc.
    assert (HY : Y = c :: rev init).
    { rewrite <- (rev_involutive Y), Hc, rev_app_distr. reflexivity. }
    rewrite HY in Hlast. exact Hlast.
Qed.

(** A token padded with spaces and a tab comes out bare. *)
Lemma strip_trims_the_ends_only_witness :
  Py.strip ("  tok en" ++ String (ascii_of_nat 9) " ") = "tok en"
  /\ Py.isspace "t"%char = false
  /\ Py.isspace "n"%char = false.
Proof.
  destruct (strip_trims_the_ends_only ("  tok en" ++ String (ascii_of_nat 9) " "))
    as (pre & post & _ & _ & _ & Hfirst & Hlast).
  split; [reflexivity|]. split.
  - apply (Hfirst "t"%char (chars "ok en")). reflexivity.
  - apply (Hlast "n"%char (chars "tok e")). reflexivity.
Defined.

Lemma last_occurrence (x : ascii) l1 l2 body :
  (l1 ++ x :: l2)%list = (body ++ [x])%list -> ~ In x body -> l2 = [].
Proof.
  revert body. induction l1 as [|a l1 IH]; intros body H Hx; simpl in H.
  - destruct body as [|y body]; simpl in H.
    + injection H as <-. reflexivity.
    + injection H as <- _. exfalso. apply Hx. left. reflexivity.
  - destruct body as [|y body]; simpl in H.
    + injection H as _ H. destruct l1; discriminate.
    + injection H as _ H. apply (IH body H). intros Hin. apply Hx. right. exact Hin.
Qed.

(** X11.  No token handed to [process_account] holds a line feed: for every
    line [readlines] yields, the stripped line is free of it. *)
Theorem tokens_hold_no_line_feed :
  forall (text line : string),
    In line (Py.readlines text) ->
    ~ In Py.newline (chars (Py.strip line)).
Proof.
  intros text line Hin Hnl.
  pose proof (readlines_lines text) as Hlines.
  rewrite Forall_forall in Hlines. destruct (Hlines line Hin) as (body & Hbody & Hshape).
  destruct (strip_trims_the_ends_only line) as (pre & post & Hs & _ & _ & _ & Hlast).
  apply in_split in Hnl. destruct Hnl as (s1 & s2 & Hsplit).
  rewrite Hsplit in Hs.
  destruct Hshape as [Hl|[Hl _]].
  - rewrite Hl in Hs.
    assert (Hend : (s2 ++ post)%list = []).
    { apply (last_occurrence Py.newline (pre ++ s1) (s2 ++ post) body); [|exact Hbody].
      rewrite Hs, <- !app_assoc. reflexivity. }
    apply app_eq_nil in Hend. destruct Hend as [-> _].
    specialize (Hlast Py.newline s1 Hsplit). discriminate Hlast.
  - apply Hbody. rewrite <- Hl, Hs. apply in_or_app. right.
    apply in_or_app. left. apply in_or_app. right. left. reflexivity.
Qed.

Lemma tokens_hold_no_line_feed_witness :
  ~ In Py.newline (chars (Py.strip ("  tokB " ++ String Py.newline ""))).
Proof.
  apply (tokens_hold_no_line_feed (unlines ["tokA"; "  tokB "])
                                  ("  tokB " ++ String Py.newline "")).
  vm_compute. right. left. reflexivity.
Defined.

(** ** The loop against a service that goes away *)

Section LoopEnds.

Variable respond : nat -> http_result.
Variable latency : nat -> nat.
Variable jitter : nat -> nat.

Lemma terminates_use_boost tok i ty : terminates (use_boost respond latency tok i ty).
Proof.
  unfold use_boost. pose proof (terminates_get_active_boosts respond latency).
  terminates_tac; auto.
Qed.

Lemma terminates_use_refill_boost tok : terminates (use_refill_boost respond latency tok).
Proof.
  unfold use_refill_boost, get_refill_boost.
  pose proof (terminates_get_boosts respond latency).
  terminates_tac; auto.
Qed.

Lemma terminates_use_available_boosts tok :
  terminates (use_available_boosts respond latency tok).
Proof.
  unfold use_available_boosts, use_available_boost.
  pose proof (terminates_get_boosts respond latency). pose proof terminates_use_boost.
  terminates_tac; auto.
Qed.

Lemma terminates_auto_play_iter tok ls :
  terminates (auto_play_iter respond latency jitter tok ls).
Proof.
  unfold auto_play_iter, boost_check, after_status, on_status_failure, refill_branch,
    freeze_branch, after_tap.
  pose proof terminates_use_available_boosts.
  pose proof (terminates_get_game_status respond latency).
  pose proof terminates_use_refill_boost.
  pose proof (terminates_freeze_game respond latency).
  pose proof (terminates_perform_tapping respond latency).
  terminates_tac; auto.
Qed.

Lemma calls_grow_refl w : calls_grow w w.
Proof. unfold calls_grow. lia. Qed.

Lemma calls_grow_trans a b c : calls_grow a b -> calls_grow b c -> calls_grow a c.
Proof. unfold calls_grow. lia. Qed.

Ltac calls_frame :=
  first [ apply calls_grow_refl | apply calls_grow_trans
        | exact I | intros; exact I
        | intros; intros ?; unfold calls_grow, send; simpl;
          try match goal with |- context [respond ?n] => destruct (respond n) end;
          simpl; lia ].

Lemma calls_boost_check tok last : steps calls_grow (boost_check respond latency tok last).
Proof. apply steps_boost_check; calls_frame. Qed.

Lemma calls_after_status tok ls status :
  steps calls_grow (after_status respond latency jitter tok ls status).
Proof. apply steps_after_status with (okf := fun _ => True); calls_frame. Qed.

(** Every pass that goes on has used up at least one exchange: the status
    fetch. *)
Lemma pass_consumes_an_exchange tok ls w s :
  fst (auto_play_iter respond latency jitter tok ls w) = Ok (Continue s) ->
  (ncalls w < ncalls (snd (auto_play_iter respond latency jitter tok ls w)))%nat.
Proof.
  unfold auto_play_iter. unfold bind at 1 3.
  pose proof (calls_boost_check tok (last_boost_check ls) w) as Hb.
  destruct (boost_check respond latency tok (last_boost_check ls) w) as [[last|e|] w1];
    simpl in Hb |- *; try discriminate.
  unfold bind at 1 2.
  destruct (get_game_status_run respond latency tok w1) as (w2 & Hrun & Hn & _).
  rewrite Hrun. intros _.
  match goal with
  | |- context [after_status respond latency jitter tok ?l ?st w2] =>
      pose proof (calls_after_status tok l st w2) as Ha
  end.
  unfold calls_grow in *. lia.
Qed.

Lemma scripted_offline script n :
  (List.length script <= n)%nat -> exchange_failed (scripted script n) = true.
Proof.
  intros H. unfold scripted. rewrite nth_overflow by exact H. reflexivity.
Qed.

Lemma loop_ends_within_budget tok (L : nat) :
  (forall n, (L <= n)%nat -> exchange_failed (respond n) = true) ->
  forall (m fuel : nat) (ls : loop_state) (w : world),
    0 <= consecutive_failures ls < max_consecutive_failures ->
    (L <= ncalls w + m)%nat ->
    (m + 5 <= fuel)%nat ->
    fst (auto_play_loop respond latency jitter fuel tok ls w) <> Diverge.
Proof.
  intros Hoff. induction m as [|m IH]; intros fuel ls w Hcf HL Hfuel.
  - destruct (loop_gives_up_offline respond latency jitter tok
                (Z.to_nat (max_consecutive_failures - consecutive_failures ls)) fuel ls w)
      as (w' & Hloop & _).
    + unfold max_consecutive_failures in *. lia.
    + unfold max_consecutive_failures in *. lia.
    + unfold max_consecutive_failures in *. lia.
    + intros n Hn. apply Hoff. lia.
    + rewrite Hloop. discriminate.
  - destruct fuel as [|fuel]; [lia|]. simpl. unfold bind.
    pose proof (terminates_auto_play_iter tok ls w) as Hterm.
    pose proof (pass_counter respond latency jitter tok ls w) as Hcount.
    pose proof (pass_consumes_an_exchange tok ls w) as Hcalls.
    destruct (auto_play_iter respond latency jitter tok ls w) as [[[ls'|r]|e|] w'];
      simpl in *; try discriminate.
    + apply IH.
      * specialize (Hcount ls' eq_refl). lia.
      * specialize (Hcalls ls' eq_refl). lia.
      * lia.
    + contradiction.
Qed.

End LoopEnds.

(** X12.  Against a service that is gone from its [L]-th exchange on (no
    connection, an error status or a body that is not JSON, for good),
    [auto_play_game] comes back within [L + 5] passes: each pass that goes on
    uses up at least one exchange, and once the service is gone five more
    passes bring the failure counter to its maximum. *)
Theorem auto_play_ends_once_the_service_is_gone :
  forall (respond : nat -> http_result) (latency jitter : nat -> nat)
         (L fuel : nat) (tok : string) (w : world),
    (forall n, (L <= n)%nat -> exchange_failed (respond n) = true) ->
    (L + 5 <= fuel)%nat ->
    fst (auto_play_game respond latency jitter fuel tok w) <> Diverge.
Proof.
  intros respond latency jitter L fuel tok w Hoff Hfuel.
  unfold auto_play_game, time_time. unfold bind.
  apply (loop_ends_within_budget respond latency jitter tok L Hoff L).
  - simpl. unfold max_consecutive_failures. lia.
  - simpl. lia.
  - exact Hfuel.
Qed.

(** Two good answers, then nothing: seven passes are enough, and the loop
    ends as Stopped-Failure. *)
Lemma auto_play_ends_once_the_service_is_gone_witness :
  let respond := scripted [ok_json (game_status 10 100); ok_json (game_status 25 100)] in
  fst (auto_play_game respond no_latency no_jitter 7 "token" world0) <> Diverge
  /\ fst (auto_play_game respond no_latency no_jitter 7 "token" world0) = Ok StoppedFailure.
Proof.
  intros respond. split; [|reflexivity].
  apply (auto_play_ends_once_the_service_is_gone respond no_latency no_jitter 2 7
           "token" world0).
  - intros n Hn. apply scripted_offline. exact Hn.
  - lia.
Defined.

(** ** Bounds on what an account records *)

Lemma get_campaign_missions_run respond latency tok c w :
  exists w',
    get_campaign_missions respond latency tok c w
    = (Ok (missions_listing (respond (ncalls w))), w')
    /\ ncalls w' = S (ncalls w)
    /\ user_stats w' = user_stats w.
Proof.
  unfold get_campaign_missions. run_monad.
  destruct (respond (ncalls w)) as [|st [b|]]; simpl.
  - eexists; repeat split; reflexivity.
  - destruct (400 <=? st); simpl.
    + eexists; repeat split; reflexivity.
    + destruct (Py.getitem b "data") as [d|]; simpl;
        [destruct (Py.len d); simpl|]; eexists; repeat split; reflexivity.
  - destruct (400 <=? st); simpl; eexists; repeat split; reflexivity.
Qed.

Lemma missions_listing_iterable r : exists items, Py.iter (missions_listing r) = Val items.
Proof.
  unfold missions_listing.
  destruct r as [|st [b|]]; try (exists []; reflexivity).
  destruct (400 <=? st); try (exists []; reflexivity).
  destruct (Py.getitem b "data") as [d|]; try (exists []; reflexivity).
  destruct d; simpl; eauto.
Qed.

(** One mission moves [missions_completed] by 0 or by 1, whatever it is. *)
Lemma process_mission_bound respond latency tok mission w :
  let w' := snd (process_mission respond latency tok mission w) in
  missions_completed (user_stats w) <= missions_completed (user_stats w')
  <= missions_completed (user_stats w) + 1.
Proof.
  intros w'. subst w'. unfold process_mission. run_monad.
  destruct (Py.getitem mission "id") as [mid|]; [|simpl; lia].
  destruct (Py.getitem mission "label") as [label|]; [|simpl; lia].
  destruct (Py.getitem mission "completedPercent") as [pct|]; [|simpl; lia].
  cbv beta iota.
  destruct (negb (Py.eq pct (JStr "100"))); [|simpl; lia].
  match goal with
  | |- context [complete_mission respond latency tok mid label ?w1] =>
      destruct (complete_mission_run respond latency tok mid label w1)
        as (w2 & Hrun & _ & Hs2 & _);
      rewrite Hrun
  end.
  simpl in Hs2.
  destruct (complete_succeeded _); cbv beta iota; [|simpl; rewrite Hs2; lia].
  destruct (claim_mission_reward_run respond latency tok mid label w2)
    as (w3 & Hrun3 & _ & Hs3 & _).
  rewrite Hrun3.
  destruct (claim_succeeded _); simpl; rewrite Hs3, Hs2; simpl; lia.
Qed.

Lemma process_mission_list_bound respond latency tok items :
  forall w,
    let w' := snd (for_each items (process_mission respond latency tok) w) in
    missions_completed (user_stats w) <= missions_completed (user_stats w')
    <= missions_completed (user_stats w) + Z.of_nat (List.length items).
Proof.
  induction items as [|m items IH]; intros w; cbv zeta.
  - simpl. lia.
  - simpl for_each. unfold bind.
    pose proof (process_mission_bound respond latency tok m w) as Hone. cbv zeta in Hone.
    destruct (process_mission respond latency tok m w) as [[[]|e|] w1]; simpl in Hone.
    + specialize (IH w1). cbv zeta in IH. simpl List.length. lia.
    + simpl. lia.
    + simpl. lia.
Qed.

(** X13.  The mission listing [get_campaign_missions] hands back can always
    be iterated, and [process_missions] raises [missions_completed] by at
    most one per entry of it, never lowering it: with an empty or failed
    listing the counter stays. *)
Theorem missions_completed_is_bounded_by_the_listing :
  forall (respond : nat -> http_result) (latency : nat -> nat) (tok c : string) (w : world),
    exists items,
      Py.iter (missions_listing (respond (ncalls w))) = Val items
      /\ let w' := snd (process_missions respond latency tok c w) in
         missions_completed (user_stats w) <= missions_completed (user_stats w')
         <= missions_completed (user_stats w) + Z.of_nat (List.length items).
Proof.
  intros respond latency tok c w.
  destruct (missions_listing_iterable (respond (ncalls w))) as (items & Hi).
  exists items. split; [exact Hi|]. cbv zeta.
  destruct (get_campaign_missions_run respond latency tok c w) as (w1 & Hrun & _ & Hs).
  assert (Heq : process_missions respond latency tok c w
                = for_each items (process_mission respond latency tok) w1).
  { unfold process_missions. run_monad. rewrite Hrun, Hi. reflexivity. }
  rewrite Heq.
  pose proof (process_mission_list_bound respond latency tok items w1) as Hb.
  cbv zeta in Hb. rewrite Hs in Hb. exact Hb.
Qed.

Lemma within_refl w : within 0 0 0 w w.
Proof. unfold within. lia. Qed.

Lemma within_trans a d l a' d' l' w1 w2 w3 :
  within a d l w1 w2 -> within a' d' l' w2 w3 -> within (a + a') (d + d') (l + l') w1 w3.
Proof. unfold within. lia. Qed.

Lemma within_weaken a d l a' d' l' w w' :
  within a d l w w' -> (a <= a')%nat -> d <= d' -> l <= l' -> within a' d' l' w w'.
Proof. unfold within. lia. Qed.

Section UpgradeBounds.

Variable respond : nat -> http_result.
Variable latency : nat -> nat.

Lemma upgrade_tapping_damage_within tok uid w :
  within 1 1 0 w (snd (upgrade_tapping respond latency tok uid "Damage" w)).
Proof.
  unfold upgrade_tapping, within. run_monad.
  destruct (respond (ncalls w)) as [|st [b|]]; simpl; try lia.
  - destruct (st =? 201); simpl.
    + destruct (Py.getitem b "level"); simpl; lia.
    + destruct (st =? 402); simpl; lia.
  - destruct (st =? 201); simpl; [|destruct (st =? 402); simpl]; lia.
Qed.

Lemma upgrade_tapping_limit_within tok uid w :
  within 1 0 1 w (snd (upgrade_tapping respond latency tok uid "Limit energy" w)).
Proof.
  unfold upgrade_tapping, within. run_monad.
  destruct (respond (ncalls w)) as [|st [b|]]; simpl; try lia.
  - destruct (st =? 201); simpl.
    + destruct (Py.getitem b "level"); simpl; lia.
    + destruct (st =? 402); simpl; lia.
  - destruct (st =? 201); simpl; [|destruct (st =? 402); simpl]; lia.
Qed.

Lemma upgrade_level_within tok w :
  within 1 0 0 w (snd (upgrade_level respond latency tok w)).
Proof.
  unfold upgrade_level, within. run_monad.
  destruct (respond (ncalls w)) as [|st [b|]]; simpl; try lia.
  - destruct (st =? 201); simpl.
    + destruct (Py.getitem b "level"); simpl; lia.
    + destruct (st =? 402); simpl; lia.
  - destruct (st =? 201); simpl; [|destruct (st =? 402); simpl]; lia.
Qed.

Lemma damage_loop_within tok upgrade :
  forall N w,
    within N (Z.of_nat N) 0 w
           (snd (upgrade_tapping_loop respond latency N tok upgrade "Damage" w)).
Proof.
  induction N as [|N IH]; intros w; [apply within_refl|].
  simpl upgrade_tapping_loop. run_monad.
  destruct (Py.getitem upgrade "id") as [uid|];
    [|cbn [fst snd]; eapply within_weaken; [apply within_refl | lia..]].
  cbv beta iota.
  pose proof (upgrade_tapping_damage_within tok uid w) as H1.
  destruct (upgrade_tapping respond latency tok uid "Damage" w)
    as [[[ok lvl]|e|] w1];
    cbn [fst snd] in H1 |- *;
    try (eapply within_weaken; [exact H1 | lia..]).
  destruct ok; cbn [negb fst snd].
  - match goal with
    | |- context [upgrade_tapping_loop _ _ N _ _ _ ?w0] =>
        pose proof (IH w0) as H2;
        assert (H1' : within 1 1 0 w w0) by (unfold within in *; simpl; exact H1)
    end.
    pose proof (within_trans _ _ _ _ _ _ _ _ _ H1' H2) as H3.
    eapply within_weaken; [exact H3 | lia..].
  - eapply within_weaken; [exact H1 | lia..].
Qed.

Lemma limit_loop_within tok upgrade :
  forall N w,
    within N 0 (Z.of_nat N) w
           (snd (upgrade_tapping_loop respond latency N tok upgrade "Limit energy" w)).
Proof.
  induction N as [|N IH]; intros w; [apply within_refl|].
  simpl upgrade_tapping_loop. run_monad.
  destruct (Py.getitem upgrade "id") as [uid|];
    [|cbn [fst snd]; eapply within_weaken; [apply within_refl | lia..]].
  cbv beta iota.
  pose proof (upgrade_tapping_limit_within tok uid w) as H1.
  destruct (upgrade_tapping respond latency tok uid "Limit energy" w)
    as [[[ok lvl]|e|] w1];
    cbn [fst snd] in H1 |- *;
    try (eapply within_weaken; [exact H1 | lia..]).
  destruct ok; cbn [negb fst snd].
  - match goal with
    | |- context [upgrade_tapping_loop _ _ N _ _ _ ?w0] =>
        pose proof (IH w0) as H2;
        assert (H1' : within 1 0 1 w w0) by (unfold within in *; simpl; exact H1)
    end.
    pose proof (within_trans _ _ _ _ _ _ _ _ _ H1' H2) as H3.
    eapply within_weaken; [exact H3 | lia..].
  - eapply within_weaken; [exact H1 | lia..].
Qed.

Lemma level_loop_within tok :
  forall N w,
    within N 0 0 w (snd (upgrade_level_loop respond latency N tok w)).
Proof.
  induction N as [|N IH]; intros w; [apply within_refl|].
  simpl upgrade_level_loop. run_monad.
  pose proof (upgrade_level_within tok w) as H1.
  destruct (upgrade_level respond latency tok w)
    as [[[ok lvl]|e|] w1];
    cbn [fst snd] in H1 |- *;
    try (eapply within_weaken; [exact H1 | lia..]).
  destruct ok; cbn [negb fst snd].
  - match goal with
    | |- context [upgrade_level_loop _ _ N _ ?w0] =>
        pose proof (IH w0) as H2;
        assert (H1' : within 1 0 0 w w0) by (unfold within in *; simpl; exact H1)
    end.
    pose proof (within_trans _ _ _ _ _ _ _ _ _ H1' H2) as H3.
    eapply within_weaken; [exact H3 | lia..].
  - eapply within_weaken; [exact H1 | lia..].
Qed.

Lemma get_tapping_upgrades_within tok w :
  within 1 0 0 w (snd (get_tapping_upgrades respond latency tok w)).
Proof.
  unfold get_tapping_upgrades, within. run_monad.
  destruct (respond (ncalls w)) as [|st [b|]]; simpl; try lia.
  - destruct (400 <=? st); simpl; [lia|].
    destruct (Py.getitem b "data"); simpl; lia.
  - destruct (400 <=? st); simpl; lia.
Qed.

Lemma get_levels_within tok w :
  within 1 0 0 w (snd (get_levels respond latency tok w)).
Proof.
  unfold get_levels, within. run_monad.
  destruct (respond (ncalls w)) as [|st [b|]]; simpl; try lia;
    destruct (400 <=? st); simpl; lia.
Qed.

Lemma tapping_phase_within cfg tok w :
  within (1 + Z.to_nat (damage_upgrade_count cfg) + Z.to_nat (limit_upgrade_count cfg))
         (Z.max 0 (damage_upgrade_count cfg)) (Z.max 0 (limit_upgrade_count cfg))
         w (snd (tapping_phase respond latency cfg tok w)).
Proof.
  unfold tapping_phase.
  destruct (String.eqb (Py.lower (auto_upgrade_tapping cfg)) "y");
    [|unfold within; simpl; lia].
  run_monad.
  pose proof (get_tapping_upgrades_within tok w) as H0.
  destruct (get_tapping_upgrades respond latency tok w) as [[upgrades|e|] w1];
    cbn [fst snd] in H0 |- *; try (unfold within in *; lia).
  destruct (Py.truthy upgrades); cbn [fst snd]; [|unfold within in *; lia].
  destruct (Py.iter upgrades) as [items|]; cbn [fst snd]; [|unfold within in *; lia].
  destruct (Py.next_where (has_boost_type "CLICKER_DAMAGE") items) as [damage|];
    cbn [fst snd]; [|unfold within in *; lia].
  destruct (Py.next_where (has_boost_type "CLICKER_ENERGY") items) as [limit|];
    cbn [fst snd]; [|unfold within in *; lia].
  assert (Hd : exists o w2,
             (if Py.truthy damage
              then upgrade_tapping_loop respond latency
                     (Z.to_nat (damage_upgrade_count cfg)) tok damage "Damage"
              else fun w0 => (Ok tt, w0)) w1 = (o, w2)
             /\ within (Z.to_nat (damage_upgrade_count cfg))
                       (Z.max 0 (damage_upgrade_count cfg)) 0 w1 w2).
  { destruct (Py.truthy damage).
    - pose proof (damage_loop_within tok damage
                    (Z.to_nat (damage_upgrade_count cfg)) w1) as H.
      destruct (upgrade_tapping_loop respond latency _ tok damage "Damage" w1) as [o w2].
      exists o, w2. split; [reflexivity|]. simpl in H. unfold within in *. lia.
    - exists (Ok tt), w1. split; [reflexivity|]. unfold within. lia. }
  destruct Hd as (o & w2 & Hrun & Hd). rewrite Hrun.
  destruct o as [[]|e|]; cbn [fst snd]; try (unfold within in *; lia).
  destruct (Py.truthy limit).
  - pose proof (limit_loop_within tok limit (Z.to_nat (limit_upgrade_count cfg)) w2) as H.
    unfold within in *. lia.
  - unfold within in *. simpl. lia.
Qed.

Lemma level_phase_within cfg tok w :
  within (1 + Z.to_nat (upgrade_count cfg)) 0 0
         w (snd (level_phase respond latency cfg tok w)).
Proof.
  unfold level_phase.
  destruct (String.eqb (Py.lower (auto_upgrade cfg)) "y");
    [|unfold within; simpl; lia].
  run_monad.
  pose proof (get_levels_within tok w) as H0.
  destruct (get_levels respond latency tok w) as [[levels|e|] w1];
    cbn [fst snd] in H0 |- *; try (unfold within in *; lia).
  destruct (Py.truthy levels); cbn [fst snd]; [|unfold within in *; lia].
  destruct (Py.getitem_last levels) as [last_level|]; cbn [fst snd];
    [|unfold within in *; lia].
  destruct (Py.getitem last_level "level") as [initial|]; cbn [fst snd];
    [|unfold within in *; lia].
  match goal with
  | |- context [upgrade_level_loop _ _ ?N _ ?w0] =>
      pose proof (level_loop_within tok N w0) as H
  end.
  unfold within in *. simpl in *. lia.
Qed.

End UpgradeBounds.

(** X14.  The upgrade phases never buy more than was asked for.  The
    tapping phase sends at most the listing plus as many purchases as the
    two requested counts allow, raises [damage_upgrades] by at most the
    damage count and [limit_upgrades] by at most the limit count, a negative
    count being as good as zero; the level phase sends at most the listing
    plus [upgrade_count] purchases and touches neither counter.  No counter
    ever goes down. *)
Theorem upgrade_phases_stay_within_the_request :
  forall (respond : nat -> http_result) (latency : nat -> nat)
         (cfg : config) (tok : string) (w : world),
    within (1 + Z.to_nat (damage_upgrade_count cfg) + Z.to_nat (limit_upgrade_count cfg))
           (Z.max 0 (damage_upgrade_count cfg)) (Z.max 0 (limit_upgrade_count cfg))
           w (snd (tapping_phase respond latency cfg tok w))
    /\ within (1 + Z.to_nat (upgrade_count cfg)) 0 0
              w (snd (level_phase respond latency cfg tok w)).
Proof.
  intros respond latency cfg tok w. split.
  - apply tapping_phase_within.
  - apply level_phase_within.
Qed.

(** ** The requests an account can issue *)

Lemma sends_quiet A (P : request -> Prop) (m : M A) :
  (forall w, requests_of (trace (snd (m w))) = requests_of (trace w)) ->
  sends_only P m.
Proof. intros H w. exists []. split; [apply H | constructor]. Qed.

Lemma sends_ret A P (a : A) : sends_only P (ret a).
Proof. apply sends_quiet. reflexivity. Qed.

Lemma sends_raise A P e : sends_only P (@raise A e).
Proof. apply sends_quiet. reflexivity. Qed.

Lemma sends_diverge A P : sends_only P (@diverge A).
Proof. apply sends_quiet. reflexivity. Qed.

Lemma sends_lift A P (r : res A) : sends_only P (lift r).
Proof. destruct r; [apply sends_ret | apply sends_raise]. Qed.

Lemma sends_log P l s : sends_only P (log l s).
Proof. apply sends_quiet. reflexivity. Qed.

Lemma sends_sleep P d : sends_only P (sleep d).
Proof. apply sends_quiet. reflexivity. Qed.

Lemma sends_time P : sends_only P time_time.
Proof. apply sends_quiet. reflexivity. Qed.

Lemma sends_get_stats P : sends_only P get_stats.
Proof. apply sends_quiet. reflexivity. Qed.

Lemma sends_modify P f : sends_only P (modify_stats f).
Proof. apply sends_quiet. reflexivity. Qed.

Lemma sends_random P jitter : sends_only P (random_delay jitter).
Proof. apply sends_quiet. reflexivity. Qed.

Lemma sends_send (P : request -> Prop) respond latency r :
  P r -> sends_only P (send respond latency r).
Proof.
  intros Hr w. exists [r]. unfold send.
  destruct (respond (ncalls w)); (split; [reflexivity | repeat constructor; exact Hr]).
Qed.

Lemma sends_bind A B P (m : M A) (k : A -> M B) :
  sends_only P m -> (forall a, sends_only P (k a)) -> sends_only P (bind m k).
Proof.
  intros Hm Hk w. unfold bind. destruct (Hm w) as (f1 & H1 & F1).
  destruct (m w) as [[a|e|] w1]; simpl in *; try (exists f1; split; assumption).
  destruct (Hk a w1) as (f2 & H2 & F2).
  exists (f2 ++ f1)%list. split.
  - rewrite H2, H1. apply app_assoc.
  - apply Forall_app. split; assumption.
Qed.

Lemma sends_try A P (m : M A) h :
  sends_only P m -> (forall e, sends_only P (h e)) -> sends_only P (try_except m h).
Proof.
  intros Hm Hh w. unfold try_except. destruct (Hm w) as (f1 & H1 & F1).
  destruct (m w) as [[a|e|] w1]; simpl in *; try (exists f1; split; assumption).
  destruct (Hh e w1) as (f2 & H2 & F2).
  exists (f2 ++ f1)%list. split.
  - rewrite H2, H1. apply app_assoc.
  - apply Forall_app. split; assumption.
Qed.

Lemma sends_for_each A P (l : list A) body :
  (forall x, sends_only P (body x)) -> sends_only P (for_each l body).
Proof.
  intros Hb. induction l as [|x l IH]; simpl.
  - apply sends_ret.
  - apply sends_bind; auto.
Qed.

Lemma sends_weaken A (P Q : request -> Prop) (m : M A) :
  (forall r, P r -> Q r) -> sends_only P m -> sends_only Q m.
Proof.
  intros HPQ Hm w. destruct (Hm w) as (f & H & F).
  exists f. split; [exact H|]. eapply Forall_impl; [exact HPQ | exact F].
Qed.

Ltac issued_tac :=
  split;
  [ reflexivity
  | cbn;
    first [ exact I | reflexivity | assumption
          | split;
            [ assumption
            | first [ left; reflexivity | right; reflexivity | eexists; reflexivity ] ] ] ].

Ltac sends_tac :=
  repeat first
    [ simple apply sends_ret | simple apply sends_raise | simple apply sends_diverge
    | simple apply sends_lift | simple apply sends_log | simple apply sends_sleep
    | simple apply sends_time | simple apply sends_get_stats
    | simple apply sends_modify | simple apply sends_random
    | simple apply sends_bind; [ | intros ? ]
    | simple apply sends_try; [ | intros ? ]
    | simple apply sends_for_each; intros ?
    | match goal with
      | |- sends_only _ (if ?c then _ else _) => destruct c
      | |- sends_only _ (match ?x with _ => _ end) => destruct x
      | |- sends_only _ (raise_for_status _) => unfold raise_for_status
      | |- sends_only _ (response_json _) => unfold response_json
      | |- sends_only _ (session_get _ _ _ _ _) =>
          unfold session_get; apply sends_send; issued_tac
      | |- sends_only _ (session_post _ _ _ _ _) =>
          unfold session_post; apply sends_send; issued_tac
      end ].

Section Issued.

Variable respond : nat -> http_result.
Variable latency : nat -> nat.
Variable jitter : nat -> nat.
Variable ph : phases.
Variable tok : string.

Hypothesis Hlevels : levels_on ph = true.
Hypothesis Htapping : tapping_upgrades_on ph = true.
Hypothesis Hplay : auto_play_on ph = true.

Let P := issued ph tok.

Lemma issued_login : sends_only P (login respond latency tok).
Proof. unfold login. sends_tac. Qed.

Lemma issued_claim_daily : sends_only P (claim_daily respond latency tok).
Proof. unfold claim_daily. sends_tac. Qed.

Lemma issued_process_missions c : sends_only P (process_missions respond latency tok c).
Proof.
  unfold process_missions, get_campaign_missions, process_mission, complete_mission,
    claim_mission_reward.
  sends_tac.
Qed.

Lemma issued_upgrade_level_loop n :
  sends_only P (upgrade_level_loop respond latency n tok).
Proof. induction n as [|n IH]; simpl; unfold upgrade_level; sends_tac; exact IH. Qed.

Lemma issued_get_levels : sends_only P (get_levels respond latency tok).
Proof. unfold get_levels. sends_tac. Qed.

Lemma issued_upgrade_tapping_loop n u ty :
  sends_only P (upgrade_tapping_loop respond latency n tok u ty).
Proof. induction n as [|n IH]; simpl; unfold upgrade_tapping; sends_tac; exact IH. Qed.

Lemma issued_get_tapping_upgrades :
  sends_only P (get_tapping_upgrades respond latency tok).
Proof. unfold get_tapping_upgrades. sends_tac. Qed.

Lemma issued_use_available_boosts :
  sends_only P (use_available_boosts respond latency tok).
Proof.
  unfold use_available_boosts, use_available_boost, use_boost, get_boosts,
    get_active_boosts.
  sends_tac.
Qed.

Lemma issued_auto_play_iter ls :
  sends_only P (auto_play_iter respond latency jitter tok ls).
Proof.
  unfold auto_play_iter, boost_check.
  pose proof issued_use_available_boosts.
  unfold after_status, on_status_failure, refill_branch, freeze_branch, after_tap,
    use_refill_boost, get_refill_boost, get_boosts, freeze_game, get_game_status,
    perform_tapping.
  sends_tac; auto.
Qed.

Lemma issued_auto_play_game fuel :
  sends_only P (auto_play_game respond latency jitter fuel tok).
Proof.
  unfold auto_play_game. apply sends_bind; [apply sends_time | intros start].
  generalize (mkLoop 0 0 start). induction fuel as [|fuel IH]; intros ls; simpl.
  - apply sends_diverge.
  - apply sends_bind; [apply issued_auto_play_iter|].
    intros [ls'|r]; [apply IH | apply sends_ret].
Qed.

End Issued.

Section IssuedByAccount.

Variable respond : nat -> http_result.
Variable latency : nat -> nat.
Variable jitter : nat -> nat.
Variable cfg : config.
Variable tok : string.

Let P := issued (phases_of cfg) tok.

Lemma issued_level_phase : sends_only P (level_phase respond latency cfg tok).
Proof.
  unfold level_phase.
  destruct (String.eqb (Py.lower (auto_upgrade cfg)) "y") eqn:E; [|apply sends_ret].
  pose proof (issued_get_levels respond latency (phases_of cfg) tok E).
  pose proof (issued_upgrade_level_loop respond latency (phases_of cfg) tok E).
  sends_tac; auto.
Qed.

Lemma issued_tapping_phase : sends_only P (tapping_phase respond latency cfg tok).
Proof.
  unfold tapping_phase.
  destruct (String.eqb (Py.lower (auto_upgrade_tapping cfg)) "y") eqn:E;
    [|apply sends_ret].
  pose proof (issued_get_tapping_upgrades respond latency (phases_of cfg) tok E).
  pose proof (issued_upgrade_tapping_loop respond latency (phases_of cfg) tok E).
  sends_tac; auto.
Qed.

Lemma issued_account_phases fuel :
  sends_only P (account_phases respond latency jitter fuel cfg tok).
Proof.
  unfold account_phases.
  pose proof (issued_claim_daily respond latency (phases_of cfg) tok).
  pose proof (issued_process_missions respond latency (phases_of cfg) tok).
  pose proof issued_level_phase. pose proof issued_tapping_phase.
  unfold summarize_upgrades.
  destruct (String.eqb (Py.lower (auto_tapping cfg)) "y") eqn:E.
  - pose proof (issued_auto_play_game respond latency jitter (phases_of cfg) tok E).
    sends_tac; auto.
  - sends_tac; auto.
Qed.

Lemma issued_process_account fuel :
  sends_only P (process_account respond latency jitter fuel cfg tok).
Proof.
  unfold process_account.
  pose proof (issued_login respond latency (phases_of cfg) tok).
  pose proof issued_account_phases.
  sends_tac; auto.
Qed.

End IssuedByAccount.

Lemma sends_only_sent A (P : request -> Prop) (m : M A) w :
  sends_only P m ->
  exists fresh, sent (snd (m w)) = (sent w ++ fresh)%list /\ Forall P fresh.
Proof.
  intros H. destruct (H w) as (f & Hf & F).
  exists (rev f). split.
  - unfold sent. rewrite Hf, rev_app_distr. reflexivity.
  - apply Forall_rev. exact F.
Qed.

(** X15.  Every request an account sends is one of the shapes of [issued]
    for the phases its configuration switches on: it carries the bearer token
    of that account, uses the one method of its endpoint, has a body only on
    the submit endpoint (0 or 15 clicks) and on the buy endpoint (a boost
    id), and goes to a level, tapping-upgrade or game endpoint only when the
    matching toggle was answered with "y" or "Y". *)
Theorem account_requests_follow_the_configuration :
  forall (respond : nat -> http_result) (latency jitter : nat -> nat)
         (fuel : nat) (cfg : config) (tok : string) (w : world),
    exists fresh,
      sent (snd (process_account respond latency jitter fuel cfg tok w))
      = (sent w ++ fresh)%list
      /\ Forall (issued (phases_of cfg) tok) fresh.
Proof.
  intros. apply sends_only_sent. apply issued_process_account.
Qed.

(** What [issued] says request by request. *)
Lemma issued_facts ph tok q :
  issued ph tok q ->
  req_headers q = get_headers tok
  /\ (req_url q = GameClickerSubmit ->
      req_json q = Some (clicked_payload 0) \/ req_json q = Some (clicked_payload 15))
  /\ (auto_play_on ph = false ->
      req_url q <> GameClickerSubmit /\ req_url q <> GameClickerFreeze
      /\ req_url q <> BoostModification /\ req_url q <> BoostModificationActive
      /\ req_url q <> BoostModificationBuy)
  /\ (levels_on ph = false ->
      req_url q <> Levels /\ req_url q <> BoostLevelPurchase)
  /\ (tapping_upgrades_on ph = false ->
      req_url q <> BoostCardClicker /\ forall i, req_url q <> BoostPurchase i).
Proof.
  intros (Hh & Hshape). split; [exact Hh|].
  destruct q as [m u h ps j]. simpl in *.
  destruct m, u, j; simpl in Hshape; try contradiction;
    repeat split; intros; try discriminate; try congruence;
    try (destruct Hshape as (Hon & Hp);
         first [ congruence | destruct Hp as [-> | ->]; auto ]).
Qed.

(** X16.  Across a whole batch every request carries the bearer token of one
    of the lines of the credential file, trimmed; a submission carries 0 or
    15 clicks; and with a toggle answered otherwise than "y" or "Y" the
    endpoints of that phase are never contacted. *)
Theorem batch_requests_carry_a_token_of_the_file :
  forall (respond : nat -> http_result) (latency jitter : nat -> nat)
         (fuel : nat) (cfg : config) (text : string) (w : world),
    exists fresh,
      sent (snd (process_accounts respond latency jitter (FileText text) fuel cfg w))
      = (sent w ++ fresh)%list
      /\ Forall (fun q =>
                   (exists line, In line (Py.readlines text)
                                 /\ req_headers q = get_headers (Py.strip line))
                   /\ (req_url q = GameClickerSubmit ->
                       req_json q = Some (clicked_payload 0)
                       \/ req_json q = Some (clicked_payload 15))
                   /\ (String.eqb (Py.lower (auto_tapping cfg)) "y" = false ->
                       req_url q <> GameClickerSubmit /\ req_url q <> GameClickerFreeze
                       /\ req_url q <> BoostModification
                       /\ req_url q <> BoostModificationActive
                       /\ req_url q <> BoostModificationBuy)
                   /\ (String.eqb (Py.lower (auto_upgrade cfg)) "y" = false ->
                       req_url q <> Levels /\ req_url q <> BoostLevelPurchase)
                   /\ (String.eqb (Py.lower (auto_upgrade_tapping cfg)) "y" = false ->
                       req_url q <> BoostCardClicker
                       /\ forall i, req_url q <> BoostPurchase i))
                fresh.
Proof.
  intros respond latency jitter fuel cfg text w.
  apply sends_only_sent. unfold process_accounts.
  set (lines := Py.readlines text).
  assert (H : forall tokens,
             (forall line, In line tokens -> In line lines) ->
             sends_only
               (fun q => exists line, In line lines
                                      /\ issued (phases_of cfg) (Py.strip line) q)
               (for_each tokens (fun line =>
                  process_account respond latency jitter fuel cfg (Py.strip line)))).
  { induction tokens as [|line tokens IH]; intros Hin; simpl.
    - apply sends_ret.
    - apply sends_bind.
      + eapply sends_weaken; [|apply issued_process_account].
        intros q Hq. exists line. split; [apply Hin; left; reflexivity | exact Hq].
      + intros _. apply IH. intros l Hl. apply Hin. right. exact Hl. }
  eapply sends_weaken; [|apply (H lines); auto].
  intros q (line & Hline & Hq).
  destruct (issued_facts _ _ _ Hq) as (Hh & Hc & Hp & Hl & Ht).
  split; [exists line; split; assumption|].
  split; [exact Hc|]. split; [exact Hp|]. split; [exact Hl | exact Ht].
Qed.

(** With every toggle off, a batch of two accounts never contacts the submit
    endpoint. *)
Lemma batch_requests_carry_a_token_of_the_file_witness :
  exists fresh,
    sent (snd (process_accounts (scripted prompt_service) no_latency no_jitter
                                (FileText (unlines ["tokA"; "tokB"])) 0 all_off world0))
    = fresh
    /\ Forall (fun q => req_url q <> GameClickerSubmit) fresh.
Proof.
  destruct (batch_requests_carry_a_token_of_the_file (scripted prompt_service) no_latency
              no_jitter 0%nat all_off (unlines ["tokA"; "tokB"]) world0)
    as (fresh & Hs & F).
  exists fresh. split; [exact Hs|].
  eapply Forall_impl; [|exact F].
  intros q (_ & _ & Hplay & _). apply (Hplay eq_refl).
Defined.

(** ** The interactive front end *)

(** X17.  [validate_input] answers with the first line it accepts: the lines
    before it were all rejected, each one cost one [print] line, the answer
    is the stripped line (converted by [int] when a number was asked for),
    and the lines after it are left unread.  When no line is accepted the
    input runs out, every line having cost one [print] line. *)
Theorem validate_input_takes_the_first_accepted_line :
  forall (parse_int : string -> option Z) (prompt : string) (valid_options : list string)
         (is_int : bool) (inputs : list string) (shown : list console_event),
    match validate_input parse_int prompt valid_options is_int inputs shown with
    | (Some a, rest, shown') =>
        exists rejected line,
          inputs = (rejected ++ line :: rest)%list
          /\ Forall (fun l => accepts parse_int valid_options is_int l = false) rejected
          /\ accepts parse_int valid_options is_int line = true
          /\ a = answer_of parse_int is_int line
          /\ printed_lines shown' = (printed_lines shown + List.length rejected)%nat
    | (None, rest, shown') =>
        rest = []
        /\ Forall (fun l => accepts parse_int valid_options is_int l = false) inputs
        /\ printed_lines shown' = (printed_lines shown + List.length inputs)%nat
    end.
Proof.
  intros parse_int prompt valid_options is_int inputs.
  induction inputs as [|line inputs IH]; intros shown; simpl.
  - split; [reflexivity|]. split; [constructor|]. unfold printed_lines. simpl. lia.
  - unfold accepts at 1 2 3. unfold answer_of.
    destruct (match valid_options with [] => false | _ => true end
              && negb (existsb (String.eqb (Py.lower (Py.strip line))) valid_options))
      eqn:Hopt.
    + specialize (IH (Printed ("Invalid input. Please enter one of "
                               ++ String.concat ", " valid_options)
                      :: Prompted prompt :: shown)).
      destruct (validate_input parse_int prompt valid_options is_int inputs _)
        as [[[a|] rest] shown'].
      * destruct IH as (rejected & l & -> & Hrej & Hacc & Ha & Hp).
        exists (line :: rejected), l. split; [reflexivity|].
        split; [constructor; [unfold accepts; rewrite Hopt; reflexivity | exact Hrej]|].
        split; [exact Hacc|]. split; [exact Ha|].
        rewrite Hp. unfold printed_lines. simpl. lia.
      * destruct IH as (-> & Hrej & Hp). split; [reflexivity|].
        split; [constructor; [unfold accepts; rewrite Hopt; reflexivity | exact Hrej]|].
        rewrite Hp. unfold printed_lines. simpl. lia.
    + destruct is_int.
      * destruct (parse_int (Py.strip line)) as [z|] eqn:Hz.
        { exists [], line. split; [reflexivity|]. split; [constructor|].
          split; [unfold accepts; rewrite Hopt, Hz; reflexivity|].
          split; [rewrite Hz; reflexivity|]. unfold printed_lines. simpl. lia. }
        { specialize (IH (Printed "Invalid input. Please enter a number."
                          :: Prompted prompt :: shown)).
          destruct (validate_input parse_int prompt valid_options true inputs _)
            as [[[a|] rest] shown'].
          - destruct IH as (rejected & l & -> & Hrej & Hacc & Ha & Hp).
            exists (line :: rejected), l. split; [reflexivity|].
            split; [constructor;
                    [unfold accepts; rewrite Hopt, Hz; reflexivity | exact Hrej]|].
            split; [exact Hacc|]. split; [exact Ha|].
            rewrite Hp. unfold printed_lines. simpl. lia.
          - destruct IH as (-> & Hrej & Hp). split; [reflexivity|].
            split; [constructor;
                    [unfold accepts; rewrite Hopt, Hz; reflexivity | exact Hrej]|].
            rewrite Hp. unfold printed_lines. simpl. lia. }
      * exists [], line. split; [reflexivity|]. split; [constructor|].
        split; [unfold accepts; rewrite Hopt; reflexivity|].
        split; [reflexivity|]. unfold printed_lines. simpl. lia.
Qed.

Lemma yes_no_answer parse_int prompt inputs shown a rest shown' :
  validate_input parse_int prompt yes_no false inputs shown = (Some a, rest, shown') ->
  exists s, a = AText s /\ (Py.lower s = "y" \/ Py.lower s = "n").
Proof.
  intros H.
  pose proof (validate_input_takes_the_first_accepted_line
                parse_int prompt yes_no false inputs shown) as Hv.
  rewrite H in Hv. destruct Hv as (rejected & line & _ & _ & Hacc & Ha & _).
  exists (Py.strip line). split; [exact Ha|].
  unfold accepts, yes_no in Hacc. simpl in Hacc.
  destruct (String.eqb_spec (Py.lower (Py.strip line)) "y") as [E|_]; [left; exact E|].
  destruct (String.eqb_spec (Py.lower (Py.strip line)) "n") as [E|_]; [right; exact E|].
  discriminate.
Qed.

Lemma count_answer parse_int prompt inputs shown a rest shown' :
  validate_input parse_int prompt [] true inputs shown = (Some a, rest, shown') ->
  exists z, a = AnInt z.
Proof.
  intros H.
  pose proof (validate_input_takes_the_first_accepted_line
                parse_int prompt [] true inputs shown) as Hv.
  rewrite H in Hv. destruct Hv as (rejected & line & _ & _ & _ & Ha & _).
  eexists. exact Ha.
Qed.

(** X18.  The configuration the prompts of [__main__] hand to
    [process_accounts]: every toggle is, lower-cased, "y" or "n"; the level
    count is 1 unless the level toggle is "y"; the two tapping counts are 0
    unless the tapping toggle is "y".  The prompts can only stop for lack of
    input. *)
Theorem prompts_yield_a_well_formed_configuration :
  forall (parse_int : string -> option Z) (inputs : list string),
    match read_config parse_int inputs with
    | (inr cfg, _, _) =>
        (Py.lower (auto_upgrade cfg) = "y" \/ Py.lower (auto_upgrade cfg) = "n")
        /\ (Py.lower (auto_upgrade_tapping cfg) = "y"
            \/ Py.lower (auto_upgrade_tapping cfg) = "n")
        /\ (Py.lower (auto_tapping cfg) = "y" \/ Py.lower (auto_tapping cfg) = "n")
        /\ (Py.lower (auto_upgrade cfg) <> "y" -> upgrade_count cfg = 1)
        /\ (Py.lower (auto_upgrade_tapping cfg) <> "y" ->
            damage_upgrade_count cfg = 0 /\ limit_upgrade_count cfg = 0)
    | (inl e, _, _) => e = EOFError
    end.
Proof.
  intros parse_int inputs. unfold read_config.
  destruct (validate_input parse_int "Upgrade Level (Y/N): " yes_no false inputs [])
    as [[[au|] rest] shown] eqn:H1; [|reflexivity].
  destruct (yes_no_answer _ _ _ _ _ _ _ H1) as (s1 & -> & Hs1). simpl answered_yes.
  cbv iota.
  set (counted := if String.eqb (Py.lower s1) "y" then _ else _).
  assert (Hc : match counted with
               | (Some uc, _, _) =>
                   exists z, uc = AnInt z /\ (Py.lower s1 <> "y" -> z = 1)
               | _ => True
               end).
  { subst counted. destruct (String.eqb_spec (Py.lower s1) "y") as [E|E].
    - destruct (validate_input parse_int _ [] true rest shown) as [[[uc|] r] sh] eqn:H2;
        [|exact I].
      destruct (count_answer _ _ _ _ _ _ _ H2) as (z & ->).
      exists z. split; [reflexivity | intros Hn; contradiction].
    - exists 1. split; [reflexivity | reflexivity]. }
  destruct counted as [[[uc|] rest1] shown1]; [|reflexivity].
  destruct Hc as (zu & -> & Hzu).
  destruct (validate_input parse_int "Auto Upgrade Tapping (Y/N): " yes_no false rest1 shown1)
    as [[[aut|] rest2] shown2] eqn:H3; [|reflexivity].
  destruct (yes_no_answer _ _ _ _ _ _ _ H3) as (s2 & -> & Hs2). simpl answered_yes.
  cbv iota.
  set (counts := if String.eqb (Py.lower s2) "y" then _ else _).
  assert (Hd : match counts with
               | (Some (dc, lc), _, _) =>
                   exists zd zl, dc = AnInt zd /\ lc = AnInt zl
                                 /\ (Py.lower s2 <> "y" -> zd = 0 /\ zl = 0)
               | _ => True
               end).
  { subst counts. destruct (String.eqb_spec (Py.lower s2) "y") as [E|E].
    - destruct (validate_input parse_int _ [] true rest2 shown2) as [[[dc|] r] sh] eqn:H4;
        [|exact I].
      destruct (count_answer _ _ _ _ _ _ _ H4) as (zd & ->).
      destruct (validate_input parse_int _ [] true r sh) as [[[lc|] r'] sh'] eqn:H5;
        [|exact I].
      destruct (count_answer _ _ _ _ _ _ _ H5) as (zl & ->).
      exists zd, zl. split; [reflexivity|]. split; [reflexivity|].
      intros Hn; contradiction.
    - exists 0, 0. repeat split. }
  destruct counts as [[[[dc lc]|] rest3] shown3]; [|reflexivity].
  destruct Hd as (zd & zl & -> & -> & Hz).
  destruct (validate_input parse_int "Auto Tapping (Y/N): " yes_no false rest3 shown3)
    as [[[at_|] rest4] shown4] eqn:H6; [|reflexivity].
  destruct (yes_no_answer _ _ _ _ _ _ _ H6) as (s3 & -> & Hs3).
  simpl. repeat split; auto; apply Hz; assumption.
Qed.

(** Levels on with three upgrades, tapping upgrades off after one rejected
    answer, auto-tapping off: the tapping counts are 0. *)
Lemma prompts_yield_a_well_formed_configuration_witness :
  exists cfg,
    fst (fst (read_config small_int ["Y"; "3"; "maybe"; " n "; "N"])) = inr cfg
    /\ Py.lower (auto_upgrade_tapping cfg) <> "y"
    /\ upgrade_count cfg = 3
    /\ damage_upgrade_count cfg = 0
    /\ limit_upgrade_count cfg = 0.
Proof.
  pose proof (prompts_yield_a_well_formed_configuration small_int
                ["Y"; "3"; "maybe"; " n "; "N"]) as H.
  destruct (read_config small_int ["Y"; "3"; "maybe"; " n "; "N"])
    as [[[e|cfg] rest] shown] eqn:Hrun.
  - vm_compute in Hrun. discriminate.
  - destruct H as (_ & _ & _ & _ & Hoff).
    exists cfg. split; [reflexivity|].
    assert (Hcfg : cfg = mkConfig "Y" 3 "n" 0 0 "N").
    { vm_compute in Hrun. injection Hrun as Hc _ _. symmetry. exact Hc. }
    assert (Hn : Py.lower (auto_upgrade_tapping cfg) <> "y").
    { rewrite Hcfg. vm_compute. discriminate. }
    split; [exact Hn|]. split; [rewrite Hcfg; reflexivity|]. apply Hoff. exact Hn.
Defined.

(** ** The clock *)

Lemma paced_refl P w : paced P w w.
Proof. split; [lia|]. exists []. split; [reflexivity | constructor]. Qed.

Lemma paced_trans P a b c : paced P a b -> paced P b c -> paced P a c.
Proof.
  intros (H1 & f1 & E1 & F1) (H2 & f2 & E2 & F2). split; [lia|].
  exists (f2 ++ f1)%list. split; [rewrite E2, E1; apply app_assoc|].
  apply Forall_app. split; [|exact F1].
  eapply Forall_impl; [|exact F2]. intros [t r| |]; auto. intros (Ht & Hp). split; [lia | exact Hp].
Qed.

Lemma paced_weaken (P Q : Z -> request -> Prop) w w' :
  (forall t r, P t r -> Q t r) -> paced P w w' -> paced Q w w'.
Proof.
  intros HPQ (H & f & E & F). split; [exact H|]. exists f. split; [exact E|].
  eapply Forall_impl; [|exact F]. intros [t r| |]; auto. intros (Ht & Hp). auto.
Qed.

Lemma paced_quiet P w w' e :
  now w <= now w' -> trace w' = e :: trace w ->
  match e with Dispatch _ _ => False | _ => True end ->
  paced P w w'.
Proof.
  intros H E He. split; [exact H|]. exists [e]. split; [exact E|].
  constructor; [|constructor]. destruct e; [contradiction | exact I | exact I].
Qed.

Lemma paced_same P w w' : now w <= now w' -> trace w' = trace w -> paced P w w'.
Proof. intros H E. split; [exact H|]. exists []. split; [exact E | constructor]. Qed.

Section Clock.

Variable P : Z -> request -> Prop.
Let R := paced P.

Lemma clock_ret A (a : A) : steps R (ret a).
Proof. intros w. apply paced_refl. Qed.

Lemma clock_raise A e : steps R (@raise A e).
Proof. intros w. apply paced_refl. Qed.

Lemma clock_diverge A : steps R (@diverge A).
Proof. intros w. apply paced_refl. Qed.

Lemma clock_lift A (r : res A) : steps R (lift r).
Proof. destruct r; [apply clock_ret | apply clock_raise]. Qed.

Lemma clock_bind A B (m : M A) (k : A -> M B) :
  steps R m -> (forall a, steps R (k a)) -> steps R (bind m k).
Proof. apply steps_bind. apply paced_trans. Qed.

Lemma clock_try A (m : M A) h :
  steps R m -> (forall e, steps R (h e)) -> steps R (try_except m h).
Proof. apply steps_try. apply paced_trans. Qed.

Lemma clock_for_each A (l : list A) body :
  (forall x, steps R (body x)) -> steps R (for_each l body).
Proof. apply steps_for_each; [apply paced_refl | apply paced_trans]. Qed.

Lemma clock_log l s : steps R (log l s).
Proof. intros w. eapply paced_quiet; [|reflexivity|exact I]. simpl. lia. Qed.

Lemma clock_sleep d : 0 <= d -> steps R (sleep d).
Proof. intros Hd w. eapply paced_quiet; [|reflexivity|exact I]. simpl. lia. Qed.

Lemma clock_time : steps R time_time.
Proof. intros w. apply paced_refl. Qed.

Lemma clock_get_stats : steps R get_stats.
Proof. intros w. apply paced_refl. Qed.

Lemma clock_modify f : steps R (modify_stats f).
Proof. intros w. apply paced_same; simpl; [lia | reflexivity]. Qed.

(** The jittered sleep at the end of a pass. *)
Lemma clock_pause A jitter (k : M A) :
  steps R k ->
  steps R (delay <- random_delay jitter ;; sleep delay ;; k).
Proof.
  intros Hk w. unfold bind, random_delay, sleep. cbv beta iota.
  eapply paced_trans; [|apply Hk].
  eapply paced_quiet; [|reflexivity|exact I]. cbn [now].
  generalize (Nat2Z.is_nonneg (jitter (nrandom w) mod 400)). lia.
Qed.

Lemma clock_send respond latency r :
  (forall t, P t r) -> steps R (send respond latency r).
Proof.
  intros Hr w. unfold send.
  assert (H : paced P w
                (mkWorld (now w + Z.of_nat (latency (ncalls w))) (S (ncalls w)) (nrandom w)
                         (Dispatch (now w) r :: trace w) (user_stats w))).
  { split; [simpl; lia|]. exists [Dispatch (now w) r]. split; [reflexivity|].
    constructor; [|constructor]. split; [lia | apply Hr]. }
  destruct (respond (ncalls w)); exact H.
Qed.

End Clock.

Ltac clock_tac :=
  repeat first
    [ simple apply clock_ret | simple apply clock_raise | simple apply clock_diverge
    | simple apply clock_lift | simple apply clock_log
    | simple apply clock_sleep; lia
    | simple apply clock_time | simple apply clock_get_stats
    | simple apply clock_modify
    | simple apply clock_pause
    | simple apply clock_bind; [ | intros ? ]
    | simple apply clock_try; [ | intros ? ]
    | simple apply clock_for_each; intros ?
    | match goal with
      | |- steps _ (if ?c then _ else _) => destruct c
      | |- steps _ (match ?x with _ => _ end) => destruct x
      | |- steps _ (raise_for_status _) => unfold raise_for_status
      | |- steps _ (response_json _) => unfold response_json
      | |- steps _ (session_get _ _ _ _ _) =>
          unfold session_get; apply clock_send; intros ?;
          first [ exact I | cbn; discriminate ]
      | |- steps _ (session_post _ _ _ _ _) =>
          unfold session_post; apply clock_send; intros ?;
          first [ exact I | cbn; discriminate ]
      end ].

Lemma clock_weaken A (P Q : Z -> request -> Prop) (m : M A) :
  (forall t r, P t r -> Q t r) -> steps (paced P) m -> steps (paced Q) m.
Proof. intros HPQ H w. eapply paced_weaken; [exact HPQ | apply H]. Qed.

Lemma clock_any A (m : M A) :
  steps (paced not_active_listing) m -> steps (paced any_request) m.
Proof. apply clock_weaken. intros; exact I. Qed.

Section ClockOfThePass.

Variable respond : nat -> http_result.
Variable latency : nat -> nat.
Variable jitter : nat -> nat.
Variable tok : string.

Local Abbreviation Q := (paced not_active_listing).

Lemma clock_login : steps Q (login respond latency tok).
Proof. unfold login. clock_tac. Qed.

Lemma clock_claim_daily : steps Q (claim_daily respond latency tok).
Proof. unfold claim_daily. clock_tac. Qed.

Lemma clock_process_missions c : steps Q (process_missions respond latency tok c).
Proof.
  unfold process_missions, get_campaign_missions, process_mission, complete_mission,
    claim_mission_reward.
  clock_tac.
Qed.

Lemma clock_upgrade_level_loop n : steps Q (upgrade_level_loop respond latency n tok).
Proof. induction n as [|n IH]; simpl; unfold upgrade_level; clock_tac; exact IH. Qed.

Lemma clock_get_levels : steps Q (get_levels respond latency tok).
Proof. unfold get_levels. clock_tac. Qed.

Lemma clock_upgrade_tapping_loop n u ty :
  steps Q (upgrade_tapping_loop respond latency n tok u ty).
Proof. induction n as [|n IH]; simpl; unfold upgrade_tapping; clock_tac; exact IH. Qed.

Lemma clock_get_tapping_upgrades : steps Q (get_tapping_upgrades respond latency tok).
Proof. unfold get_tapping_upgrades. clock_tac. Qed.

Lemma clock_get_game_status : steps Q (get_game_status respond latency tok).
Proof. unfold get_game_status. clock_tac. Qed.

(** Everything in a pass below the boost check: the status, the refill, the
    freeze and the tap. *)
Lemma clock_after_status ls status :
  steps Q (after_status respond latency jitter tok ls status).
Proof.
  unfold after_status, on_status_failure, refill_branch, freeze_branch, after_tap,
    use_refill_boost, get_refill_boost, get_boosts, freeze_game, perform_tapping.
  clock_tac.
Qed.

Lemma clock_use_available_boosts :
  steps (paced any_request) (use_available_boosts respond latency tok).
Proof.
  unfold use_available_boosts, use_available_boost, use_boost, get_boosts,
    get_active_boosts.
  clock_tac.
Qed.

Lemma clock_auto_play_iter ls :
  steps (paced any_request) (auto_play_iter respond latency jitter tok ls).
Proof.
  unfold auto_play_iter, boost_check.
  pose proof clock_use_available_boosts.
  pose proof (clock_any _ _ clock_get_game_status).
  pose proof (fun ls s => clock_any _ _ (clock_after_status ls s)).
  clock_tac; auto.
Qed.

Lemma clock_auto_play_game fuel :
  steps (paced any_request) (auto_play_game respond latency jitter fuel tok).
Proof.
  unfold auto_play_game. apply clock_bind; [apply clock_time | intros start].
  generalize (mkLoop 0 0 start). induction fuel as [|fuel IH]; intros ls; simpl.
  - apply clock_diverge.
  - apply clock_bind; [apply clock_auto_play_iter|].
    intros [ls'|r]; [apply IH | apply clock_ret].
Qed.

Variable cfg : config.

Lemma clock_level_phase : steps Q (level_phase respond latency cfg tok).
Proof.
  unfold level_phase. pose proof clock_get_levels. pose proof clock_upgrade_level_loop.
  clock_tac; auto.
Qed.

Lemma clock_tapping_phase : steps Q (tapping_phase respond latency cfg tok).
Proof.
  unfold tapping_phase. pose proof clock_get_tapping_upgrades.
  pose proof clock_upgrade_tapping_loop.
  clock_tac; auto.
Qed.

(** [process_account] from [process_missions] on. *)
Lemma clock_rest_of_the_account fuel :
  steps (paced any_request)
    (process_missions respond latency tok CAMPAIGN_ID ;;
     level_phase respond latency cfg tok ;;
     tapping_phase respond latency cfg tok ;;
     summarize_upgrades ;;
     if String.eqb (Py.lower (auto_tapping cfg)) "y" then
       log INFO "Starting auto-play..." ;;
       auto_play_game respond latency jitter fuel tok ;;
       ret tt
     else ret tt).
Proof.
  pose proof (clock_any _ _ (clock_process_missions CAMPAIGN_ID)).
  pose proof (clock_any _ _ clock_level_phase).
  pose proof (clock_any _ _ clock_tapping_phase).
  pose proof (clock_auto_play_game fuel).
  unfold summarize_upgrades.
  clock_tac; auto.
Qed.

End ClockOfThePass.

(** ** The first boost check of auto-play *)

Lemma yields_ret A (Pv : A -> Prop) a : Pv a -> yields Pv (ret a).
Proof. intros H w a' E. injection E as <-. exact H. Qed.

Lemma yields_bind_val A B (Pm : A -> Prop) (Pv : B -> Prop) (m : M A) (k : A -> M B) :
  yields Pm m -> (forall a, Pm a -> yields Pv (k a)) -> yields Pv (bind m k).
Proof.
  intros Hm Hk w b. unfold bind.
  destruct (m w) as [[a|e|] w1] eqn:E; simpl; try discriminate.
  apply Hk. apply (Hm w). rewrite E. reflexivity.
Qed.

Lemma yields_bind A B (Pv : B -> Prop) (m : M A) (k : A -> M B) :
  (forall a, yields Pv (k a)) -> yields Pv (bind m k).
Proof.
  intros Hk. apply yields_bind_val with (Pm := fun _ => True); [intros ? ? ?; exact I|].
  intros a _. apply Hk.
Qed.

Lemma bind_run A B (m : M A) (k : A -> M B) w :
  bind m k w
  = match m w with
    | (Ok a, w1) => k a w1
    | (Raise e, w1) => (Raise e, w1)
    | (Diverge, w1) => (Diverge, w1)
    end.
Proof. unfold bind. destruct (m w) as [[a|e|] w1]; reflexivity. Qed.

Ltac yields_tac :=
  repeat first
    [ simple apply yields_bind; intros ?
    | simple apply yields_ret
    | match goal with
      | |- yields _ (if ?c then _ else _) => destruct c
      | |- yields _ (match ?x with _ => _ end) => destruct x
      end ].

Section FirstBoostCheck.

Variable respond : nat -> http_result.
Variable latency : nat -> nat.
Variable jitter : nat -> nat.
Variable tok : string.

Lemma after_tap_keeps_the_check ls c result :
  yields (goes_on_with (last_boost_check ls)) (after_tap jitter ls c result).
Proof.
  unfold after_tap.
  apply yields_bind_val with (Pm := goes_on_with (last_boost_check ls)).
  - yields_tac; intros ls' E; try discriminate; injection E as <-; reflexivity.
  - intros [l|r] Hl; yields_tac.
    + exact Hl.
    + intros ls' E. discriminate.
Qed.

Lemma after_status_keeps_the_check ls status :
  yields (goes_on_with (last_boost_check ls))
         (after_status respond latency jitter tok ls status).
Proof.
  pose proof after_tap_keeps_the_check as Htap.
  unfold after_status, on_status_failure, refill_branch, freeze_branch.
  yields_tac;
    try (intros ls' E; try discriminate; injection E as <-; reflexivity);
    try apply Htap.
Qed.

Lemma late_refl T w : active_listing_not_before T w w.
Proof. exists []. split; [reflexivity | constructor]. Qed.

Lemma late_trans T a b c :
  active_listing_not_before T a b -> active_listing_not_before T b c ->
  active_listing_not_before T a c.
Proof.
  intros (f1 & E1 & F1) (f2 & E2 & F2). exists (f2 ++ f1)%list.
  split; [rewrite E2, E1; apply app_assoc | apply Forall_app; split; assumption].
Qed.

Lemma late_without_the_listing T w w' :
  paced not_active_listing w w' -> active_listing_not_before T w w'.
Proof.
  intros (_ & f & E & F). exists f. split; [exact E|].
  eapply Forall_impl; [|exact F]. intros [t r| |]; auto.
  intros (_ & Hp) Hurl. contradiction.
Qed.

Lemma late_after T w w' :
  T <= now w -> paced any_request w w' -> active_listing_not_before T w w'.
Proof.
  intros HT (_ & f & E & F). exists f. split; [exact E|].
  eapply Forall_impl; [|exact F]. intros [t r| |]; auto.
  intros (Ht & _) _. lia.
Qed.

(** One pass: if the interval has not run out since [last_boost_check], the
    active boosts are not asked for; if it has, they are asked for now. *)
Lemma pass_waits_for_the_interval T ls w :
  T <= last_boost_check ls + boost_check_interval ->
  let r := auto_play_iter respond latency jitter tok ls w in
  active_listing_not_before T w (snd r)
  /\ forall ls', fst r = Ok (Continue ls') ->
                 T <= last_boost_check ls' + boost_check_interval.
Proof.
  intros HT r. subst r. unfold auto_play_iter.
  assert (Hcheck :
    let b := boost_check respond latency tok (last_boost_check ls) w in
    active_listing_not_before T w (snd b)
    /\ forall last, fst b = Ok last -> T <= last + boost_check_interval).
  { cbv zeta. unfold boost_check, bind, time_time. cbv beta iota.
    destruct (boost_check_interval <=? now w - last_boost_check ls) eqn:E.
    - apply Z.leb_le in E.
      pose proof (clock_use_available_boosts respond latency tok w) as Hp.
      destruct (use_available_boosts respond latency tok w) as [[[]|e|] w1];
        simpl in *; (split; [apply late_after; [lia | exact Hp]|]);
        intros last El; try discriminate.
      injection El as <-. unfold boost_check_interval in *. lia.
    - simpl. split; [apply late_refl|]. intros last El. injection El as <-. exact HT. }
  cbv zeta in Hcheck. destruct Hcheck as (Hb & Hlast).
  rewrite bind_run.
  destruct (boost_check respond latency tok (last_boost_check ls) w) as [[last|e|] w1];
    simpl in *; [| split; [exact Hb | intros; discriminate] ..].
  specialize (Hlast last eq_refl).
  set (rest := status <- get_game_status respond latency tok ;;
               after_status respond latency jitter tok
                 (mkLoop (tapping_count ls) (consecutive_failures ls) last) status).
  assert (Hrest : steps (paced not_active_listing) rest).
  { unfold rest. apply clock_bind; [apply clock_get_game_status|].
    intros status. apply clock_after_status. }
  assert (Hkeep : yields (goes_on_with last) rest).
  { unfold rest. apply yields_bind. intros status.
    apply (after_status_keeps_the_check
             (mkLoop (tapping_count ls) (consecutive_failures ls) last)). }
  split.
  - eapply late_trans; [exact Hb|]. apply late_without_the_listing. apply Hrest.
  - intros ls' E. rewrite (Hkeep w1 _ E ls' eq_refl). exact Hlast.
Qed.

Lemma loop_waits_for_the_interval T fuel : forall ls w,
  T <= last_boost_check ls + boost_check_interval ->
  active_listing_not_before T w
    (snd (auto_play_loop respond latency jitter fuel tok ls w)).
Proof.
  induction fuel as [|fuel IH]; intros ls w HT; simpl.
  - apply late_refl.
  - destruct (pass_waits_for_the_interval T ls w HT) as (Hpass & Hnext).
    unfold bind.
    destruct (auto_play_iter respond latency jitter tok ls w) as [[[ls'|r]|e|] w1];
      simpl in *; try exact Hpass.
    eapply late_trans; [exact Hpass|]. apply IH. apply Hnext. reflexivity.
Qed.

End FirstBoostCheck.

(** X19.  Auto-play leaves the boosts alone for its first five minutes:
    every request for the active boosts that a call of [auto_play_game]
    sends leaves 300 s or more after the call began, whatever the service
    answers and however long the answers take.  ([last_boost_check] starts
    at the time of the call, not at zero.) *)
Theorem active_boosts_are_first_listed_after_five_minutes :
  forall (respond : nat -> http_result) (latency jitter : nat -> nat)
         (fuel : nat) (tok : string) (w : world),
    active_listing_not_before (now w + 300000) w
      (snd (auto_play_game respond latency jitter fuel tok w)).
Proof.
  intros respond latency jitter fuel tok w.
  unfold auto_play_game, bind at 1, time_time. cbv beta iota.
  apply loop_waits_for_the_interval. simpl. unfold boost_check_interval. lia.
Qed.

(** Once the five minutes are over the boosts are looked at: with a status
    answer that takes 300 s, the second pass lists the boosts and asks for
    the active ones at 300.8 s. *)
Example boosts_are_listed_once_five_minutes_are_over :
  let respond :=
    scripted [ ok_json (game_status 0 1000);
               ok_json (game_status 15 1000);
               ok_json (JObj [("data", JArr [JObj [("id", JStr "shield");
                                                   ("type", JStr "SHIELD");
                                                   ("available", JNum 3)]])]);
               ok_json (JArr []) ] in
  let w := snd (auto_play_game respond slow_first_answer no_jitter 8 "token" world0) in
  dispatch_times (filter is_active_listing (trace w)) = [300800].
Proof. vm_compute. reflexivity. Qed.

(** ** How long an account takes *)

Lemma account_phases_sleep_first respond latency jitter fuel cfg tok w :
  now w + 2000 <= now (snd (account_phases respond latency jitter fuel cfg tok w)).
Proof.
  unfold account_phases. rewrite bind_run.
  pose proof (clock_claim_daily respond latency tok w) as (Hc & _).
  pose proof (terminates_claim_daily respond latency tok w) as Ht.
  pose proof (safe_claim_daily respond latency tok w) as Hs.
  destruct (claim_daily respond latency tok w) as [[[]|e|] w1]; simpl in *;
    [| exfalso; exact (Hs e eq_refl) | exfalso; exact (Ht eq_refl)].
  rewrite bind_run. unfold sleep at 1. cbv beta iota.
  match goal with
  | |- _ <= now (snd (?m ?w2)) =>
      pose proof (clock_rest_of_the_account respond latency jitter tok cfg fuel w2)
        as (Hr & _)
  end.
  simpl in Hr. lia.
Qed.

(** X20.  A logged-in account is never quicker than its two fixed sleeps:
    when [process_account] comes back after a login that answered a truthy
    name, at least 12 s have passed on the clock (2 s after the daily
    reward, 10 s before the next account), whatever the service answered
    and whichever phases are switched on. *)
Theorem logged_in_account_takes_twelve_seconds :
  forall (respond : nat -> http_result) (latency jitter : nat -> nat)
         (fuel : nat) (cfg : config) (tok : string) (w : world) (name : json),
    fst (login respond latency tok w) = Ok name ->
    Py.truthy name = true ->
    let r := process_account respond latency jitter fuel cfg tok w in
    fst r <> Diverge ->
    now w + 12000 <= now (snd r).
Proof.
  intros respond latency jitter fuel cfg tok w name Hlogin Htruthy r. subst r.
  pose proof (clock_login respond latency tok w) as (Hl & _).
  destruct (login respond latency tok w) as [[v|e|] w1] eqn:Hrun; simpl in Hlogin;
    try discriminate.
  injection Hlogin as ->. simpl in Hl.
  unfold process_account. run_monad. rewrite Hrun, Htruthy. cbn [negb]. cbv beta iota.
  match goal with
  | |- context [account_phases respond latency jitter fuel cfg tok ?w0] =>
      pose proof (account_phases_sleep_first respond latency jitter fuel cfg tok w0) as Hp;
      destruct (account_phases respond latency jitter fuel cfg tok w0) as [[[]|e|] w2]
  end; simpl in *; intros Hd; try contradiction; lia.
Qed.

Lemma logged_in_account_takes_twelve_seconds_witness :
  let respond := scripted [ ok_json (JObj [("user", JObj [("nickname", JStr "bob")])]);
                            ok_json (JObj [("todayClaimed", JBool true)]);
                            ok_json (JObj [("data", JArr [])]) ] in
  12000 <= now (snd (process_account respond no_latency no_jitter 0 all_off "token" world0)).
Proof.
  intros respond.
  apply (logged_in_account_takes_twelve_seconds respond no_latency no_jitter 0%nat all_off
           "token" world0 (JStr "bob") eq_refl eq_refl).
  vm_compute. discriminate.
Defined.

(** ** Who writes what in the progress record *)

Section Unchanged.

Variable V : Type.
Variable view : UserStats -> V.
Variable respond : nat -> http_result.
Variable latency : nat -> nat.
Variable jitter : nat -> nat.

Lemma unchanged_refl w : unchanged view w w.
Proof. reflexivity. Qed.

Lemma unchanged_trans a b c :
  unchanged view a b -> unchanged view b c -> unchanged view a c.
Proof. unfold unchanged. intros H1 H2. rewrite H2. exact H1. Qed.

Lemma unchanged_send r : steps (unchanged view) (send respond latency r).
Proof. intros w. unfold send. destruct (respond (ncalls w)); reflexivity. Qed.

Lemma unchanged_log l s : steps (unchanged view) (log l s).
Proof. intros w. reflexivity. Qed.

Lemma unchanged_sleep d : steps (unchanged view) (sleep d).
Proof. intros w. reflexivity. Qed.

Lemma unchanged_random : steps (unchanged view) (random_delay jitter).
Proof. intros w. reflexivity. Qed.

Lemma unchanged_modify f : leaves view f -> steps (unchanged view) (modify_stats f).
Proof. intros Hf w. apply Hf. Qed.

End Unchanged.

Ltac unchanged_tac :=
  first [ apply unchanged_refl | apply unchanged_trans
        | intros; apply unchanged_send | apply unchanged_log | apply unchanged_sleep
        | apply unchanged_random | apply unchanged_modify
        | intros; intros []; reflexivity ].

(** X21.  Each phase of an account writes its own part of the progress
    record and nothing else: the mission runner only [missions_completed],
    the level phase only the two levels, the tapping-upgrade phase only the
    two upgrade counters, auto-play only [taps_performed]; none of them
    touches [username]. *)
Theorem each_phase_writes_its_own_fields :
  forall (respond : nat -> http_result) (latency jitter : nat -> nat)
         (fuel : nat) (cfg : config) (tok : string) (w : world),
    unchanged besides_missions w (snd (process_missions respond latency tok CAMPAIGN_ID w))
    /\ unchanged besides_levels w (snd (level_phase respond latency cfg tok w))
    /\ unchanged besides_upgrades w (snd (tapping_phase respond latency cfg tok w))
    /\ unchanged besides_taps w (snd (auto_play_game respond latency jitter fuel tok w)).
Proof.
  intros respond latency jitter fuel cfg tok w.
  split; [|split; [|split]].
  - apply (steps_process_missions (unchanged besides_missions)) with (okf := leaves besides_missions);
      unchanged_tac.
  - apply (steps_level_phase (unchanged besides_levels)) with (okf := leaves besides_levels);
      unchanged_tac.
  - apply (steps_tapping_phase (unchanged besides_upgrades))
      with (okf := leaves besides_upgrades); unchanged_tac.
  - apply (steps_auto_play_game (unchanged besides_taps)); try unchanged_tac.
    intros tok' ls.
    apply (steps_auto_play_iter (unchanged besides_taps)) with (okf := leaves besides_taps);
      unchanged_tac.
Qed.
